(** * Address book: a shallow embedding of [address_book.py]

    The development follows the source file top to bottom:

    - Python exceptions as an error monad ([result]);
    - the parts of [str] and of [datetime.date] that the program calls;
    - the field classes [Phone] and [Birthday];
    - [Record] with its in-place phone list (module [Rec]);
    - [AddressBook] and [get_upcoming_birthdays].

    A Python [str] is a sequence of code points.  The embedding uses
    Rocq's [string], whose characters are the 256 code points
    U+0000..U+00FF; on that block the tables behind [str.isspace],
    [str.isdigit] and the regular-expression class [\d] are written out
    in full. *)

From Stdlib Require Import ZArith Lia Bool Ascii String DecimalString.
From Stdlib Require Import Sorting.Sorted.
From stdpp Require Import list strings.

Local Open Scope Z_scope.

(** ** Exceptions *)

(** The two exception classes the program can meet, with their message. *)
Inductive exn : Type :=
  | ValueError (msg : string)
  | OverflowError (msg : string).

(** Outcome of a Python expression: a value, or a raised exception. *)
Inductive result (A : Type) : Type :=
  | Ok (a : A)
  | Raise (e : exn).
Arguments Ok {A} a.
Arguments Raise {A} e.

#[global] Instance result_ret : MRet result := fun A a => Ok a.
#[global] Instance result_bind : MBind result := fun A B f m =>
  match m with
  | Ok a => f a
  | Raise e => Raise e
  end.

Definition is_ok {A} (m : result A) : bool :=
  match m with Ok _ => true | Raise _ => false end.

(** ** [int] *)

Module Int.

(** [str(n)], the decimal numeral of an integer; [%i] and [%d] of the
    C library write the same. *)
Definition str (n : Z) : string := NilZero.string_of_int (Z.to_int n).

End Int.

(** ** [datetime.date] *)

Module Date.

(** A [date] object: the three fields CPython stores. *)
Record date : Type := mk { year : Z; month : Z; day : Z }.

Definition MINYEAR : Z := 1.
Definition MAXYEAR : Z := 9999.

(** [_is_leap] *)
Definition is_leap (y : Z) : bool :=
  (y mod 4 =? 0) && (negb (y mod 100 =? 0) || (y mod 400 =? 0)).

(** [_DAYS_IN_MONTH], indexed from 1. *)
Definition DAYS_IN_MONTH (m : Z) : Z :=
  match m with
  | 1 => 31 | 2 => 28 | 3 => 31 | 4 => 30 | 5 => 31 | 6 => 30
  | 7 => 31 | 8 => 31 | 9 => 30 | 10 => 31 | 11 => 30 | 12 => 31
  | _ => 0
  end.

(** [_DAYS_BEFORE_MONTH], indexed from 1. *)
Definition DAYS_BEFORE_MONTH (m : Z) : Z :=
  match m with
  | 1 => 0 | 2 => 31 | 3 => 59 | 4 => 90 | 5 => 120 | 6 => 151
  | 7 => 181 | 8 => 212 | 9 => 243 | 10 => 273 | 11 => 304 | 12 => 334
  | _ => 0
  end.

(** [_days_in_month] *)
Definition days_in_month (y m : Z) : Z :=
  if (m =? 2) && is_leap y then 29 else DAYS_IN_MONTH m.

(** [_days_before_year]: days before January 1st of year [y]. *)
Definition days_before_year (y : Z) : Z :=
  let y := y - 1 in
  y * 365 + y / 4 - y / 100 + y / 400.

(** [_days_before_month] *)
Definition days_before_month (y m : Z) : Z :=
  DAYS_BEFORE_MONTH m + (if (2 <? m) && is_leap y then 1 else 0).

(** The checks of the constructor ([_check_date_fields]). *)
Definition valid_ymd (y m d : Z) : bool :=
  (MINYEAR <=? y) && (y <=? MAXYEAR) &&
  (1 <=? m) && (m <=? 12) &&
  (1 <=? d) && (d <=? days_in_month y m).

Definition valid (dt : date) : bool := valid_ymd (year dt) (month dt) (day dt).

(** [date(year, month, day)]; every failed check is a [ValueError]. *)
Definition new (y m d : Z) : result date :=
  if negb ((MINYEAR <=? y) && (y <=? MAXYEAR)) then
    Raise (ValueError ("year " +:+ Int.str y +:+ " is out of range"))
  else if negb ((1 <=? m) && (m <=? 12)) then
    Raise (ValueError "month must be in 1..12")
  else if negb ((1 <=? d) && (d <=? days_in_month y m)) then
    Raise (ValueError "day is out of range for month")
  else Ok (mk y m d).

(** [date.toordinal]: January 1st of year 1 is day 1. *)
Definition toordinal (dt : date) : Z :=
  days_before_year (year dt) + days_before_month (year dt) (month dt) + day dt.

Definition DI400Y : Z := 146097.
Definition DI100Y : Z := 36524.
Definition DI4Y : Z := 1461.
Definition MAXORDINAL : Z := 3652059.

(** Month and day from the zero-based day of the year (the tail of
    [_ord2ymd]): an estimate of the month that is at most one too
    large, then the correction. *)
Definition month_day (leapyear : bool) (n : Z) : Z * Z :=
  let month := Z.shiftr (n + 50) 5 in
  let preceding :=
    DAYS_BEFORE_MONTH month + (if (2 <? month) && leapyear then 1 else 0) in
  if n <? preceding then
    let month' := month - 1 in
    let preceding' :=
      preceding - (DAYS_IN_MONTH month' + (if (month' =? 2) && leapyear then 1 else 0)) in
    (month', n - preceding' + 1)
  else (month, n - preceding + 1).

(** [_ord2ymd], the inverse of [toordinal]. *)
Definition ord2ymd (n : Z) : date :=
  let n := n - 1 in
  let n400 := n / DI400Y in
  let n := n mod DI400Y in
  let n100 := n / DI100Y in
  let n := n mod DI100Y in
  let n4 := n / DI4Y in
  let n := n mod DI4Y in
  let n1 := n / 365 in
  let n := n mod 365 in
  let y := n400 * 400 + 1 + n100 * 100 + n4 * 4 + n1 in
  if (n1 =? 4) || (n100 =? 4) then mk (y - 1) 12 31
  else
    let leapyear := (n1 =? 3) && (negb (n4 =? 24) || (n100 =? 3)) in
    let '(m, d) := month_day leapyear n in
    mk y m d.

(** [date + timedelta(days=k)] *)
Definition add_days (dt : date) (k : Z) : result date :=
  let o := toordinal dt + k in
  if (0 <? o) && (o <=? MAXORDINAL) then Ok (ord2ymd o)
  else Raise (OverflowError "date value out of range").

(** [date.weekday]: Monday is 0, Saturday 5, Sunday 6. *)
Definition weekday (dt : date) : Z := (toordinal dt + 6) mod 7.

(** Comparison of dates is comparison of the triples (year, month, day). *)
Definition ltb (a b : date) : bool :=
  (year a <? year b) ||
  ((year a =? year b) &&
   ((month a <? month b) || ((month a =? month b) && (day a <? day b)))).

Definition eqb (a b : date) : bool :=
  (year a =? year b) && (month a =? month b) && (day a =? day b).

Definition leb (a b : date) : bool := ltb a b || eqb a b.

End Date.

(** ** [str] *)

Module Str.

Local Open Scope N_scope.

(** Code point of a character. *)
Definition ord (c : ascii) : N := N_of_ascii c.

(** [c.isspace()]: TAB..CR, FS..US, SPACE, NEL (U+0085), NBSP (U+00A0). *)
Definition isspace (c : ascii) : bool :=
  ((9 <=? ord c) && (ord c <=? 13)) || ((28 <=? ord c) && (ord c <=? 32))
  || (ord c =? 133) || (ord c =? 160).

(** Unicode category Nd, the class [\d] of a [str] pattern: 0..9. *)
Definition isdecimal (c : ascii) : bool := (48 <=? ord c) && (ord c <=? 57).

(** [c.isdigit()]: Numeric_Type Decimal or Digit, that is 0..9 and the
    superscripts U+00B2, U+00B3 and U+00B9. *)
Definition isdigit_char (c : ascii) : bool :=
  isdecimal c || (ord c =? 178) || (ord c =? 179) || (ord c =? 185).

(** [s.lstrip()] *)
Fixpoint lstrip (s : string) : string :=
  match s with
  | EmptyString => EmptyString
  | String c s' => if isspace c then lstrip s' else s
  end.

(** [s.rstrip()] *)
Fixpoint rstrip (s : string) : string :=
  match s with
  | EmptyString => EmptyString
  | String c s' =>
      match rstrip s' with
      | EmptyString => if isspace c then EmptyString else String c EmptyString
      | t => String c t
      end
  end.

(** [s.strip()] *)
Definition strip (s : string) : string := rstrip (lstrip s).

Fixpoint all_chars (p : ascii -> bool) (s : string) : bool :=
  match s with
  | EmptyString => true
  | String c s' => p c && all_chars p s'
  end.

(** [s.isdigit()]: every character is a digit and there is at least one. *)
Definition isdigit (s : string) : bool :=
  match s with
  | EmptyString => false
  | _ => all_chars isdigit_char s
  end.

(** [len(s)] *)
Definition len (s : string) : Z := Z.of_nat (String.length s).

(** The value of [int(s)] on a string of decimal digits with optional
    surrounding white space (the only strings the program converts). *)
Fixpoint int_acc (acc : Z) (s : string) : Z :=
  match s with
  | EmptyString => acc
  | String c s' => int_acc (10 * acc + (Z.of_N (ord c) - 48))%Z s'
  end.

Definition int (s : string) : Z := int_acc 0 (strip s).

(** One decimal digit as a character. *)
Definition digit (n : Z) : ascii := ascii_of_N (Z.to_N (48 + n mod 10)).

(** [%02d] and [%04d]: two and four digits, with leading zeros. *)
Definition dd (n : Z) : string :=
  String (digit (n / 10)) (String (digit n) EmptyString).
Definition dddd (n : Z) : string :=
  String (digit (n / 1000)) (String (digit (n / 100)) (dd n)).

End Str.

(** ** [datetime.strptime] and [date.strftime] for the formats in use *)

Module Strptime.

Definition lit (x : ascii) (c : ascii) : bool := (Str.ord c =? Str.ord x)%N.
Definition range (lo hi : ascii) (c : ascii) : bool :=
  ((Str.ord lo <=? Str.ord c) && (Str.ord c <=? Str.ord hi))%N.

(** Matching a piece of the pattern against the front of [s] gives the
    ways it can match, in the order the backtracking matcher tries
    them, each with the matched text and the rest of the input. *)
Definition one (p : ascii -> bool) (s : string) : list (string * string) :=
  match s with
  | String a r => if p a then [(String a EmptyString, r)] else []
  | _ => []
  end.

Definition two (p q : ascii -> bool) (s : string) : list (string * string) :=
  match s with
  | String a (String b r) =>
      if p a && q b then [(String a (String b EmptyString), r)] else []
  | _ => []
  end.

(** [%d]: [3[0-1]|[1-2]\d|0[1-9]|[1-9]| [1-9]] *)
Definition re_d (s : string) : list (string * string) :=
  two (lit "3") (range "0" "1") s ++ two (range "1" "2") Str.isdecimal s ++
  two (lit "0") (range "1" "9") s ++ one (range "1" "9") s ++
  two (lit " ") (range "1" "9") s.

(** [%m]: [1[0-2]|0[1-9]|[1-9]] *)
Definition re_m (s : string) : list (string * string) :=
  two (lit "1") (range "0" "2") s ++ two (lit "0") (range "1" "9") s ++
  one (range "1" "9") s.

(** [%Y]: [\d\d\d\d] *)
Definition re_Y (s : string) : list (string * string) :=
  match s with
  | String a (String b (String c (String d r))) =>
      if Str.isdecimal a && Str.isdecimal b && Str.isdecimal c && Str.isdecimal d
      then [(String a (String b (String c (String d EmptyString))), r)] else []
  | _ => []
  end.

(** The escaped separator [\.] *)
Definition re_dot (s : string) : list string :=
  match s with
  | String a r => if lit "." a then [r] else []
  | _ => []
  end.

(** [format_regex.match(data_string)] for the format [%d.%m.%Y]: the
    first way to match the whole pattern at the start of the input;
    the groups d, m and Y and what is left after the match. *)
Definition regex_match (s : string) : option (string * string * string * string) :=
  head ('(d, r1) ← re_d s;
        r2 ← re_dot r1;
        '(m, r3) ← re_m r2;
        r4 ← re_dot r3;
        '(Y, r5) ← re_Y r4;
        [(d, m, Y, r5)]).

(** [datetime.strptime(data_string, "%d.%m.%Y").date()] *)
Definition strptime (data_string : string) : result Date.date :=
  match regex_match data_string with
  | None => Raise (ValueError "time data does not match format")
  | Some (d, m, Y, rest) =>
      match rest with
      | EmptyString => Date.new (Str.int Y) (Str.int m) (Str.int d)
      | _ => Raise (ValueError "unconverted data remains")
      end
  end.

(** [date.strftime] hands the format to the [strftime] of the C
    library.  There [%d] and [%m] have two digits, and [%Y] is the
    year as a decimal numeral without padding: the year 999 is
    written with three digits. *)

(** [dt.strftime("%Y-%m-%d")] *)
Definition strftime_iso (dt : Date.date) : string :=
  Int.str (Date.year dt) +:+ "-" +:+ Str.dd (Date.month dt) +:+ "-" +:+
  Str.dd (Date.day dt).

(** [dt.strftime("%d.%m.%Y")] *)
Definition strftime_dmy (dt : Date.date) : string :=
  Str.dd (Date.day dt) +:+ "." +:+ Str.dd (Date.month dt) +:+ "." +:+
  Int.str (Date.year dt).

End Strptime.

(** ** The field classes *)

Module Phone.

(** The setter of [Phone.value]: the new [_value], or the exception
    raised before anything is assigned.  [Field.__init__] assigns
    through the same setter, so construction runs the same check. *)
Definition value_setter (new_value : string) : result string :=
  let normalized := Str.strip new_value in
  if negb (Str.isdigit normalized && (Str.len normalized =? 10)) then
    Raise (ValueError "Phone number must be 10 digits.")
  else Ok normalized.

(** [Phone(value)] *)
Definition init (value : string) : result string := value_setter value.

End Phone.

Module Birthday.

(** The setter of [Birthday.value]; every [ValueError] of the parse is
    replaced by the class's own. *)
Definition value_setter (new_value : string) : result Date.date :=
  let raw := Str.strip new_value in
  match Strptime.strptime raw with
  | Ok parsed => Ok parsed
  | Raise (ValueError _) => Raise (ValueError "Invalid date format. Use DD.MM.YYYY")
  | Raise e => Raise e
  end.

(** [Birthday(value)] *)
Definition init (value : string) : result Date.date := value_setter value.

End Birthday.

(** ** [Record] *)

Module Rec.

(** The state of a [Record] object.  Each [Phone] in [phones] is an
    object of its own, created by [add_phone] and referred to by its
    position in the list; the list holds its [_value]. *)
Record record : Type := mk {
  name : string;
  phones : list string;
  birthday : option Date.date
}.

Definition set_phones (r : record) (ps : list string) : record :=
  mk (name r) ps (birthday r).

Definition set_birthday (r : record) (b : option Date.date) : record :=
  mk (name r) (phones r) b.

(** [Record(name)] *)
Definition init (name : string) : record := mk name [] None.

(** [find_phone]: the first phone whose value equals the argument, as
    its position and its value. *)
Definition find_phone (phone : string) (self : record) : option (nat * string) :=
  list_find (fun p => p = phone) (phones self).

(** A method call: its outcome and the state of the object after it
    (also when it raises). *)
Definition add_phone (phone : string) (self : record) : result string * record :=
  match Phone.init phone with
  | Ok phone_obj => (Ok phone_obj, set_phones self (phones self ++ [phone_obj]))
  | Raise e => (Raise e, self)
  end.

Definition remove_phone (phone : string) (self : record) : result bool * record :=
  match find_phone phone self with
  | None => (Ok false, self)
  | Some (i, _) => (Ok true, set_phones self (delete i (phones self)))
  end.

Definition edit_phone (old_phone new_phone : string) (self : record)
  : result bool * record :=
  match find_phone old_phone self with
  | None => (Ok false, self)
  | Some (i, _) =>
      match Phone.value_setter new_phone with
      | Ok v => (Ok true, set_phones self (<[i := v]> (phones self)))
      | Raise e => (Raise e, self)
      end
  end.

Definition add_birthday (b : string) (self : record) : result Date.date * record :=
  match Birthday.init b with
  | Ok v => (Ok v, set_birthday self (Some v))
  | Raise e => (Raise e, self)
  end.

(** [add_phone] and [find_phone] hand out the stored [Phone] object
    and [add_birthday] the stored [Birthday]: their holder can assign
    to [value], which runs the setter on the object the record
    holds.  The phone is named by its position; a position outside
    the list stands for an object the record no longer holds. *)
Definition set_phone_value (i : nat) (new_value : string) (self : record)
  : result unit * record :=
  match Phone.value_setter new_value with
  | Ok v => (Ok tt, set_phones self (<[i := v]> (phones self)))
  | Raise e => (Raise e, self)
  end.

Definition set_birthday_value (new_value : string) (self : record)
  : result unit * record :=
  match Birthday.value_setter new_value with
  | Ok v =>
      (Ok tt, match birthday self with
              | Some _ => set_birthday self (Some v)
              | None => self
              end)
  | Raise e => (Raise e, self)
  end.

(** The mutating operations on a record, and the state they leave. *)
Inductive op : Type :=
  | AddPhone (phone : string)
  | RemovePhone (phone : string)
  | EditPhone (old_phone new_phone : string)
  | AddBirthday (b : string)
  | SetPhoneValue (i : nat) (new_value : string)
  | SetBirthdayValue (new_value : string).

Definition step (self : record) (o : op) : record :=
  match o with
  | AddPhone p => snd (add_phone p self)
  | RemovePhone p => snd (remove_phone p self)
  | EditPhone p q => snd (edit_phone p q self)
  | AddBirthday b => snd (add_birthday b self)
  | SetPhoneValue i v => snd (set_phone_value i v self)
  | SetBirthdayValue v => snd (set_birthday_value v self)
  end.

Definition run (ops : list op) (self : record) : record := fold_left step ops self.

End Rec.

(** ** [AddressBook] *)

Module AddressBook.

(** [self.data]: a [dict], which keeps its keys in insertion order. *)
Abbreviation book := (list (string * Rec.record)).

(** [self.data[key] = record]: an existing key keeps its place. *)
Fixpoint setitem (key : string) (record : Rec.record) (data : book) : book :=
  match data with
  | [] => [(key, record)]
  | (k, r) :: rest =>
      if String.eqb k key then (k, record) :: rest
      else (k, r) :: setitem key record rest
  end.

Definition add_record (record : Rec.record) (data : book) : book :=
  setitem (Rec.name record) record data.

Fixpoint find (name : string) (data : book) : option Rec.record :=
  match data with
  | [] => None
  | (k, r) :: rest => if String.eqb k name then Some r else find name rest
  end.

Fixpoint delitem (name : string) (data : book) : book :=
  match data with
  | [] => []
  | (k, r) :: rest => if String.eqb k name then rest else (k, r) :: delitem name rest
  end.

Definition delete (name : string) (data : book) : bool * book :=
  match find name data with
  | Some _ => (true, delitem name data)
  | None => (false, data)
  end.

(** A record object is shared between the book and whoever obtained
    it from [find]: an operation on it changes the book's entry. *)
Fixpoint mutate (name : string) (o : Rec.op) (data : book) : book :=
  match data with
  | [] => []
  | (k, r) :: rest =>
      if String.eqb k name then (k, Rec.step r o) :: rest
      else (k, r) :: mutate name o rest
  end.

(** [self.data.values()] *)
Definition values (data : book) : list Rec.record := map snd data.

(** One element of the list [get_upcoming_birthdays] returns. *)
Record entry : Type := mk_entry { name : string; congratulation_date : string }.

(** The [try] block: [None] stands for [continue]. *)
Definition bday_this_year (year month day : Z) : result (option Date.date) :=
  match Date.new year month day with
  | Ok d => Ok (Some d)
  | Raise (ValueError _) =>
      if (month =? 2) && (day =? 29) then d ← Date.new year 2 28; Ok (Some d)
      else Ok None
  | Raise e => Raise e
  end.

(** The conditional expression that rolls a past birthday forward. *)
Definition candidate (today this_year : Date.date) (month day : Z)
  : result Date.date :=
  if Date.leb today this_year then Ok this_year
  else Date.new (Date.year today + 1) month
         (if negb ((month =? 2) && (day =? 29)) then day else 28).

(** The move of a weekend date to the following Monday. *)
Definition shift_weekend (congratulation_date : Date.date) : result Date.date :=
  if Date.weekday congratulation_date =? 5 then Date.add_days congratulation_date 2
  else if Date.weekday congratulation_date =? 6 then Date.add_days congratulation_date 1
  else Ok congratulation_date.

(** The body of the [for] loop for one record: the entry it appends,
    if any. *)
Definition visit (today end_date : Date.date) (record : Rec.record)
  : result (option entry) :=
  match Rec.birthday record with
  | None => Ok None
  | Some bday =>
      let year := Date.year today in
      let month := Date.month bday in
      let day := Date.day bday in
      o ← bday_this_year year month day;
      match o with
      | None => Ok None
      | Some this_year =>
          c ← candidate today this_year month day;
          if Date.leb today c && Date.leb c end_date then
            congratulation_date ← shift_weekend c;
            Ok (Some (mk_entry (Rec.name record)
                        (Strptime.strftime_iso congratulation_date)))
          else Ok None
      end
  end.

Fixpoint loop (today end_date : Date.date) (records : list Rec.record)
  (upcoming : list entry) : result (list entry) :=
  match records with
  | [] => Ok upcoming
  | record :: rest =>
      o ← visit today end_date record;
      loop today end_date rest
        (match o with Some e => upcoming ++ [e] | None => upcoming end)
  end.

(** The sort key [(x["congratulation_date"], x["name"])] and the
    order of tuples of strings. *)
Definition key (x : entry) : string * string := (congratulation_date x, name x).

Definition key_ltb (a b : string * string) : bool :=
  String.ltb (fst a) (fst b) ||
  (String.eqb (fst a) (fst b) && String.ltb (snd a) (snd b)).

(** [list.sort(key=...)] is a stable sort that only asks whether one
    key is less than another; its result is the one of this insertion
    sort, which puts an element before the first one that is not
    smaller. *)
Fixpoint insert_sorted (x : entry) (l : list entry) : list entry :=
  match l with
  | [] => [x]
  | y :: l' => if key_ltb (key y) (key x) then y :: insert_sorted x l' else x :: l
  end.

Fixpoint sort (l : list entry) : list entry :=
  match l with
  | [] => []
  | x :: l' => insert_sorted x (sort l')
  end.

(** [get_upcoming_birthdays], with the date the clock gives
    ([date.today()]) as an argument. *)
Definition get_upcoming_birthdays (today : Date.date) (data : book)
  : result (list entry) :=
  end_date ← Date.add_days today 7;
  upcoming ← loop today end_date (values data) [];
  Ok (sort upcoming).

(** The states of a book that the operations produce from the empty
    one.  A record that is added was built by [Record(name)] and its
    own operations. *)
Inductive reachable : book -> Prop :=
  | reach_empty : reachable []
  | reach_add name ops data :
      reachable data -> reachable (add_record (Rec.run ops (Rec.init name)) data)
  | reach_delete name data :
      reachable data -> reachable (snd (delete name data))
  | reach_mutate name o data :
      reachable data -> reachable (mutate name o data).

End AddressBook.

(** ** More of [str], for the command line *)

Module Text.

(** [c.lower()] on the code points below 256: A..Z, and the capital
    letters U+00C0..U+00DE without the multiplication sign U+00D7,
    move up by 32. *)
Definition lower_char (c : ascii) : ascii :=
  let n := Str.ord c in
  if (((65 <=? n) && (n <=? 90)) ||
      ((192 <=? n) && (n <=? 222) && negb (n =? 215)))%N
  then ascii_of_N (n + 32) else c.

(** [s.lower()] *)
Fixpoint lower (s : string) : string :=
  match s with
  | EmptyString => EmptyString
  | String c s' => String (lower_char c) (lower s')
  end.

(** [s.split()]: the maximal runs of characters that are not white
    space, in order. *)
Fixpoint split (s : string) : list string :=
  match s with
  | EmptyString => []
  | String c s' =>
      if Str.isspace c then split s'
      else
        match s' with
        | EmptyString => [String c EmptyString]
        | String c' _ =>
            if Str.isspace c' then String c EmptyString :: split s'
            else
              match split s' with
              | w :: ws => String c w :: ws
              | [] => [String c EmptyString]
              end
        end
  end.

(** [sep.join(l)] *)
Fixpoint join (sep : string) (l : list string) : string :=
  match l with
  | [] => EmptyString
  | [x] => x
  | x :: rest => x +:+ sep +:+ join sep rest
  end.

(** [str(n)] for a length. *)
Definition of_nat (n : nat) : string := NilZero.string_of_uint (Nat.to_uint n).

(** The line feed. *)
Definition LF : string := String "010" EmptyString.

(** [sorted(l)] on strings: a stable sort that asks for [<] only. *)
Fixpoint insert (x : string) (l : list string) : list string :=
  match l with
  | [] => [x]
  | y :: l' => if String.ltb y x then y :: insert x l' else x :: l
  end.

Fixpoint sorted (l : list string) : list string :=
  match l with
  | [] => []
  | x :: l' => insert x (sorted l')
  end.

End Text.

(** ** The command line *)

Module Cli.

(** [parse_input] *)
Definition parse_input (user_input : string) : string * list string :=
  match Text.split (Str.strip user_input) with
  | [] => (EmptyString, [])
  | command :: args => (Text.lower command, args)
  end.

(** The body of a handler: what it returns or raises, and the book
    it leaves behind. *)
Definition body : Type :=
  list string -> AddressBook.book -> result string * AddressBook.book.

(** [input_error]: the message of a [ValueError] is the answer; any
    other exception gives the fixed answer of the last clause.  The
    handlers contain nothing that raises a [KeyError] or an
    [IndexError], the two clauses in between. *)
Definition input_error (func : body) (args : list string)
  (book : AddressBook.book) : string * AddressBook.book :=
  match func args book with
  | (Ok answer, book') => (answer, book')
  | (Raise (ValueError msg), book') => (msg, book')
  | (Raise _, book') => ("An unexpected error occurred.", book')
  end.

(** The [ValueError] of a starred unpacking [x1, ..., xn, *_ = args]
    with fewer than [n] arguments. *)
Definition unpack_error (n : nat) (args : list string) : exn :=
  ValueError ("not enough values to unpack (expected at least " +:+
              Text.of_nat n +:+ ", got " +:+ Text.of_nat (length args) +:+ ")").

(** A method call on the record object the book holds under [name]:
    the object changes in place. *)
Definition call {A} (name : string) (method : Rec.record -> result A * Rec.record)
  (record : Rec.record) (book : AddressBook.book)
  : result A * Rec.record * AddressBook.book :=
  let '(res, record') := method record in
  (res, record', AddressBook.setitem name record' book).

(** Truth of a string: it is not empty. *)
Definition truthy (s : string) : bool :=
  match s with EmptyString => false | _ => true end.

Definition add_contact_body : body := fun args book =>
  match args with
  | name :: phone :: _ =>
      let '(record, message, book) :=
        match AddressBook.find name book with
        | Some record => (record, "Contact updated.", book)
        | None =>
            let record := Rec.init name in
            (record, "Contact added.", AddressBook.add_record record book)
        end in
      if truthy phone then
        match call name (Rec.add_phone phone) record book with
        | (Ok _, _, book) => (Ok message, book)
        | (Raise e, _, book) => (Raise e, book)
        end
      else (Ok message, book)
  | _ => (Raise (unpack_error 2 args), book)
  end.

Definition add_contact := input_error add_contact_body.

Definition change_phone_body : body := fun args book =>
  match args with
  | name :: old_phone :: new_phone :: _ =>
      match AddressBook.find name book with
      | None => (Ok "Contact not found.", book)
      | Some record =>
          match call name (Rec.edit_phone old_phone new_phone) record book with
          | (Ok true, _, book) => (Ok "Phone updated.", book)
          | (Ok false, _, book) => (Ok "Old phone not found.", book)
          | (Raise e, _, book) => (Raise e, book)
          end
      end
  | _ => (Raise (unpack_error 3 args), book)
  end.

Definition change_phone := input_error change_phone_body.

Definition show_phones_body : body := fun args book =>
  match args with
  | name :: _ =>
      match AddressBook.find name book with
      | None => (Ok "Contact not found.", book)
      | Some record =>
          match Rec.phones record with
          | [] => (Ok "No phones.", book)
          | phones => (Ok (Text.join ", " phones), book)
          end
      end
  | _ => (Raise (unpack_error 1 args), book)
  end.

Definition show_phones := input_error show_phones_body.

(** One line of [show_all]. *)
Definition contact_line (record : Rec.record) : string :=
  let phones :=
    match Rec.phones record with
    | [] => "no phones"
    | ps => Text.join "; " ps
    end in
  let bday :=
    match Rec.birthday record with
    | Some b => Strptime.strftime_dmy b
    | None => "N/A"
    end in
  Rec.name record +:+ ": " +:+ phones +:+ "; birthday: " +:+ bday.

Definition show_all_body : body := fun args book =>
  match book with
  | [] => (Ok "No contacts found.", book)
  | _ => (Ok (Text.join Text.LF (map contact_line (AddressBook.values book))), book)
  end.

Definition show_all := input_error show_all_body.

Definition add_birthday_body : body := fun args book =>
  match args with
  | name :: birthday_str :: _ =>
      match AddressBook.find name book with
      | None => (Ok "Contact not found.", book)
      | Some record =>
          match call name (Rec.add_birthday birthday_str) record book with
          | (Ok _, _, book) => (Ok "Birthday added.", book)
          | (Raise e, _, book) => (Raise e, book)
          end
      end
  | _ => (Raise (unpack_error 2 args), book)
  end.

Definition add_birthday := input_error add_birthday_body.

Definition show_birthday_body : body := fun args book =>
  match args with
  | name :: _ =>
      match AddressBook.find name book with
      | None => (Ok "Contact not found.", book)
      | Some record =>
          match Rec.birthday record with
          | None => (Ok "Birthday not set.", book)
          | Some b => (Ok (Strptime.strftime_dmy b), book)
          end
      end
  | _ => (Raise (unpack_error 1 args), book)
  end.

Definition show_birthday := input_error show_birthday_body.

(** [grouped.setdefault(day, []).append(name)] on a [dict] that keeps
    its keys in insertion order. *)
Fixpoint setdefault_append (day name : string) (grouped : list (string * list string))
  : list (string * list string) :=
  match grouped with
  | [] => [(day, [name])]
  | (k, names) :: rest =>
      if String.eqb k day then (k, names ++ [name]) :: rest
      else (k, names) :: setdefault_append day name rest
  end.

Definition group (upcoming : list AddressBook.entry) : list (string * list string) :=
  fold_left
    (fun grouped item =>
       setdefault_append (AddressBook.congratulation_date item)
         (AddressBook.name item) grouped)
    upcoming [].

(** [grouped[day]] for a key of [grouped]. *)
Fixpoint getitem (day : string) (grouped : list (string * list string))
  : list string :=
  match grouped with
  | [] => []
  | (k, names) :: rest => if String.eqb k day then names else getitem day rest
  end.

Definition day_line (grouped : list (string * list string)) (day : string) : string :=
  day +:+ ": " +:+ Text.join ", " (Text.sorted (getitem day grouped)).

(** [birthdays], with the date of the clock as for the query. *)
Definition birthdays_body (today : Date.date) : body := fun args book =>
  match AddressBook.get_upcoming_birthdays today book with
  | Raise e => (Raise e, book)
  | Ok [] => (Ok "No birthdays in the next week.", book)
  | Ok upcoming =>
      let grouped := group upcoming in
      let lines := map (day_line grouped) (Text.sorted (map fst grouped)) in
      (Ok (Text.join Text.LF lines), book)
  end.

Definition birthdays (today : Date.date) := input_error (birthdays_body today).

(** One turn of the loop of [main] after the line is read: what is
    printed, the book, and whether the loop goes on.  Writing the
    book to disk on [close] and [exit] is outside the model. *)
Definition turn (today : Date.date) (user_input : string) (book : AddressBook.book)
  : string * AddressBook.book * bool :=
  let '(command, args) := parse_input user_input in
  if String.eqb command "close" || String.eqb command "exit" then
    ("Good bye!", book, false)
  else if String.eqb command "hello" then ("How can I help you?", book, true)
  else if String.eqb command "add" then (add_contact args book, true)
  else if String.eqb command "change" then (change_phone args book, true)
  else if String.eqb command "phone" then (show_phones args book, true)
  else if String.eqb command "all" then (show_all args book, true)
  else if String.eqb command "add-birthday" then (add_birthday args book, true)
  else if String.eqb command "show-birthday" then (show_birthday args book, true)
  else if String.eqb command "birthdays" then (birthdays today args book, true)
  else ("Invalid command.", book, true).

(** The loop on the lines typed, until it stops or the lines end:
    what was printed after the greeting, and the book. *)
Fixpoint session (today : Date.date) (lines : list string) (book : AddressBook.book)
  : list string * AddressBook.book :=
  match lines with
  | [] => ([], book)
  | user_input :: rest =>
      let '(printed, book', go_on) := turn today user_input book in
      if go_on then
        let '(more, book'') := session today rest book' in
        (printed :: more, book'')
      else ([printed], book')
  end.

End Cli.

(** * Notions used to state the properties *)

Module Spec.
Import Date.

(** Number of days of a year. *)
Definition days_in_year (y : Z) : Z := if is_leap y then 366 else 365.

(** What [month_day] must deliver on day [n] of a year. *)
Definition month_day_ok (leapyear : bool) (n : Z) : bool :=
  let '(m, d) := month_day leapyear n in
  (1 <=? m) && (m <=? 12) && (1 <=? d) &&
  (d <=? DAYS_IN_MONTH m + (if (m =? 2) && leapyear then 1 else 0)) &&
  (DAYS_BEFORE_MONTH m + (if (2 <? m) && leapyear then 1 else 0) + d =? n + 1).

(** A birthday on the leap day. *)
Definition feb29 (b : date) : bool := (month b =? 2) && (day b =? 29).

(** The day on which a birthday is observed in year [y]: the same
    month and day, and February 28th for a leap-day birthday when
    [y] is not a leap year. *)
Definition observed (y : Z) (b : date) : date :=
  if feb29 b && negb (is_leap y) then mk y 2 28 else mk y (month b) (day b).

(** The date the conditional expression of the roll-forward builds
    when the observed day has passed. *)
Definition rolled (today b : date) : date :=
  mk (year today + 1) (month b) (if feb29 b then 28 else day b).


(** The entry a record contributes, if any. *)
Definition appended (today end_date : date) (r : Rec.record)
  : option AddressBook.entry :=
  match AddressBook.visit today end_date r with
  | Ok o => o
  | Raise _ => None
  end.

(** Order of the sort keys: by date string, then by name. *)
Definition key_le (a b : AddressBook.entry) : Prop :=
  String.ltb (AddressBook.congratulation_date a) (AddressBook.congratulation_date b) = true \/
  (AddressBook.congratulation_date a = AddressBook.congratulation_date b /\
   String.leb (AddressBook.name a) (AddressBook.name b) = true).

(** The invariant of a record: the phone rule for every stored phone,
    and a stored birthday is a date. *)
Definition phone_rule (p : string) : Prop :=
  Str.isdigit p = true /\ String.length p = 10%nat.

Definition not_space (c : ascii) : bool := negb (Str.isspace c).

(** The message of a rejected phone. *)
Definition message : string := "Phone number must be 10 digits.".

(** The characters [str.isdigit] accepts, and the ASCII ones among
    them. *)
Definition py_digit (c : ascii) : Prop :=
  (48 <= Str.ord c <= 57)%N \/ Str.ord c = 178%N \/ Str.ord c = 179%N \/
  Str.ord c = 185%N.

Definition ascii_digit (c : ascii) : Prop := (48 <= Str.ord c <= 57)%N.

Definition ten (P : ascii -> Prop) (s : string) : Prop :=
  String.length s = 10%nat /\ Forall P (list_ascii_of_string s).

Definition birthday_ok (r : Rec.record) : Prop :=
  forall b, Rec.birthday r = Some b -> valid b = true.

(** The value of a decimal digit character. *)
Definition val (a : ascii) : Z := Z.of_N (Str.ord a) - 48.

(** A day or a month as [strptime] accepts it: with two digits, or
    with one digit when it is below ten. *)
Definition text1 (v : Z) : string := String (Str.digit v) EmptyString.

Definition field_text (v : Z) (t : string) : Prop :=
  t = Str.dd v \/ (1 <= v <= 9 /\ t = text1 v).

Definition lenient (d : date) (s : string) : Prop :=
  exists ds ms, field_text (day d) ds /\ field_text (month d) ms /\
    s = ds +:+ "." +:+ ms +:+ "." +:+ Str.dddd (year d).

(** The text DD.MM.YYYY of a date: two, two and four digits. *)
Definition dmy_text (d : date) : string :=
  Str.dd (day d) +:+ "." +:+ Str.dd (month d) +:+ "." +:+ Str.dddd (year d).

(** The strict shape DD.MM.YYYY: ten characters, decimal digits
    around the two separators. *)
Definition strict_dmy (s : string) : bool :=
  match s with
  | String a (String b (String p (String c (String d (String q
      (String e (String f (String g (String h EmptyString))))))))) =>
      Str.isdecimal a && Str.isdecimal b && Strptime.lit "." p &&
      Str.isdecimal c && Str.isdecimal d && Strptime.lit "." q &&
      Str.isdecimal e && Str.isdecimal f && Str.isdecimal g && Str.isdecimal h
  | _ => false
  end.

Definition wf (r : Rec.record) : Prop :=
  Forall phone_rule (Rec.phones r) /\ birthday_ok r.

Definition book_wf (data : AddressBook.book) : Prop :=
  Forall (fun kr => wf (snd kr)) data.

Definition has_birthday (kr : string * Rec.record) : bool :=
  match Rec.birthday (snd kr) with Some _ => true | None => false end.

End Spec.

(** * Notions for the further properties *)

Module Props.

(** The keys of a book are distinct, and each is the name of its
    record. *)
Definition keyed (data : AddressBook.book) : Prop :=
  NoDup (map fst data) /\ Forall (fun kr => fst kr = Rec.name (snd kr)) data.

(** A word of the command line: not empty and free of white space. *)
Definition token (w : string) : Prop :=
  w <> EmptyString /\ Str.all_chars Spec.not_space w = true.

(** A line of white space only. *)
Definition blank (s : string) : Prop := Str.all_chars Str.isspace s = true.

(** Order of strings, as [<=]. *)
Definition str_le (a b : string) : Prop := String.leb a b = true.
Definition str_lt (a b : string) : Prop := String.ltb a b = true.

(** The text of the error of an unpacking that asks for at least
    [n] values. *)
Definition unpack_message (n : nat) (args : list string) : string :=
  "not enough values to unpack (expected at least " +:+ Text.of_nat n +:+
  ", got " +:+ Text.of_nat (length args) +:+ ")".

(** The commands of [main] that change the book. *)
Definition changing : list string := ["add"; "change"; "add-birthday"].

(** The commands that end the loop. *)
Definition stopping : list string := ["close"; "exit"].

(** The line of one group of [birthdays], without sorting. *)
Definition group_line (g : string * list string) : string :=
  fst g +:+ ": " +:+ Text.join ", " (snd g).

(** Comparison of dates as triples. *)
Definition date_compare (a b : Date.date) : comparison :=
  match Date.year a ?= Date.year b with
  | Eq => match Date.month a ?= Date.month b with
          | Eq => Date.day a ?= Date.day b
          | c => c
          end
  | c => c
  end.

(** What the groups built so far promise about the entries still to
    come: dates in ascending order, no group empty, the names of a
    group in ascending order, and no entry to come before one that
    is grouped. *)
Definition group_ok (rest : list AddressBook.entry)
  (grouped : list (string * list string)) : Prop :=
  StronglySorted str_lt (map fst grouped) /\
  Forall (fun kn =>
            snd kn <> [] /\ StronglySorted str_le (snd kn) /\
            Forall (fun n =>
                      Forall (Spec.key_le (AddressBook.mk_entry n (fst kn))) rest)
              (snd kn))
    grouped.

End Props.

(** * Sample inputs *)

Module Sample.

(** Monday, January 1st 2024. *)
Definition monday : Date.date := Date.mk 2024 1 1.

(** Saturday, December 30th 2023. *)
Definition saturday : Date.date := Date.mk 2023 12 30.

(** Monday, February 24th 2025, in a year without a leap day. *)
Definition february : Date.date := Date.mk 2025 2 24.

(** Wednesday, March 1st 2023: the year before a leap year. *)
Definition march : Date.date := Date.mk 2023 3 1.

Definition contact (name birthday : string) : Rec.record :=
  Rec.run [Rec.AddBirthday birthday] (Rec.init name).

Definition alice : Rec.record := contact "Alice" "06.01.1990".
Definition bob : Rec.record := contact "Bob" "08.01.2000".
Definition leap : Rec.record := contact "Leap" "29.02.1996".

Definition book_of (rs : list Rec.record) : AddressBook.book :=
  fold_left (fun data r => AddressBook.add_record r data) rs [].

(** Ten times the superscript two, U+00B2. *)
Definition superscripts : string :=
  String "178" (String "178" (String "178" (String "178" (String "178"
  (String "178" (String "178" (String "178" (String "178" (String "178"
  EmptyString))))))))).

(** A record with two phones. *)
Definition two_phones : Rec.record :=
  Rec.run [Rec.AddPhone "0123456789"; Rec.AddPhone "1111111111"] (Rec.init "Carol").

End Sample.

(** * More sample inputs *)

Module Inputs.

(** The book with Alice (birthday 06.01.1990) and Bob (08.01.2000). *)
Definition friends : AddressBook.book := Sample.book_of [Sample.alice; Sample.bob].

(** A book with one contact who has two phones. *)
Definition carol_book : AddressBook.book := Sample.book_of [Sample.two_phones].

(** A contact who has the same phone twice. *)
Definition twice : Rec.record :=
  Rec.run [Rec.AddPhone "1111111111"; Rec.AddPhone "0123456789";
           Rec.AddPhone "1111111111"] (Rec.init "Dora").

End Inputs.

(** * Facts about the calendar *)

Module DateFacts.
Import Date Spec.

(** Reflection of the boolean tests used by the definitions. *)
Ltac bool_to_prop :=
  repeat match goal with
  | H : _ && _ = true |- _ => apply andb_prop in H; destruct H
  | H : _ || _ = true |- _ => apply orb_prop in H
  | H : _ && _ = false |- _ => apply andb_false_iff in H
  | H : _ || _ = false |- _ => apply orb_false_iff in H; destruct H
  | H : negb _ = true |- _ => apply negb_true_iff in H
  | H : negb _ = false |- _ => apply negb_false_iff in H
  | H : (_ <=? _) = true |- _ => apply Z.leb_le in H
  | H : (_ <=? _) = false |- _ => apply Z.leb_gt in H
  | H : (_ <? _) = true |- _ => apply Z.ltb_lt in H
  | H : (_ <? _) = false |- _ => apply Z.ltb_ge in H
  | H : (_ =? _) = true |- _ => apply Z.eqb_eq in H
  | H : (_ =? _) = false |- _ => apply Z.eqb_neq in H
  end.

Lemma valid_ymd_iff y m d :
  valid_ymd y m d = true <->
  1 <= y <= 9999 /\ 1 <= m <= 12 /\ 1 <= d <= days_in_month y m.
Proof.
  unfold valid_ymd, MINYEAR, MAXYEAR.
  rewrite !andb_true_iff, !Z.leb_le. lia.
Qed.

Lemma new_valid y m d : valid_ymd y m d = true -> new y m d = Ok (mk y m d).
Proof.
  intros H. apply valid_ymd_iff in H. unfold new, MINYEAR, MAXYEAR.
  destruct H as ((?&?)&(?&?)&(?&?)).
  repeat match goal with
  | |- context [?a <=? ?b] =>
      replace (a <=? b) with true by (symmetry; apply Z.leb_le; lia)
  end.
  reflexivity.
Qed.

Lemma new_inv y m d dt : new y m d = Ok dt -> dt = mk y m d /\ valid_ymd y m d = true.
Proof.
  unfold new, valid_ymd.
  destruct ((MINYEAR <=? y) && (y <=? MAXYEAR)) eqn:Hy; simpl; [|discriminate].
  destruct ((1 <=? m) && (m <=? 12)) eqn:Hm; simpl; [|discriminate].
  destruct ((1 <=? d) && (d <=? days_in_month y m)) eqn:Hd; simpl; [|discriminate].
  intros [= <-]. split; [reflexivity|].
  bool_to_prop.
  repeat match goal with
  | H : ?a <= ?b |- context [?a <=? ?b] =>
      replace (a <=? b) with true by (symmetry; apply Z.leb_le; lia)
  end.
  reflexivity.
Qed.

(** A failed construction is always a [ValueError]. *)
Lemma new_raise y m d e : new y m d = Raise e -> exists msg, e = ValueError msg.
Proof.
  unfold new. repeat (destruct (negb _)); intros [= <-]; eauto.
Qed.

Lemma month_cases m : 1 <= m <= 12 ->
  m = 1 \/ m = 2 \/ m = 3 \/ m = 4 \/ m = 5 \/ m = 6 \/
  m = 7 \/ m = 8 \/ m = 9 \/ m = 10 \/ m = 11 \/ m = 12.
Proof. lia. Qed.

Ltac each_month m H :=
  destruct (month_cases m H) as
    [->|[->|[->|[->|[->|[->|[->|[->|[->|[->|[->| ->]]]]]]]]]]].

(** The days of a year before and within a month stay inside the year. *)
Lemma day_of_year_bounds y m d :
  1 <= m <= 12 -> 1 <= d <= days_in_month y m ->
  1 <= days_before_month y m + d <= days_in_year y.
Proof.
  intros Hm Hd. unfold days_before_month, days_in_month, days_in_year in *.
  each_month m Hm; simpl in *; destruct (is_leap y); simpl in *; lia.
Qed.

(** Within one year the day of the year orders (month, day) pairs. *)
Lemma day_of_year_lt y m d m' d' :
  1 <= m <= 12 -> 1 <= d <= days_in_month y m ->
  1 <= m' <= 12 -> 1 <= d' <= days_in_month y m' ->
  m < m' \/ (m = m' /\ d < d') ->
  days_before_month y m + d < days_before_month y m' + d'.
Proof.
  intros Hm Hd Hm' Hd' Hlt.
  unfold days_before_month, days_in_month in *.
  destruct (is_leap y);
    each_month m Hm; simpl in *; each_month m' Hm'; simpl in *; lia.
Qed.

(** The first day of the next year comes one year's length later. *)
Lemma days_before_year_succ y :
  days_before_year (y + 1) = days_before_year y + days_in_year y.
Proof.
  unfold days_before_year, days_in_year, is_leap.
  replace (y + 1 - 1) with y by lia.
  destruct (y mod 4 =? 0) eqn:H4; destruct (y mod 100 =? 0) eqn:H100;
    destruct (y mod 400 =? 0) eqn:H400; simpl; bool_to_prop;
    Z.div_mod_to_equations; lia.
Qed.

Lemma days_before_year_mono y y' :
  y <= y' -> days_before_year y <= days_before_year y'.
Proof.
  intros H. unfold days_before_year. Z.div_mod_to_equations. lia.
Qed.

Lemma days_in_year_pos y : 365 <= days_in_year y <= 366.
Proof. unfold days_in_year. destruct (is_leap y); lia. Qed.

Lemma valid_fields dt : valid dt = true ->
  1 <= year dt <= 9999 /\ 1 <= month dt <= 12 /\
  1 <= day dt <= days_in_month (year dt) (month dt).
Proof. intros H. apply valid_ymd_iff, H. Qed.

(** The ordinal of a valid date lies within its year. *)
Lemma toordinal_in_year dt : valid dt = true ->
  days_before_year (year dt) < toordinal dt <= days_before_year (year dt + 1).
Proof.
  intros H. apply valid_fields in H. destruct H as (_ & Hm & Hd).
  pose proof (day_of_year_bounds _ _ _ Hm Hd).
  rewrite days_before_year_succ. unfold toordinal. lia.
Qed.

Lemma toordinal_range dt : valid dt = true -> 1 <= toordinal dt <= MAXORDINAL.
Proof.
  intros H. pose proof (toordinal_in_year _ H) as Ho.
  apply valid_fields in H. destruct H as (Hy & _).
  pose proof (days_before_year_mono 1 (year dt) ltac:(lia)).
  pose proof (days_before_year_mono (year dt + 1) 10000 ltac:(lia)).
  change (days_before_year 1) with 0 in *.
  change (days_before_year 10000) with MAXORDINAL in *. lia.
Qed.

Lemma ltb_iff a b :
  ltb a b = true <->
  year a < year b \/
  (year a = year b /\
   (month a < month b \/ (month a = month b /\ day a < day b))).
Proof.
  unfold ltb.
  rewrite orb_true_iff, andb_true_iff, orb_true_iff, andb_true_iff.
  rewrite !Z.ltb_lt, !Z.eqb_eq. tauto.
Qed.

(** The order of dates is the order of their ordinals. *)
Lemma ltb_toordinal a b : valid a = true -> valid b = true ->
  ltb a b = true -> toordinal a < toordinal b.
Proof.
  intros Ha Hb Hlt. unfold ltb in Hlt.
  pose proof (toordinal_in_year _ Ha). pose proof (toordinal_in_year _ Hb).
  apply valid_fields in Ha, Hb.
  destruct Ha as (Hya & Hma & Hda), Hb as (Hyb & Hmb & Hdb).
  apply orb_prop in Hlt. destruct Hlt as [Hlt|Hlt].
  - apply Z.ltb_lt in Hlt.
    pose proof (days_before_year_mono (year a + 1) (year b) ltac:(lia)). lia.
  - apply andb_prop in Hlt. destruct Hlt as [Hy Hlt]. apply Z.eqb_eq in Hy.
    unfold toordinal. rewrite Hy in *.
    assert (days_before_month (year b) (month a) + day a <
            days_before_month (year b) (month b) + day b); [|lia].
    apply day_of_year_lt; auto.
    bool_to_prop. destruct Hlt as [?|?]; bool_to_prop; lia.
Qed.

Lemma eqb_eq a b : eqb a b = true <-> a = b.
Proof.
  unfold eqb. destruct a, b; simpl. rewrite !andb_true_iff, !Z.eqb_eq.
  split; [intros ((-> & ->) & ->); reflexivity | intros [= -> -> ->]; auto].
Qed.

Lemma leb_toordinal a b : valid a = true -> valid b = true ->
  leb a b = true -> toordinal a <= toordinal b.
Proof.
  intros Ha Hb H. unfold leb in H. apply orb_prop in H. destruct H as [H|H].
  - pose proof (ltb_toordinal _ _ Ha Hb H). lia.
  - apply eqb_eq in H. subst. lia.
Qed.

End DateFacts.

Module OrdinalFacts.
Import Date Spec DateFacts.

(** The length of the years before year [y], with [y - 1] split into
    cycles of 400, 100 and 4 years and single years. *)
Lemma days_before_year_cycles q n100 n4 n1 :
  0 <= n100 <= 3 -> 0 <= n4 <= 24 -> 0 <= n1 <= 3 ->
  days_before_year (q * 400 + 1 + n100 * 100 + n4 * 4 + n1) =
  q * DI400Y + n100 * DI100Y + n4 * DI4Y + n1 * 365.
Proof.
  intros H100 H4 H1. unfold days_before_year, DI400Y, DI100Y, DI4Y.
  Z.div_mod_to_equations. lia.
Qed.

Lemma is_leap_cycles q n100 n4 n1 :
  0 <= n100 <= 3 -> 0 <= n4 <= 24 -> 0 <= n1 <= 3 ->
  is_leap (q * 400 + 1 + n100 * 100 + n4 * 4 + n1) =
  (n1 =? 3) && (negb (n4 =? 24) || (n100 =? 3)).
Proof.
  intros H100 H4 H1. unfold is_leap.
  destruct (n1 =? 3) eqn:E1; destruct (n4 =? 24) eqn:E4;
    destruct (n100 =? 3) eqn:E100; simpl; bool_to_prop;
    repeat match goal with
    | |- context [?a mod ?b =? 0] =>
        let E := fresh "E" in destruct (a mod b =? 0) eqn:E; bool_to_prop
    end; simpl; try reflexivity; exfalso; Z.div_mod_to_equations; lia.
Qed.

Lemma forallb_upto (f : Z -> bool) (k : nat) :
  forallb f (map Z.of_nat (seq 0 k)) = true ->
  forall n, 0 <= n < Z.of_nat k -> f n = true.
Proof.
  intros H n Hn. rewrite forallb_forall in H. apply H.
  apply in_map_iff. exists (Z.to_nat n). split; [lia|].
  apply in_seq. lia.
Qed.

Lemma month_day_checked (leapyear : bool) n :
  0 <= n < (if leapyear then 366 else 365) -> month_day_ok leapyear n = true.
Proof.
  destruct leapyear; intros Hn.
  - apply (forallb_upto (month_day_ok true) 366); [vm_compute; reflexivity | lia].
  - apply (forallb_upto (month_day_ok false) 365); [vm_compute; reflexivity | lia].
Qed.

Lemma month_day_spec y n m d :
  0 <= n < days_in_year y -> month_day (is_leap y) n = (m, d) ->
  1 <= m <= 12 /\ 1 <= d <= days_in_month y m /\ days_before_month y m + d = n + 1.
Proof.
  intros Hn Hmd. pose proof (month_day_checked (is_leap y) n Hn) as Hok.
  unfold month_day_ok in Hok. rewrite Hmd in Hok.
  unfold days_in_month, days_before_month.
  bool_to_prop.
  assert (DAYS_IN_MONTH m + (if (m =? 2) && is_leap y then 1 else 0) =
          (if (m =? 2) && is_leap y then 29 else DAYS_IN_MONTH m)) as <-.
  { destruct ((m =? 2) && is_leap y) eqn:E; [|lia]. bool_to_prop. subst m. reflexivity. }
  lia.
Qed.

(** The pieces [_ord2ymd] cuts an ordinal into. *)
Lemma ordinal_cycles n :
  0 <= n ->
  let n400 := n / DI400Y in
  let r400 := n mod DI400Y in
  let n100 := r400 / DI100Y in
  let r100 := r400 mod DI100Y in
  let n4 := r100 / DI4Y in
  let r4 := r100 mod DI4Y in
  let n1 := r4 / 365 in
  let r := r4 mod 365 in
  n = n400 * DI400Y + n100 * DI100Y + n4 * DI4Y + n1 * 365 + r /\
  0 <= n400 /\ 0 <= n100 <= 4 /\ 0 <= n4 <= 24 /\ 0 <= n1 <= 4 /\ 0 <= r < 365 /\
  (n100 = 4 -> n4 = 0 /\ n1 = 0 /\ r = 0) /\
  (n1 = 4 -> r = 0 /\ n4 <> 24 /\ n100 <> 4) /\
  (n4 = 24 -> n100 <> 3 -> n1 * 365 + r < 1460).
Proof.
  intros Hn. unfold DI400Y, DI100Y, DI4Y. cbv zeta.
  Z.div_mod_to_equations. lia.
Qed.

(** [_ord2ymd] returns a date, and that date has the ordinal it was
    computed from. *)
Theorem ord2ymd_spec n : 1 <= n <= MAXORDINAL ->
  valid (ord2ymd n) = true /\ toordinal (ord2ymd n) = n.
Proof.
  intros Hn. unfold ord2ymd.
  pose proof (ordinal_cycles (n - 1) ltac:(lia)) as H. cbv zeta in H.
  set (n400 := (n - 1) / DI400Y) in *.
  set (r400 := (n - 1) mod DI400Y) in *.
  set (n100 := r400 / DI100Y) in *.
  set (r100 := r400 mod DI100Y) in *.
  set (n4 := r100 / DI4Y) in *.
  set (r4 := r100 mod DI4Y) in *.
  set (n1 := r4 / 365) in *.
  set (r := r4 mod 365) in *.
  clearbody n400 r400 n100 r100 n4 r4 n1 r.
  destruct H as (Hsum & H400 & H100 & H4 & H1 & Hr & Hc100 & Hc1 & Hc4).
  unfold MAXORDINAL, DI400Y, DI100Y, DI4Y in *.
  destruct ((n1 =? 4) || (n100 =? 4)) eqn:Hlast.
  - (* the last day of a leap year *)
    assert (exists n100' n4' n1', 0 <= n100' <= 3 /\ 0 <= n4' <= 24 /\ n1' = 3 /\
              (n4' = 24 -> n100' = 3) /\
              n400 * 400 + 1 + n100 * 100 + n4 * 4 + n1 - 1 =
              n400 * 400 + 1 + n100' * 100 + n4' * 4 + n1' /\
              n - 366 = n400 * 146097 + n100' * 36524 + n4' * 1461 + n1' * 365)
      as (n100' & n4' & n1' & B100 & B4 & B1 & B4' & -> & Hord).
    { bool_to_prop. destruct Hlast as [E|E]; bool_to_prop.
      - exists n100, n4, 3. destruct (Hc1 E) as (? & ? & ?). lia.
      - exists 3, 24, 3. destruct (Hc100 E) as (? & ? & ?). lia. }
    assert (is_leap (n400 * 400 + 1 + n100' * 100 + n4' * 4 + n1') = true) as Hleap.
    { rewrite is_leap_cycles by lia. subst n1'. simpl.
      destruct (n4' =? 24) eqn:E; simpl; [|reflexivity].
      bool_to_prop. apply Z.eqb_eq. auto. }
    split.
    + apply valid_ymd_iff. simpl. unfold days_in_month. simpl. lia.
    + unfold toordinal, days_before_month. simpl.
      rewrite Hleap. rewrite days_before_year_cycles by lia.
      unfold DI400Y, DI100Y, DI4Y. simpl. lia.
  - bool_to_prop.
    assert (0 <= n100 <= 3) as B100 by lia.
    assert (0 <= n1 <= 3) as B1 by lia.
    pose proof (is_leap_cycles n400 n100 n4 n1 B100 H4 B1) as Hleap.
    pose proof (days_before_year_cycles n400 n100 n4 n1 B100 H4 B1) as Hdby.
    set (y := n400 * 400 + 1 + n100 * 100 + n4 * 4 + n1) in *.
    rewrite <- Hleap.
    destruct (month_day (is_leap y) r) as [m d] eqn:Hmd.
    assert (0 <= r < days_in_year y) as Hry.
    { unfold days_in_year. destruct (is_leap y); lia. }
    destruct (month_day_spec y r m d Hry Hmd) as (Hm & Hd & Hday).
    split.
    + apply valid_ymd_iff. simpl.
      assert (1 <= y) by (unfold y; lia).
      assert (days_before_year y < days_before_year 10000).
      { rewrite Hdby. change (days_before_year 10000) with 3652059.
        unfold DI400Y, DI100Y, DI4Y. lia. }
      destruct (Z_le_gt_dec 10000 y) as [Hbig|Hsmall]; [|lia].
      pose proof (days_before_year_mono _ _ Hbig). lia.
    + unfold toordinal. simpl. rewrite Hdby.
      unfold DI400Y, DI100Y, DI4Y. lia.
Qed.

Lemma add_days_ok dt k : valid dt = true ->
  1 <= toordinal dt + k <= MAXORDINAL ->
  exists dt', add_days dt k = Ok dt' /\ valid dt' = true /\
              toordinal dt' = toordinal dt + k.
Proof.
  intros Hv Hk. unfold add_days.
  replace (0 <? toordinal dt + k) with true by (symmetry; apply Z.ltb_lt; lia).
  replace (toordinal dt + k <=? MAXORDINAL) with true by (symmetry; apply Z.leb_le; lia).
  simpl. eexists. split; [reflexivity|]. apply ord2ymd_spec. lia.
Qed.

End OrdinalFacts.

(** * The birthday window *)

Module WindowFacts.
Import Date Spec DateFacts OrdinalFacts AddressBook.

Lemma leb_false_ltb a b : leb a b = false -> ltb b a = true.
Proof.
  unfold leb, ltb, eqb. intros H. bool_to_prop.
  repeat match goal with
  | H : _ \/ _ |- _ => destruct H
  | _ => progress bool_to_prop
  end;
  apply orb_true_iff; rewrite andb_true_iff, orb_true_iff, andb_true_iff;
  rewrite !Z.ltb_lt, !Z.eqb_eq; lia.
Qed.

(** On dates, [<=] of Python and [<=] of the ordinals agree. *)
Lemma leb_iff a b : valid a = true -> valid b = true ->
  leb a b = true <-> toordinal a <= toordinal b.
Proof.
  intros Ha Hb. split; [apply leb_toordinal; assumption|].
  intros H. destruct (leb a b) eqn:E; [reflexivity|].
  apply leb_false_ltb in E. apply ltb_toordinal in E; auto. lia.
Qed.

Lemma days_in_month_feb y m : m <> 2 -> days_in_month y m = DAYS_IN_MONTH m.
Proof.
  intros H. unfold days_in_month.
  replace (m =? 2) with false by (symmetry; apply Z.eqb_neq; assumption).
  reflexivity.
Qed.

Lemma days_in_feb y : days_in_month y 2 = if is_leap y then 29 else 28.
Proof. unfold days_in_month. simpl. destruct (is_leap y); reflexivity. Qed.

Lemma feb29_iff b : feb29 b = true <-> month b = 2 /\ day b = 29.
Proof. unfold feb29. rewrite andb_true_iff, !Z.eqb_eq. tauto. Qed.

(** A day that exists in the birthday's month of some year exists in
    that month of every year, the leap day apart. *)
Lemma day_fits y b : valid b = true -> feb29 b = false ->
  1 <= day b <= days_in_month y (month b).
Proof.
  intros Hb Hf. apply valid_fields in Hb. destruct Hb as (_ & Hm & Hd).
  destruct (Z.eq_dec (month b) 2) as [E|E].
  - rewrite E in *. rewrite days_in_feb in *.
    assert (day b <> 29).
    { intros E29. unfold feb29 in Hf. rewrite E, E29 in Hf. discriminate. }
    destruct (is_leap y), (is_leap (year b)); lia.
  - rewrite days_in_month_feb in * by assumption. lia.
Qed.

Lemma observed_valid y b : 1 <= y <= 9999 -> valid b = true ->
  valid (observed y b) = true.
Proof.
  intros Hy Hb. unfold observed.
  destruct (feb29 b) eqn:Hf; simpl.
  - apply feb29_iff in Hf. destruct Hf as [Hm Hd].
    destruct (is_leap y) eqn:Hl; simpl; apply valid_ymd_iff; simpl;
      rewrite ?Hm, ?Hd, ?days_in_feb, ?Hl; lia.
  - pose proof (day_fits y b Hb Hf). apply valid_fields in Hb.
    apply valid_ymd_iff. simpl. lia.
Qed.

(** The [try] block never gives up on a stored birthday: it yields the
    birthday as observed this year. *)
Lemma bday_this_year_observed today b :
  valid today = true -> valid b = true ->
  bday_this_year (year today) (month b) (day b) =
    Ok (Some (observed (year today) b)).
Proof.
  intros Ht Hb. pose proof (valid_fields _ Ht) as (Hy & _).
  unfold bday_this_year, observed.
  destruct (feb29 b) eqn:Hf.
  - pose proof Hf as Hf'. apply feb29_iff in Hf' as [Hm Hd]. rewrite Hm, Hd.
    destruct (is_leap (year today)) eqn:Hl; simpl.
    + rewrite new_valid; [reflexivity|].
      apply valid_ymd_iff. rewrite days_in_feb, Hl. lia.
    + destruct (new (year today) 2 29) as [d|e] eqn:Hn.
      * apply new_inv in Hn as [_ Hn]. apply valid_ymd_iff in Hn.
        rewrite days_in_feb, Hl in Hn. lia.
      * apply new_raise in Hn as [msg ->].
        rewrite new_valid; [reflexivity|].
        apply valid_ymd_iff. rewrite days_in_feb, Hl. lia.
  - simpl. rewrite new_valid; [reflexivity|].
    pose proof (day_fits (year today) b Hb Hf). apply valid_fields in Hb.
    apply valid_ymd_iff. lia.
Qed.

Lemma shift_weekend_ok c :
  valid c = true -> toordinal c + 2 <= MAXORDINAL ->
  exists cd, shift_weekend c = Ok cd /\ valid cd = true /\
    toordinal cd = toordinal c +
      (if weekday c =? 5 then 2 else if weekday c =? 6 then 1 else 0).
Proof.
  intros Hc Hmax. pose proof (toordinal_range _ Hc).
  unfold shift_weekend.
  destruct (weekday c =? 5).
  - apply add_days_ok; [assumption|lia].
  - destruct (weekday c =? 6).
    + apply add_days_ok; [assumption|lia].
    + exists c. split; [reflexivity|]. split; [assumption|lia].
Qed.

Lemma visit_no_birthday today end_date r :
  Rec.birthday r = None -> visit today end_date r = Ok None.
Proof. intros H. unfold visit. rewrite H. reflexivity. Qed.

(** The query under the assumption on the clock: [today] is a date
    and its year is not the last one the calendar has. *)
Section Clock.

Variable today : date.
Hypothesis today_valid : valid today = true.
Hypothesis today_year : year today < MAXYEAR.

Lemma candidate_value b :
  valid b = true ->
  candidate today (observed (year today) b) (month b) (day b) =
    Ok (if leb today (observed (year today) b)
        then observed (year today) b else rolled today b) /\
  valid (if leb today (observed (year today) b)
         then observed (year today) b else rolled today b) = true.
Proof.
  intros Hb. pose proof (valid_fields _ today_valid) as (Hyt & _).
  pose proof today_year as Hy. unfold MAXYEAR in Hy. unfold candidate.
  destruct (leb today (observed (year today) b)) eqn:Hle.
  - split; [reflexivity|]. apply observed_valid; assumption.
  - unfold rolled. fold (feb29 b).
    assert (valid_ymd (year today + 1) (month b)
              (if feb29 b then 28 else day b) = true) as Hv.
    { apply valid_ymd_iff. destruct (feb29 b) eqn:Hf.
      - apply feb29_iff in Hf as [Hm Hd]. rewrite Hm, days_in_feb.
        destruct (is_leap (year today + 1)); lia.
      - pose proof (day_fits (year today + 1) b Hb Hf).
        apply valid_fields in Hb. lia. }
    destruct (feb29 b); simpl; rewrite (new_valid _ _ _ Hv); auto.
Qed.

(** The end of the window exists, a week after [today]. *)
Lemma end_date_ok :
  exists end_date, add_days today 7 = Ok end_date /\ valid end_date = true /\
    toordinal end_date = toordinal today + 7 /\
    toordinal end_date + 2 <= MAXORDINAL.
Proof.
  pose proof (toordinal_in_year _ today_valid) as Hin.
  pose proof (toordinal_range _ today_valid).
  pose proof today_year as Hy. unfold MAXYEAR in Hy.
  pose proof (days_before_year_mono (year today + 1) 9999 ltac:(lia)).
  change (days_before_year 9999) with (MAXORDINAL - 365) in *.
  destruct (add_days_ok today 7 today_valid ltac:(lia)) as (e & He & Hv & Ho).
  exists e. repeat split; try assumption. lia.
Qed.

Variable end_date : date.
Hypothesis end_date_eq : add_days today 7 = Ok end_date.

(** The loop body on a record with a birthday. *)
Lemma visit_birthday r b :
  Rec.birthday r = Some b -> valid b = true ->
  exists c, candidate today (observed (year today) b) (month b) (day b) = Ok c /\
    valid c = true /\
    ((leb today c && leb c end_date = true /\
      exists cd, shift_weekend c = Ok cd /\
        toordinal cd = toordinal c +
          (if weekday c =? 5 then 2 else if weekday c =? 6 then 1 else 0) /\
        visit today end_date r =
          Ok (Some (mk_entry (Rec.name r) (Strptime.strftime_iso cd)))) \/
     (leb today c && leb c end_date = false /\ visit today end_date r = Ok None)).
Proof.
  intros Hr Hb.
  destruct end_date_ok as (e & He & Hev & Heo & Hemax).
  rewrite end_date_eq in He. injection He as <-.
  destruct (candidate_value b Hb) as [Hc Hcv].
  eexists. split; [exact Hc|]. split; [exact Hcv|].
  set (c := if leb today (observed (year today) b)
            then observed (year today) b else rolled today b) in *.
  unfold visit. rewrite Hr. rewrite bday_this_year_observed by assumption.
  simpl. rewrite Hc. simpl.
  destruct (leb today c && leb c end_date) eqn:Hw; [left|right; auto].
  split; [reflexivity|].
  apply andb_prop in Hw as [_ Hce].
  apply leb_toordinal in Hce; [|assumption..].
  destruct (shift_weekend_ok c Hcv ltac:(lia)) as (cd & Hs & _ & Ho).
  exists cd. split; [exact Hs|]. split; [exact Ho|]. rewrite Hs. reflexivity.
Qed.

(** On a record that satisfies the invariant the loop body returns. *)
Lemma visit_total r :
  birthday_ok r -> visit today end_date r = Ok (appended today end_date r).
Proof.
  intros Hr. unfold appended.
  destruct (Rec.birthday r) as [b|] eqn:Hb.
  - destruct (visit_birthday r b Hb (Hr b Hb))
      as (c & _ & _ & [(_ & cd & _ & _ & ->)|(_ & ->)]); reflexivity.
  - rewrite visit_no_birthday by assumption. reflexivity.
Qed.

Lemma loop_total rs acc :
  Forall birthday_ok rs ->
  loop today end_date rs acc = Ok (acc ++ omap (appended today end_date) rs).
Proof.
  intros Hrs. revert acc.
  induction Hrs as [|r rs Hr Hrs IH]; intros acc; simpl.
  - rewrite app_nil_r. reflexivity.
  - rewrite (visit_total r Hr). simpl.
    rewrite IH. destruct (appended today end_date r); simpl.
    + rewrite <- app_assoc. reflexivity.
    + reflexivity.
Qed.

(** The query on a book whose birthdays are dates. *)
Lemma get_upcoming_birthdays_total data :
  Forall birthday_ok (values data) ->
  get_upcoming_birthdays today data =
    Ok (sort (omap (appended today end_date) (values data))).
Proof.
  intros Hd. unfold get_upcoming_birthdays. rewrite end_date_eq. simpl.
  rewrite (loop_total _ [] Hd). reflexivity.
Qed.

End Clock.

End WindowFacts.

(** * The order of the result *)

Module SortFacts.
Import Spec AddressBook.

Lemma ascii_compare_N a b :
  Ascii.compare a b = N.compare (N_of_ascii a) (N_of_ascii b).
Proof. reflexivity. Qed.

Lemma string_compare_refl s : String.compare s s = Eq.
Proof.
  induction s as [|a s IH]; simpl; [reflexivity|].
  rewrite ascii_compare_N, N.compare_refl. exact IH.
Qed.

Lemma string_compare_eq s t : String.compare s t = Eq <-> s = t.
Proof.
  split; [apply String.compare_eq_iff|]. intros ->. apply string_compare_refl.
Qed.

Lemma string_compare_lt_trans s t u :
  String.compare s t = Lt -> String.compare t u = Lt -> String.compare s u = Lt.
Proof.
  revert t u. induction s as [|a s IH]; intros [|b t] [|c u]; simpl;
    try discriminate; try reflexivity.
  rewrite !ascii_compare_N.
  destruct (N.compare_spec (N_of_ascii a) (N_of_ascii b)) as [Eab|Lab|Gab];
    try discriminate;
    destruct (N.compare_spec (N_of_ascii b) (N_of_ascii c)) as [Ebc|Lbc|Gbc];
    try discriminate; intros H1 H2.
  - rewrite Eab, Ebc, N.compare_refl. eapply IH; eassumption.
  - rewrite Eab. apply N.compare_lt_iff in Lbc. rewrite Lbc. reflexivity.
  - rewrite <- Ebc. apply N.compare_lt_iff in Lab. rewrite Lab. reflexivity.
  - assert (N_of_ascii a < N_of_ascii c)%N as L by lia.
    apply N.compare_lt_iff in L. rewrite L. reflexivity.
Qed.

Lemma ltb_lt s t : String.ltb s t = true <-> String.compare s t = Lt.
Proof. unfold String.ltb. destruct (String.compare s t); split; congruence. Qed.

Lemma leb_cases s t :
  String.leb s t = true <-> String.compare s t = Lt \/ s = t.
Proof.
  unfold String.leb. rewrite <- string_compare_eq.
  destruct (String.compare s t); split; intros; try congruence; auto.
  destruct H; discriminate.
Qed.

Lemma ltb_irrefl s : String.ltb s s = false.
Proof. unfold String.ltb. rewrite string_compare_refl. reflexivity. Qed.

Lemma string_leb_trans s t u :
  String.leb s t = true -> String.leb t u = true -> String.leb s u = true.
Proof.
  rewrite !leb_cases. intros [H1| ->] [H2| ->]; auto.
  left. eapply string_compare_lt_trans; eassumption.
Qed.

(** The test of the sort against the order of the keys. *)
Lemma key_ltb_le a b : key_ltb (key a) (key b) = true -> key_le a b.
Proof.
  unfold key_ltb, key_le, key. simpl. intros H.
  apply orb_prop in H as [H|H]; [left; exact H|right].
  apply andb_prop in H as [He Hl]. apply String.eqb_eq in He.
  split; [exact He|]. apply leb_cases. left. apply ltb_lt, Hl.
Qed.

Lemma key_ltb_false_le a b : key_ltb (key a) (key b) = false -> key_le b a.
Proof.
  unfold key_ltb, key_le, key. simpl. intros H.
  apply orb_false_iff in H as [Hd Hn].
  unfold String.ltb in *. rewrite (String.compare_antisym (congratulation_date b)).
  destruct (String.compare (congratulation_date a) (congratulation_date b)) eqn:E;
    simpl; try discriminate; [right|left; reflexivity].
  apply string_compare_eq in E. rewrite E in *. split; [reflexivity|].
  rewrite String.eqb_refl in Hn. simpl in Hn.
  unfold String.leb. rewrite (String.compare_antisym (name b)).
  destruct (String.compare (name a) (name b)); simpl; congruence.
Qed.

Lemma key_le_trans a b c : key_le a b -> key_le b c -> key_le a c.
Proof.
  unfold key_le. rewrite !ltb_lt.
  intros [H1|[E1 N1]] [H2|[E2 N2]].
  - left. eapply string_compare_lt_trans; eassumption.
  - left. rewrite <- E2. exact H1.
  - left. rewrite E1. exact H2.
  - right. split; [congruence|]. eapply string_leb_trans; eassumption.
Qed.

Lemma insert_sorted_elem x l e : e ∈ insert_sorted x l <-> e = x \/ e ∈ l.
Proof.
  induction l as [|y l IH]; simpl.
  - rewrite list_elem_of_singleton, elem_of_nil. tauto.
  - destruct (key_ltb (key y) (key x)).
    + rewrite !elem_of_cons, IH. tauto.
    + rewrite !elem_of_cons. tauto.
Qed.

Lemma sort_elem l e : e ∈ sort l <-> e ∈ l.
Proof.
  induction l as [|x l IH]; simpl; [tauto|].
  rewrite insert_sorted_elem, elem_of_cons, IH. tauto.
Qed.

Lemma insert_sorted_sorted x l :
  StronglySorted key_le l -> StronglySorted key_le (insert_sorted x l).
Proof.
  induction 1 as [|y l Hl IH Hy]; simpl.
  - repeat constructor.
  - destruct (key_ltb (key y) (key x)) eqn:E.
    + constructor; [exact IH|].
      apply Forall_forall. intros e He. apply insert_sorted_elem in He as [->|He].
      * apply key_ltb_le, E.
      * rewrite Forall_forall in Hy. apply Hy, He.
    + apply key_ltb_false_le in E. constructor; [constructor; assumption|].
      constructor; [exact E|].
      eapply Forall_impl; [exact Hy|]. intros e He.
      eapply key_le_trans; eassumption.
Qed.

Lemma sort_sorted l : StronglySorted key_le (sort l).
Proof.
  induction l as [|x l IH]; simpl; [constructor|].
  apply insert_sorted_sorted, IH.
Qed.

(** In a sorted list the order of positions is the order of keys. *)
Lemma sorted_lookup l i j a b :
  StronglySorted key_le l -> (i < j)%nat ->
  l !! i = Some a -> l !! j = Some b -> key_le a b.
Proof.
  intros Hs. revert i j. induction Hs as [|x l Hl IH Hx]; intros i j Hij Hi Hj.
  - rewrite lookup_nil in Hi. discriminate.
  - destruct j as [|j]; [lia|]. simpl in Hj. destruct i as [|i]; simpl in Hi.
    + injection Hi as ->. rewrite Forall_forall in Hx.
      apply Hx. eapply list_elem_of_lookup_2, Hj.
    + eapply IH; [|eassumption..]. lia.
Qed.

(** The list the query returns is the sorted list of the entries the
    loop appended. *)
Lemma get_upcoming_birthdays_sort today data es :
  get_upcoming_birthdays today data = Ok es ->
  exists end_date upcoming,
    Date.add_days today 7 = Ok end_date /\
    loop today end_date (values data) [] = Ok upcoming /\ es = sort upcoming.
Proof.
  unfold get_upcoming_birthdays.
  destruct (Date.add_days today 7) as [e|]; simpl; [|discriminate].
  destruct (loop today e (values data) []) as [u|] eqn:Hu; simpl; [|discriminate].
  intros [= <-]. exists e, u. auto.
Qed.

End SortFacts.

(** * Strings and phones *)

Module StrFacts.
Import Spec Str.

Lemma lstrip_head s a t : lstrip s = String a t -> isspace a = false.
Proof.
  induction s as [|c s IH]; simpl; [discriminate|].
  destruct (isspace c) eqn:E; [exact IH|]. intros [= <- _]. exact E.
Qed.

Lemma rstrip_head s a t : rstrip s = String a t -> exists t', s = String a t'.
Proof.
  destruct s as [|c s]; simpl; [discriminate|].
  destruct (rstrip s); [destruct (isspace c); [discriminate|]|];
    intros [= <- _]; eauto.
Qed.

(** A stripped string does not begin with white space. *)
Lemma strip_head s a t : strip s = String a t -> isspace a = false.
Proof.
  unfold strip. intros H. apply rstrip_head in H as [t' H].
  eapply lstrip_head, H.
Qed.

Lemma rstrip_id s : all_chars not_space s = true -> rstrip s = s.
Proof.
  induction s as [|c s IH]; simpl; [reflexivity|].
  intros H. apply andb_prop in H as [Hc Hs]. rewrite (IH Hs).
  destruct s; [|reflexivity].
  unfold not_space in Hc. apply negb_true_iff in Hc. rewrite Hc. reflexivity.
Qed.

(** Stripping changes nothing in a string without white space. *)
Lemma strip_id s : all_chars not_space s = true -> strip s = s.
Proof.
  intros H. unfold strip.
  assert (lstrip s = s) as ->; [|apply rstrip_id, H].
  destruct s as [|c s]; simpl; [reflexivity|].
  simpl in H. apply andb_prop in H as [Hc _].
  unfold not_space in Hc. apply negb_true_iff in Hc. rewrite Hc. reflexivity.
Qed.

Lemma all_chars_impl (p q : ascii -> bool) s :
  (forall c, p c = true -> q c = true) ->
  all_chars p s = true -> all_chars q s = true.
Proof.
  intros Hpq. induction s as [|c s IH]; simpl; [reflexivity|].
  intros H. apply andb_prop in H as [Hc Hs].
  rewrite (Hpq c Hc), (IH Hs). reflexivity.
Qed.

Lemma all_chars_Forall p s :
  all_chars p s = true <-> Forall (fun c => p c = true) (list_ascii_of_string s).
Proof.
  induction s as [|c s IH]; simpl.
  - split; [constructor|reflexivity].
  - rewrite andb_true_iff, Forall_cons, IH. tauto.
Qed.

(** No digit is white space. *)
Lemma digit_not_space c : isdigit_char c = true -> not_space c = true.
Proof.
  unfold isdigit_char, isdecimal, not_space, isspace.
  generalize (ord c). intros n H.
  repeat match goal with
  | H : _ || _ = true |- _ => apply orb_prop in H as [H|H]
  | H : _ && _ = true |- _ => apply andb_prop in H as [? ?]
  | H : (_ <=? _)%N = true |- _ => apply N.leb_le in H
  | H : (_ =? _)%N = true |- _ => apply N.eqb_eq in H
  end;
  apply negb_true_iff; rewrite !orb_false_iff, !andb_false_iff, !N.leb_gt, !N.eqb_neq;
  lia.
Qed.

Lemma isdigit_all s : isdigit s = true -> all_chars isdigit_char s = true.
Proof. destruct s; [discriminate|]. auto. Qed.

(** A string of digits is its own stripped form. *)
Lemma strip_digits s : isdigit s = true -> strip s = s.
Proof.
  intros H. apply strip_id.
  eapply all_chars_impl; [apply digit_not_space|]. apply isdigit_all, H.
Qed.

Lemma len_length s n : (len s =? Z.of_nat n)%Z = Nat.eqb (String.length s) n.
Proof.
  unfold len. destruct (Nat.eqb_spec (String.length s) n) as [E|E].
  - apply Z.eqb_eq. lia.
  - apply Z.eqb_neq. lia.
Qed.

End StrFacts.

Module PhoneFacts.
Import Spec StrFacts.

Lemma phone_rule_dec p : {phone_rule p} + {~ phone_rule p}.
Proof.
  unfold phone_rule.
  destruct (Str.isdigit p); [|right; intros [? _]; discriminate].
  destruct (Nat.eq_dec (String.length p) 10%nat); [left; auto|right; tauto].
Qed.

Lemma phone_rule_test p :
  Str.isdigit p && (Str.len p =? 10)%Z = true <-> phone_rule p.
Proof.
  unfold phone_rule. change 10%Z with (Z.of_nat 10).
  rewrite len_length, andb_true_iff, Nat.eqb_eq. tauto.
Qed.

Lemma value_setter_ok raw :
  phone_rule (Str.strip raw) -> Phone.value_setter raw = Ok (Str.strip raw).
Proof.
  intros H. apply phone_rule_test in H. unfold Phone.value_setter.
  cbv zeta. rewrite H. reflexivity.
Qed.

Lemma value_setter_raise raw :
  ~ phone_rule (Str.strip raw) ->
  Phone.value_setter raw = Raise (ValueError message).
Proof.
  intros H. unfold Phone.value_setter. cbv zeta.
  destruct (Str.isdigit (Str.strip raw) && (Str.len (Str.strip raw) =? 10)%Z) eqn:E.
  - apply phone_rule_test in E. contradiction.
  - reflexivity.
Qed.

Lemma value_setter_inv raw v :
  Phone.value_setter raw = Ok v -> v = Str.strip raw /\ phone_rule v.
Proof.
  intros H. destruct (phone_rule_dec (Str.strip raw)) as [R|R].
  - rewrite (value_setter_ok _ R) in H. injection H as <-. auto.
  - rewrite (value_setter_raise _ R) in H. discriminate.
Qed.

(** A stored phone has no white space, so stripping keeps it. *)
Lemma phone_rule_strip p : phone_rule p -> Str.strip p = p.
Proof. intros [H _]. apply strip_digits, H. Qed.

End PhoneFacts.

(** * Records and books *)

Module RecFacts.
Import Spec StrFacts PhoneFacts Rec.

Lemma strptime_valid s d : Strptime.strptime s = Ok d -> Date.valid d = true.
Proof.
  unfold Strptime.strptime.
  destruct (Strptime.regex_match s) as [[[[dt mt] yt] rest]|]; [|discriminate].
  destruct rest; [|discriminate].
  intros H. apply DateFacts.new_inv in H as [-> H]. exact H.
Qed.

Lemma birthday_init_valid raw d : Birthday.init raw = Ok d -> Date.valid d = true.
Proof.
  unfold Birthday.init, Birthday.value_setter. cbv zeta.
  destruct (Strptime.strptime (Str.strip raw)) as [v|[msg|msg]] eqn:E;
    try discriminate.
  intros [= <-]. eapply strptime_valid, E.
Qed.

(** The only failure of [Birthday] is its own [ValueError]. *)
Lemma birthday_init_raise raw e :
  Birthday.init raw = Raise e ->
  e = ValueError "Invalid date format. Use DD.MM.YYYY".
Proof.
  unfold Birthday.init, Birthday.value_setter, Strptime.strptime. cbv zeta.
  destruct (Strptime.regex_match (Str.strip raw)) as [[[[dt mt] yt] rest]|].
  - destruct rest.
    + destruct (Date.new _ _ _) as [v|e'] eqn:E; [discriminate|].
      apply DateFacts.new_raise in E as [msg ->]. intros [= <-]. reflexivity.
    + intros [= <-]. reflexivity.
  - intros [= <-]. reflexivity.
Qed.

Lemma find_phone_Some phone self i p :
  find_phone phone self = Some (i, p) <->
  p = phone /\ phones self !! i = Some phone /\
  forall j, (j < i)%nat -> phones self !! j <> Some phone.
Proof.
  unfold find_phone. rewrite list_find_Some. split.
  - intros (Hi & -> & Hj). split; [reflexivity|]. split; [exact Hi|].
    intros j Hlt Hjp. exact (Hj j phone Hjp Hlt eq_refl).
  - intros (-> & Hi & Hj). split; [exact Hi|]. split; [reflexivity|].
    intros j y Hy Hlt ->. exact (Hj j Hlt Hy).
Qed.

Lemma find_phone_None phone self :
  find_phone phone self = None <-> phone ∉ phones self.
Proof.
  unfold find_phone. rewrite list_find_None, Forall_forall. split.
  - intros H Hin. exact (H phone Hin eq_refl).
  - intros H x Hx ->. exact (H Hx).
Qed.

Lemma find_phone_elem phone self :
  phone ∈ phones self -> exists i, find_phone phone self = Some (i, phone).
Proof.
  intros Hin. destruct (find_phone phone self) as [[i p]|] eqn:E.
  - pose proof E as E'. apply find_phone_Some in E' as [-> _]. eauto.
  - apply find_phone_None in E. contradiction.
Qed.

Lemma step_wf self o : wf self -> wf (step self o).
Proof.
  intros [Hp Hb]. destruct o as [p|p|p q|b|i v|v]; simpl.
  - unfold add_phone, Phone.init.
    destruct (Phone.value_setter p) as [v|e] eqn:E; simpl; [|split; assumption].
    apply value_setter_inv in E as [_ Hv].
    split; [|exact Hb]. simpl. apply Forall_app. auto.
  - unfold remove_phone. destruct (find_phone p self) as [[i x]|]; simpl;
      [|split; assumption].
    split; [|exact Hb]. simpl. apply Forall_delete, Hp.
  - unfold edit_phone. destruct (find_phone p self) as [[i x]|]; simpl;
      [|split; assumption].
    destruct (Phone.value_setter q) as [v|e] eqn:E; simpl; [|split; assumption].
    apply value_setter_inv in E as [_ Hv].
    split; [|exact Hb]. simpl. apply Forall_insert; assumption.
  - unfold add_birthday. destruct (Birthday.init b) as [v|e] eqn:E; simpl;
      [|split; assumption].
    split; [exact Hp|]. intros d [= <-]. eapply birthday_init_valid, E.
  - unfold set_phone_value.
    destruct (Phone.value_setter v) as [x|e] eqn:E; simpl; [|split; assumption].
    apply value_setter_inv in E as [_ Hv].
    split; [|exact Hb]. simpl. apply Forall_insert; assumption.
  - unfold set_birthday_value.
    destruct (Birthday.value_setter v) as [x|e] eqn:E; simpl; [|split; assumption].
    destruct (birthday self) as [old|] eqn:Hold; [|split; assumption].
    split; [exact Hp|]. intros d [= <-]. eapply birthday_init_valid, E.
Qed.

Lemma init_wf name : wf (init name).
Proof. split; [constructor|]. intros b H. discriminate. Qed.

Lemma run_wf ops self : wf self -> wf (run ops self).
Proof.
  unfold run. revert self. induction ops as [|o ops IH]; intros self H; simpl.
  - exact H.
  - apply IH, step_wf, H.
Qed.

End RecFacts.

Module BookFacts.
Import Spec RecFacts AddressBook.

Lemma setitem_wf key r data : wf r -> book_wf data -> book_wf (setitem key r data).
Proof.
  intros Hr. induction 1 as [|[k x] data Hx Hd IH]; simpl.
  - constructor; [exact Hr|constructor].
  - destruct (String.eqb k key); constructor; auto.
Qed.

Lemma delitem_wf name data : book_wf data -> book_wf (delitem name data).
Proof.
  induction 1 as [|[k x] data Hx Hd IH]; simpl; [constructor|].
  destruct (String.eqb k name); [exact Hd|]. constructor; auto.
Qed.

Lemma mutate_wf name o data : book_wf data -> book_wf (mutate name o data).
Proof.
  induction 1 as [|[k x] data Hx Hd IH]; simpl; [constructor|].
  destruct (String.eqb k name); constructor; auto.
  apply step_wf, Hx.
Qed.

(** Every record of a reachable book satisfies the invariant. *)
Lemma reachable_wf data : reachable data -> book_wf data.
Proof.
  induction 1 as [|name ops data _ IH|name data _ IH|name o data _ IH].
  - constructor.
  - apply setitem_wf; [|exact IH]. apply run_wf, init_wf.
  - unfold delete. destruct (find name data); simpl; [|exact IH].
    apply delitem_wf, IH.
  - apply mutate_wf, IH.
Qed.

Lemma book_wf_birthdays data : book_wf data -> Forall birthday_ok (values data).
Proof.
  unfold values. intros H. apply Forall_map.
  eapply Forall_impl; [exact H|]. intros kr [_ Hb]. exact Hb.
Qed.

End BookFacts.

(** * Parsing a birthday *)

Module CharFacts.
Import Spec Str StrFacts.

Lemma ord_inj a b : ord a = ord b -> a = b.
Proof.
  unfold ord. intros H.
  rewrite <- (ascii_N_embedding a), <- (ascii_N_embedding b), H. reflexivity.
Qed.

Lemma ord_digit v : ord (digit v) = Z.to_N (48 + v mod 10).
Proof.
  unfold ord, digit. apply N_ascii_embedding.
  pose proof (Z.mod_pos_bound v 10 ltac:(lia)). lia.
Qed.

Lemma isdecimal_iff a : isdecimal a = true <-> 0 <= val a <= 9.
Proof.
  unfold isdecimal, val. rewrite andb_true_iff, !N.leb_le. lia.
Qed.

Lemma val_digit v : val (digit v) = v mod 10.
Proof.
  unfold val. rewrite ord_digit.
  pose proof (Z.mod_pos_bound v 10 ltac:(lia)). lia.
Qed.

Lemma isdecimal_digit v : isdecimal (digit v) = true.
Proof.
  apply isdecimal_iff. rewrite val_digit.
  pose proof (Z.mod_pos_bound v 10 ltac:(lia)). lia.
Qed.

Lemma digit_val a : isdecimal a = true -> digit (val a) = a.
Proof.
  intros H. apply ord_inj. rewrite ord_digit.
  apply isdecimal_iff in H. rewrite Z.mod_small by lia. unfold val. lia.
Qed.

Lemma decimal_not_space a : isdecimal a = true -> not_space a = true.
Proof.
  intros H. apply digit_not_space. unfold isdigit_char. rewrite H. reflexivity.
Qed.

Lemma lit_eq x a : Strptime.lit x a = true <-> a = x.
Proof.
  unfold Strptime.lit. rewrite N.eqb_eq. split; [apply ord_inj|congruence].
Qed.

Lemma range_iff lo hi a :
  Strptime.range lo hi a = true <-> val lo <= val a <= val hi.
Proof.
  unfold Strptime.range, val. rewrite andb_true_iff, !N.leb_le. lia.
Qed.

(** The number a text of decimal digits stands for. *)
Lemma int_one a : isdecimal a = true ->
  int (String a EmptyString) = val a /\ String a EmptyString = text1 (val a).
Proof.
  intros Ha. unfold int, text1. rewrite strip_id.
  - simpl. fold (val a). rewrite (digit_val a Ha). split; [lia|reflexivity].
  - simpl. rewrite (decimal_not_space a Ha). reflexivity.
Qed.

Lemma int_two a b : isdecimal a = true -> isdecimal b = true ->
  int (String a (String b EmptyString)) = 10 * val a + val b /\
  String a (String b EmptyString) = dd (10 * val a + val b).
Proof.
  intros Ha Hb. unfold int, dd. rewrite strip_id.
  - simpl. fold (val a) (val b). split; [lia|].
    pose proof Ha as Ha'. pose proof Hb as Hb'.
    apply isdecimal_iff in Ha', Hb'.
    replace ((10 * val a + val b) / 10) with (val a)
      by (Z.div_mod_to_equations; lia).
    rewrite (digit_val a Ha).
    rewrite <- (digit_val b Hb) at 1. f_equal. f_equal.
    apply ord_inj. rewrite !ord_digit. f_equal. f_equal.
    Z.div_mod_to_equations; lia.
  - simpl. rewrite (decimal_not_space a Ha), (decimal_not_space b Hb). reflexivity.
Qed.

Lemma digit_mod v : digit (v mod 10) = digit v.
Proof.
  apply ord_inj. rewrite !ord_digit. rewrite Z.mod_mod by lia. reflexivity.
Qed.

Lemma int_four a b c d :
  isdecimal a = true -> isdecimal b = true ->
  isdecimal c = true -> isdecimal d = true ->
  let t := String a (String b (String c (String d EmptyString))) in
  let v := 1000 * val a + 100 * val b + 10 * val c + val d in
  int t = v /\ t = dddd v /\ 0 <= v <= 9999.
Proof.
  intros Ha Hb Hc Hd t v. unfold int, dddd, dd. rewrite strip_id.
  - simpl. fold (val a) (val b) (val c) (val d).
    pose proof Ha as Ha'. pose proof Hb as Hb'.
    pose proof Hc as Hc'. pose proof Hd as Hd'.
    apply isdecimal_iff in Ha', Hb', Hc', Hd'.
    split; [unfold v; lia|]. split; [|unfold v; lia].
    unfold t.
    rewrite <- (digit_val a Ha) at 1. rewrite <- (digit_val b Hb) at 1.
    rewrite <- (digit_val c Hc) at 1. rewrite <- (digit_val d Hd) at 1.
    rewrite <- (digit_mod (v / 1000)), <- (digit_mod (v / 100)),
      <- (digit_mod (v / 10)), <- (digit_mod v).
    repeat f_equal; unfold v; Z.div_mod_to_equations; lia.
  - simpl. rewrite (decimal_not_space a Ha), (decimal_not_space b Hb),
      (decimal_not_space c Hc), (decimal_not_space d Hd). reflexivity.
Qed.

End CharFacts.

Module ParseFacts.
Import Spec Str StrFacts CharFacts Strptime.

Lemma elem_one p s t r :
  (t, r) ∈ one p s <->
  exists a, s = String a r /\ t = String a EmptyString /\ p a = true.
Proof.
  unfold one. destruct s as [|a s].
  - rewrite elem_of_nil. split; [tauto|]. intros (a & H & _). discriminate.
  - destruct (p a) eqn:E.
    + rewrite list_elem_of_singleton. split.
      * intros [= -> ->]. eauto.
      * intros (a' & [= <- <-] & -> & _). reflexivity.
    + rewrite elem_of_nil. split; [tauto|].
      intros (a' & [= <- <-] & _ & H). congruence.
Qed.

Lemma elem_two p q s t r :
  (t, r) ∈ two p q s <->
  exists a b, s = String a (String b r) /\
    t = String a (String b EmptyString) /\ p a = true /\ q b = true.
Proof.
  unfold two. destruct s as [|a [|b s]].
  - rewrite elem_of_nil. split; [tauto|]. intros (a & b & H & _). discriminate.
  - rewrite elem_of_nil. split; [tauto|]. intros (a' & b & H & _). discriminate.
  - destruct (p a && q b) eqn:E.
    + apply andb_prop in E as [Ea Eb].
      rewrite list_elem_of_singleton. split.
      * intros [= -> ->]. eauto 6.
      * intros (a' & b' & [= <- <- <-] & -> & _). reflexivity.
    + rewrite elem_of_nil. split; [tauto|].
      intros (a' & b' & [= <- <- <-] & _ & Ha & Hb).
      rewrite Ha, Hb in E. discriminate.
Qed.

Lemma elem_dot s r : r ∈ re_dot s <-> s = String "." r.
Proof.
  unfold re_dot. destruct s as [|a s].
  - rewrite elem_of_nil. split; [tauto|discriminate].
  - destruct (lit "." a) eqn:E.
    + apply lit_eq in E as ->. rewrite list_elem_of_singleton.
      split; [intros ->; reflexivity|intros [= ->]; reflexivity].
    + rewrite elem_of_nil. split; [tauto|]. intros [= -> ->].
      discriminate.
Qed.

Lemma range_decimal lo hi a :
  range lo hi a = true -> 0 <= val lo -> val hi <= 9 -> isdecimal a = true.
Proof. intros H Hlo Hhi. apply range_iff in H. apply isdecimal_iff. lia. Qed.

(** What the group of the day can hold, when the input does not
    begin with white space. *)
Lemma elem_re_d s t r :
  (t, r) ∈ re_d s -> (forall a s', s = String a s' -> isspace a = false) ->
  s = t +:+ r /\ field_text (int t) t.
Proof.
  unfold re_d. rewrite !elem_of_app, !elem_two, elem_one.
  intros [H|[H|[H|[H|H]]]] Hs.
  - destruct H as (a & b & -> & -> & Ha & Hb).
    split; [reflexivity|]. left.
    apply lit_eq in Ha as ->. apply range_decimal in Hb; [|vm_compute; discriminate..].
    destruct (int_two "3" b eq_refl Hb) as [-> E]. exact E.
  - destruct H as (a & b & -> & -> & Ha & Hb).
    split; [reflexivity|]. left.
    apply range_decimal in Ha; [|vm_compute; discriminate..].
    destruct (int_two a b Ha Hb) as [-> E]. exact E.
  - destruct H as (a & b & -> & -> & Ha & Hb).
    split; [reflexivity|]. left.
    apply lit_eq in Ha as ->. apply range_decimal in Hb; [|vm_compute; discriminate..].
    destruct (int_two "0" b eq_refl Hb) as [-> E]. exact E.
  - destruct H as (a & -> & -> & Ha).
    split; [reflexivity|]. right.
    pose proof (range_decimal _ _ _ Ha ltac:(vm_compute; discriminate)
                  ltac:(vm_compute; discriminate)) as Hd.
    destruct (int_one a Hd) as [-> E]. split; [|exact E].
    apply range_iff in Ha. exact Ha.
  - destruct H as (a & b & -> & -> & Ha & Hb).
    apply lit_eq in Ha as ->. specialize (Hs _ _ eq_refl). discriminate.
Qed.

Lemma elem_re_m s t r :
  (t, r) ∈ re_m s -> s = t +:+ r /\ field_text (int t) t.
Proof.
  unfold re_m. rewrite !elem_of_app, !elem_two, elem_one.
  intros [H|[H|H]].
  - destruct H as (a & b & -> & -> & Ha & Hb).
    split; [reflexivity|]. left.
    apply lit_eq in Ha as ->. apply range_decimal in Hb; [|vm_compute; discriminate..].
    destruct (int_two "1" b eq_refl Hb) as [-> E]. exact E.
  - destruct H as (a & b & -> & -> & Ha & Hb).
    split; [reflexivity|]. left.
    apply lit_eq in Ha as ->. apply range_decimal in Hb; [|vm_compute; discriminate..].
    destruct (int_two "0" b eq_refl Hb) as [-> E]. exact E.
  - destruct H as (a & -> & -> & Ha).
    split; [reflexivity|]. right.
    pose proof (range_decimal _ _ _ Ha ltac:(vm_compute; discriminate)
                  ltac:(vm_compute; discriminate)) as Hd.
    destruct (int_one a Hd) as [-> E]. split; [|exact E].
    apply range_iff in Ha. exact Ha.
Qed.

Lemma elem_re_Y s t r :
  (t, r) ∈ re_Y s -> s = t +:+ r /\ t = dddd (int t).
Proof.
  unfold re_Y. destruct s as [|a [|b [|c [|d s]]]]; try (rewrite elem_of_nil; tauto).
  destruct (isdecimal a && isdecimal b && isdecimal c && isdecimal d) eqn:E;
    [|rewrite elem_of_nil; tauto].
  rewrite list_elem_of_singleton. intros [= -> ->].
  split; [reflexivity|].
  apply andb_prop in E as [E Hd]. apply andb_prop in E as [E Hc].
  apply andb_prop in E as [Ha Hb].
  destruct (int_four a b c d Ha Hb Hc Hd) as (Hi & Ht & _).
  rewrite Hi. exact Ht.
Qed.

(** A successful match cuts the input into day, month and year. *)
Lemma regex_match_Some s dt mt yt rest :
  regex_match s = Some (dt, mt, yt, rest) ->
  (forall a s', s = String a s' -> isspace a = false) ->
  s = dt +:+ "." +:+ mt +:+ "." +:+ yt +:+ rest /\
  field_text (int dt) dt /\ field_text (int mt) mt /\ yt = dddd (int yt).
Proof.
  unfold regex_match. intros H Hs. apply head_Some_elem_of in H.
  apply list_elem_of_bind in H as ([d r1] & H & Hd).
  apply list_elem_of_bind in H as (r2 & H & Hdot1).
  apply list_elem_of_bind in H as ([m r3] & H & Hm).
  apply list_elem_of_bind in H as (r4 & H & Hdot2).
  apply list_elem_of_bind in H as ([Y r5] & H & HY).
  apply list_elem_of_singleton in H. injection H as -> -> -> ->.
  apply elem_re_d in Hd as [-> Hd]; [|exact Hs].
  apply elem_dot in Hdot1 as ->. apply elem_re_m in Hm as [-> Hm].
  apply elem_dot in Hdot2 as ->. apply elem_re_Y in HY as [-> HY].
  split; [reflexivity|]. auto.
Qed.

End ParseFacts.

Module FormatFacts.
Import Date Spec Str StrFacts CharFacts Strptime ParseFacts.

Lemma head_bind_cons {A B} (f : A -> list B) x l y :
  head (f x) = Some y -> head ((x :: l) ≫= f) = Some y.
Proof.
  intros H. rewrite bind_cons.
  apply head_Some in H as [l' ->]. reflexivity.
Qed.

Lemma append_empty s : s +:+ EmptyString = s.
Proof.
  induction s as [|a s IH]; [reflexivity|].
  change (String a (s +:+ EmptyString) = String a s). rewrite IH. reflexivity.
Qed.

Lemma re_dot_dot r : re_dot (String "." r) = [r].
Proof. reflexivity. Qed.

Ltac small_cases v n bound :=
  replace v with (Z.of_nat (Z.to_nat v)) in * by lia;
  set (n := Z.to_nat v) in *;
  assert (n <= bound)%nat by lia; clearbody n.

Ltac text_case Ht :=
  try lia;
  destruct Ht as [->|[? ->]]; try lia;
  eexists; split; vm_compute; reflexivity.

(** The texts of a day: the pattern takes them whole, first. *)
Lemma re_d_text v t r : 1 <= v <= 31 -> field_text v t ->
  exists l, re_d (t +:+ String "." r) = (t, String "." r) :: l /\ int t = v.
Proof.
  intros Hv Ht. small_cases v n 31%nat.
  do 32 (destruct n as [|n]; [text_case Ht|]). lia.
Qed.

Lemma re_m_text v t r : 1 <= v <= 12 -> field_text v t ->
  exists l, re_m (t +:+ String "." r) = (t, String "." r) :: l /\ int t = v.
Proof.
  intros Hv Ht. small_cases v n 12%nat.
  do 13 (destruct n as [|n]; [text_case Ht|]). lia.
Qed.

Lemma re_Y_text y : 0 <= y <= 9999 ->
  re_Y (dddd y) = [(dddd y, EmptyString)] /\ int (dddd y) = y.
Proof.
  intros Hy. unfold dddd, dd. split.
  - simpl. rewrite !isdecimal_digit. reflexivity.
  - destruct (int_four (digit (y / 1000)) (digit (y / 100)) (digit (y / 10)) (digit y))
      as (-> & _); try apply isdecimal_digit.
    rewrite !val_digit. Z.div_mod_to_equations; lia.
Qed.

Lemma regex_match_text ds ms y dv mv :
  1 <= dv <= 31 -> field_text dv ds -> 1 <= mv <= 12 -> field_text mv ms ->
  0 <= y <= 9999 ->
  regex_match (ds +:+ "." +:+ ms +:+ "." +:+ dddd y) =
    Some (ds, ms, dddd y, EmptyString) /\
  int ds = dv /\ int ms = mv /\ int (dddd y) = y.
Proof.
  intros Hdv Hds Hmv Hms Hy.
  destruct (re_d_text dv ds (ms +:+ "." +:+ dddd y) Hdv Hds) as (ld & Hd & Hdi).
  destruct (re_m_text mv ms (dddd y) Hmv Hms) as (lm & Hm & Hmi).
  destruct (re_Y_text y Hy) as (HY & HYi).
  split; [|auto].
  unfold regex_match.
  change (ds +:+ "." +:+ ms +:+ "." +:+ dddd y)
    with (ds +:+ String "." (ms +:+ "." +:+ dddd y)).
  rewrite Hd. apply head_bind_cons.
  rewrite re_dot_dot. apply head_bind_cons.
  change (ms +:+ "." +:+ dddd y) with (ms +:+ String "." (dddd y)).
  rewrite Hm. apply head_bind_cons.
  rewrite re_dot_dot. apply head_bind_cons.
  rewrite HY. reflexivity.
Qed.

(** [strptime] on an input that does not begin with white space. *)
Lemma strptime_spec s d :
  (forall a s', s = String a s' -> isspace a = false) ->
  strptime s = Ok d <-> valid d = true /\ lenient d s.
Proof.
  intros Hs. split.
  - intros H. split; [eapply RecFacts.strptime_valid, H|].
    unfold strptime in H.
    destruct (regex_match s) as [[[[dt mt] yt] rest]|] eqn:E; [|discriminate].
    destruct rest; [|discriminate].
    apply DateFacts.new_inv in H as [-> _].
    apply regex_match_Some in E as (-> & Hd & Hm & HY); [|exact Hs].
    exists dt, mt. simpl. rewrite <- HY.
    split; [exact Hd|]. split; [exact Hm|].
    rewrite append_empty. reflexivity.
  - intros [Hv (ds & ms & Hds & Hms & ->)].
    pose proof (DateFacts.valid_fields _ Hv) as (Hy & Hm & Hd).
    destruct d as [y m dy]. simpl in *.
    assert (dy <= 31) as Hd31.
    { unfold days_in_month in Hd.
      destruct ((m =? 2) && is_leap y); [lia|].
      DateFacts.each_month m Hm; simpl in Hd; lia. }
    destruct (regex_match_text ds ms y dy m)
      as (E & Hdi & Hmi & Hyi); try assumption; try lia.
    unfold strptime. rewrite E, Hdi, Hmi, Hyi.
    apply DateFacts.new_valid. exact Hv.
Qed.

(** [Birthday(raw)] succeeds exactly on the lenient texts of dates. *)
Lemma birthday_init_spec raw d :
  Birthday.init raw = Ok d <-> valid d = true /\ lenient d (strip raw).
Proof.
  rewrite <- strptime_spec by (intros a s' H; eapply strip_head, H).
  unfold Birthday.init, Birthday.value_setter. cbv zeta.
  destruct (strptime (strip raw)) as [v|[msg|msg]];
    split; intros H; try discriminate; exact H.
Qed.

(** From the year 1000 on the numeral of a year has four digits;
    before, it has fewer. *)
Lemma year_text y : 1000 <= y <= 9999 -> Int.str y = dddd y.
Proof.
  intros Hy.
  assert (forallb (fun n => String.eqb (Int.str (n + 1000)) (dddd (n + 1000)))
            (map Z.of_nat (seq 0 (Z.to_nat 9000))) = true) as H by (vm_compute; reflexivity).
  pose proof (OrdinalFacts.forallb_upto _ (Z.to_nat 9000) H (y - 1000)) as E.
  cbv beta in E. replace (y - 1000 + 1000) with y in E by lia.
  apply String.eqb_eq, E. lia.
Qed.

Lemma year_text_short y : 1 <= y < 1000 -> (String.length (Int.str y) < 4)%nat.
Proof.
  intros Hy.
  assert (forallb (fun n => Nat.ltb (String.length (Int.str n)) 4)
            (map Z.of_nat (seq 0 (Z.to_nat 1000))) = true) as H by (vm_compute; reflexivity).
  pose proof (OrdinalFacts.forallb_upto _ (Z.to_nat 1000) H y) as E.
  cbv beta in E. apply Nat.ltb_lt, E. lia.
Qed.

Lemma dmy_text_strict d : strict_dmy (dmy_text d) = true.
Proof.
  unfold dmy_text, dddd, dd. simpl.
  rewrite !isdecimal_digit. reflexivity.
Qed.

Lemma strftime_dmy_text d : 1000 <= year d <= 9999 -> strftime_dmy d = dmy_text d.
Proof. intros Hy. unfold strftime_dmy, dmy_text. rewrite (year_text _ Hy). reflexivity. Qed.

Lemma length_append s t :
  String.length (s +:+ t) = (String.length s + String.length t)%nat.
Proof.
  induction s as [|c s IH]; [reflexivity|].
  change (S (String.length (s +:+ t)) = S (String.length s + String.length t)).
  rewrite IH. reflexivity.
Qed.

Lemma strftime_dmy_short d : 1 <= year d < 1000 -> strftime_dmy d <> dmy_text d.
Proof.
  intros Hy E. apply year_text_short in Hy.
  apply (f_equal String.length) in E. unfold strftime_dmy, dmy_text, dd, dddd in E.
  rewrite !length_append in E. simpl in E. lia.
Qed.

Lemma strftime_dmy_strict d :
  1000 <= year d <= 9999 -> strict_dmy (strftime_dmy d) = true.
Proof. intros Hy. rewrite (strftime_dmy_text d Hy). apply dmy_text_strict. Qed.

Lemma strict_strip s : strict_dmy s = true -> strip s = s.
Proof.
  intros H. apply strip_id. unfold strict_dmy in H.
  destruct s as [|a [|b [|p [|c [|d [|q [|e [|f [|g [|h [|]]]]]]]]]]]; try discriminate.
  do 9 (apply andb_prop in H as [H ?]).
  repeat match goal with
  | H : lit _ _ = true |- _ => apply lit_eq in H; subst
  | H : isdecimal _ = true |- _ => apply decimal_not_space in H
  end.
  simpl. repeat match goal with H : not_space _ = true |- _ => rewrite H; clear H end.
  reflexivity.
Qed.

(** On the strict shape the parse gives the date whose text
    DD.MM.YYYY is the input. *)
Lemma birthday_init_strict s d : strict_dmy s = true ->
  Birthday.init s = Ok d <-> valid d = true /\ s = dmy_text d.
Proof.
  intros Hs. rewrite birthday_init_spec, (strict_strip s Hs).
  split; intros [Hv H]; (split; [exact Hv|]).
  - destruct H as (ds & ms & Hds & Hms & ->).
    destruct Hds as [->|[_ ->]], Hms as [->|[_ ->]];
      [reflexivity|exfalso; lazy in Hs; discriminate..].
  - exists (dd (day d)), (dd (month d)). rewrite H.
    split; [left; reflexivity|]. split; [left; reflexivity|]. reflexivity.
Qed.

Lemma birthday_init_text d : valid d = true -> Birthday.init (dmy_text d) = Ok d.
Proof.
  intros Hv. apply (birthday_init_strict _ d (dmy_text_strict d)).
  split; [exact Hv|reflexivity].
Qed.

(** The round trip through [%d.%m.%Y], for the years of four
    digits. *)
Lemma birthday_round_trip s d : strict_dmy s = true ->
  Birthday.init s = Ok d -> 1000 <= year d -> strftime_dmy d = s.
Proof.
  intros Hs E Hy. apply (birthday_init_strict s d Hs) in E as [Hv ->].
  apply strftime_dmy_text. apply DateFacts.valid_fields in Hv. lia.
Qed.

End FormatFacts.

(** * Further facts about the query *)

Module QueryFacts.
Import Date Spec DateFacts OrdinalFacts WindowFacts SortFacts AddressBook.

(** What a successful run of the loop has collected. *)
Lemma loop_elem today end_date rs acc u :
  loop today end_date rs acc = Ok u ->
  forall e, e ∈ u <->
    e ∈ acc \/ exists r, r ∈ rs /\ visit today end_date r = Ok (Some e).
Proof.
  revert acc. induction rs as [|r rs IH]; intros acc; simpl.
  - intros [= <-] e. split; [auto|]. intros [H|(r & H & _)]; [exact H|].
    apply elem_of_nil in H. contradiction.
  - destruct (visit today end_date r) as [o|] eqn:Hv; simpl; [|discriminate].
    intros H e. rewrite (IH _ H e). clear IH H.
    destruct o as [x|].
    + rewrite elem_of_app, list_elem_of_singleton. split.
      * intros [[H| ->]|(r' & Hr & H)]; eauto.
        -- right. exists r. split; [left|exact Hv].
        -- right. exists r'. split; [right; exact Hr|exact H].
      * intros [H|(r' & Hr & H)]; [auto|].
        apply elem_of_cons in Hr as [->|Hr].
        -- rewrite Hv in H. injection H as ->. auto.
        -- right. eauto.
    + split.
      * intros [H|(r' & Hr & H)]; [auto|].
        right. exists r'. split; [right; exact Hr|exact H].
      * intros [H|(r' & Hr & H)]; [auto|].
        apply elem_of_cons in Hr as [->|Hr].
        -- rewrite Hv in H. discriminate.
        -- right. eauto.
Qed.

(** The entries of the result are the entries of the records. *)
Lemma get_upcoming_birthdays_elem today data es :
  get_upcoming_birthdays today data = Ok es ->
  exists end_date, add_days today 7 = Ok end_date /\
    forall e, e ∈ es <->
      exists r, r ∈ values data /\ visit today end_date r = Ok (Some e).
Proof.
  intros H. apply get_upcoming_birthdays_sort in H as (e0 & u & He & Hl & ->).
  exists e0. split; [exact He|]. intros e.
  rewrite sort_elem, (loop_elem _ _ _ _ _ Hl e), elem_of_nil. tauto.
Qed.

(** Records without a birthday add nothing. *)
Lemma omap_has_birthday today end_date data :
  omap (appended today end_date) (values (filter has_birthday data)) =
  omap (appended today end_date) (values data).
Proof.
  unfold values. induction data as [|[k r] data IH]; [reflexivity|].
  rewrite filter_cons.
  destruct (decide (has_birthday (k, r))) as [H|H]; simpl.
  - destruct (appended today end_date r); [f_equal|]; exact IH.
  - unfold has_birthday in H. simpl in H.
    destruct (Rec.birthday r) as [b|] eqn:Hb; [exfalso; apply H; exact I|].
    assert (appended today end_date r = None) as ->; [|exact IH].
    unfold appended. rewrite visit_no_birthday by exact Hb. reflexivity.
Qed.

Lemma filter_book_wf data : book_wf data -> book_wf (filter has_birthday data).
Proof.
  unfold book_wf. rewrite !Forall_forall. intros H x Hx.
  apply list_elem_of_filter in Hx as [_ Hx]. apply H, Hx.
Qed.

(** A leap-day birthday that has been rolled forward lies beyond the
    window, whatever day of February it is given. *)
Lemma rolled_leap_day_late today end_date d :
  valid today = true -> year today < MAXYEAR ->
  add_days today 7 = Ok end_date -> 28 <= d <= 29 ->
  leb (mk (year today + 1) 2 d) end_date = false.
Proof.
  intros Ht Hy He Hd.
  destruct (end_date_ok today Ht Hy) as (e & He' & Hev & Heo & _).
  rewrite He in He'. injection He' as <-.
  destruct (leb (mk (year today + 1) 2 d) end_date) eqn:E; [|reflexivity].
  exfalso. unfold leb in E. apply orb_prop in E.
  pose proof (toordinal_in_year _ Ht) as Hin.
  pose proof (toordinal_in_year _ Hev) as Hin'.
  pose proof (valid_fields _ Hev) as (_ & Hm & Hdd).
  assert (year end_date <= year today + 1) as Hny.
  { destruct (Z_le_gt_dec (year end_date) (year today + 1)) as [?|G]; [assumption|].
    pose proof (days_before_year_mono (year today + 2) (year end_date) ltac:(lia)).
    replace (year today + 2) with (year today + 1 + 1) in * by lia.
    rewrite (days_before_year_succ (year today + 1)) in *.
    pose proof (days_in_year_pos (year today + 1)). lia. }
  assert (year end_date = year today + 1 /\
          (2 < month end_date \/ (month end_date = 2 /\ d <= day end_date)))
    as [Hye Hme].
  { destruct E as [E|E].
    - apply ltb_iff in E. simpl in E. lia.
    - apply eqb_eq in E. subst end_date. simpl. lia. }
  unfold toordinal in Heo at 1. rewrite Hye in *.
  destruct end_date as [ye me de]. simpl in *.
  assert (59 <= days_before_month (year today + 1) me + de).
  { unfold days_before_month. destruct Hme as [Hme|[Hme Hde]].
    - each_month me Hm; simpl; try lia;
        destruct (is_leap (year today + 1)); lia.
    - rewrite Hme. simpl. lia. }
  lia.
Qed.

End QueryFacts.

Module DigitFacts.
Import Spec Str StrFacts PhoneFacts.

Lemma isdigit_char_iff c : isdigit_char c = true <-> py_digit c.
Proof.
  unfold isdigit_char, isdecimal, py_digit.
  rewrite !orb_true_iff, andb_true_iff, !N.leb_le, !N.eqb_eq. tauto.
Qed.

Lemma isdecimal_iff_ascii c : isdecimal c = true <-> ascii_digit c.
Proof.
  unfold isdecimal, ascii_digit. rewrite andb_true_iff, !N.leb_le. tauto.
Qed.

(** The rule of the setter, character by character. *)
Lemma phone_rule_iff p : phone_rule p <-> ten py_digit p.
Proof.
  unfold phone_rule, ten. split.
  - intros [Hd Hl]. split; [exact Hl|].
    apply isdigit_all, all_chars_Forall in Hd.
    eapply Forall_impl; [exact Hd|]. intros c. apply isdigit_char_iff.
  - intros [Hl Hd]. split; [|exact Hl].
    destruct p as [|a p]; [discriminate|].
    unfold isdigit. apply all_chars_Forall.
    eapply Forall_impl; [exact Hd|]. intros c. apply isdigit_char_iff.
Qed.

End DigitFacts.

(** * The examples of the specification, evaluated *)

Module Examples.
Import AddressBook.

Example weekday_monday : Date.weekday Sample.monday = 0.
Proof. reflexivity. Qed.

Example weekday_saturday : Date.weekday (Date.mk 2024 1 6) = 5.
Proof. reflexivity. Qed.

Example weekday_sunday : Date.weekday (Date.mk 2024 1 7) = 6.
Proof. reflexivity. Qed.

Example phone_round_trip : Phone.init "0123456789" = Ok "0123456789".
Proof. reflexivity. Qed.

Example phone_too_short :
  Phone.init "12345" = Raise (ValueError "Phone number must be 10 digits.").
Proof. reflexivity. Qed.

Example birthday_impossible :
  Birthday.init "31.02.2020" =
    Raise (ValueError "Invalid date format. Use DD.MM.YYYY").
Proof. vm_compute. reflexivity. Qed.

(** A leap-day birthday in a year without a leap day. *)
Example upcoming_leap_day :
  get_upcoming_birthdays Sample.february (Sample.book_of [Sample.leap]) =
    Ok [mk_entry "Leap" "2025-02-28"].
Proof. vm_compute. reflexivity. Qed.

(** A birthday on a Saturday is congratulated the Monday after. *)
Example upcoming_saturday :
  get_upcoming_birthdays Sample.monday (Sample.book_of [Sample.alice]) =
    Ok [mk_entry "Alice" "2024-01-08"].
Proof. vm_compute. reflexivity. Qed.

Example upcoming_empty : get_upcoming_birthdays Sample.monday [] = Ok [].
Proof. vm_compute. reflexivity. Qed.

Example delete_absent :
  delete "Nobody" (Sample.book_of [Sample.alice]) =
    (false, Sample.book_of [Sample.alice]).
Proof. vm_compute. reflexivity. Qed.

Example delete_present :
  delete "Alice" (Sample.book_of [Sample.alice; Sample.bob]) =
    (true, Sample.book_of [Sample.bob]).
Proof. vm_compute. reflexivity. Qed.

(** In the last year of the calendar the window itself does not
    exist, which is why the facts about the query assume an earlier
    clock. *)
Example upcoming_last_year :
  get_upcoming_birthdays (Date.mk 9999 12 25) [] =
    Raise (OverflowError "date value out of range").
Proof. vm_compute. reflexivity. Qed.

End Examples.

(** * The properties of the specification *)

(** C1.  The claim lets a leap-day birthday that is rolled forward keep
    February 29th when the next year is a leap year.  The conditional
    expression of the source puts February 28th there for every leap-day
    birthday: on March 1st 2023 the birthday 29.02.2000 is observed on
    2023-02-28, which has passed, and the candidate is 2024-02-28
    although 2024 is a leap year and the claim asks for 2024-02-29. *)
Theorem C1_roll_forward_leap_day :
  Birthday.init "29.02.2000" = Ok (Date.mk 2000 2 29) /\
  AddressBook.bday_this_year (Date.year Sample.march) 2 29 =
    Ok (Some (Date.mk 2023 2 28)) /\
  Date.leb Sample.march (Date.mk 2023 2 28) = false /\
  AddressBook.candidate Sample.march (Date.mk 2023 2 28) 2 29 =
    Ok (Date.mk 2024 2 28) /\
  Date.is_leap (Date.year Sample.march + 1) = true /\
  Spec.observed (Date.year Sample.march + 1) (Date.mk 2000 2 29) = Date.mk 2024 2 29.
Proof. repeat split; vm_compute; reflexivity. Qed.

(** C2.  A candidate inside the window is emitted with the date of
    [shift_weekend]: two days later for a Saturday (weekday 5), one day
    later for a Sunday (weekday 6), and the candidate itself otherwise.
    The entry is appended without a second look at the window and is
    part of the result; a Saturday on the last day of the window is
    emitted with a date after the window. *)
Theorem C2_weekend_shift :
  (forall today r b,
     Date.valid today = true -> Date.year today < Date.MAXYEAR ->
     Rec.birthday r = Some b -> Date.valid b = true ->
     exists end_date c,
       Date.add_days today 7 = Ok end_date /\
       AddressBook.candidate today (Spec.observed (Date.year today) b)
         (Date.month b) (Date.day b) = Ok c /\
       (Date.leb today c && Date.leb c end_date = true ->
        exists cd,
          AddressBook.visit today end_date r =
            Ok (Some (AddressBook.mk_entry (Rec.name r) (Strptime.strftime_iso cd))) /\
          (Date.weekday c = 5 -> Date.add_days c 2 = Ok cd) /\
          (Date.weekday c = 6 -> Date.add_days c 1 = Ok cd) /\
          (Date.weekday c <> 5 -> Date.weekday c <> 6 -> cd = c) /\
          Date.toordinal cd = Date.toordinal c +
            (if Date.weekday c =? 5 then 2 else if Date.weekday c =? 6 then 1 else 0) /\
          (forall data es,
             r ∈ AddressBook.values data ->
             AddressBook.get_upcoming_birthdays today data = Ok es ->
             AddressBook.mk_entry (Rec.name r) (Strptime.strftime_iso cd) ∈ es))) /\
  (exists today r end_date cd,
     Date.add_days today 7 = Ok end_date /\
     AddressBook.visit today end_date r =
       Ok (Some (AddressBook.mk_entry (Rec.name r) (Strptime.strftime_iso cd))) /\
     Date.ltb end_date cd = true).
Proof.
  split.
  - intros today r b Ht Hy Hr Hb.
    destruct (WindowFacts.end_date_ok today Ht Hy) as (e & He & _).
    destruct (WindowFacts.visit_birthday today Ht Hy e He r b Hr Hb)
      as (c & Hc & _ & Hcase).
    exists e, c. split; [exact He|]. split; [exact Hc|].
    intros Hw. destruct Hcase as [(_ & cd & Hs & Ho & Hv)|(Hw' & _)]; [|congruence].
    exists cd. split; [exact Hv|].
    assert (forall data es,
              r ∈ AddressBook.values data ->
              AddressBook.get_upcoming_birthdays today data = Ok es ->
              AddressBook.mk_entry (Rec.name r) (Strptime.strftime_iso cd) ∈ es)
      as Hres.
    { intros data es Hin Hes.
      destruct (QueryFacts.get_upcoming_birthdays_elem today data es Hes)
        as (e' & He' & Hiff).
      rewrite He in He'. injection He' as <-. apply Hiff. eauto. }
    unfold AddressBook.shift_weekend in Hs.
    destruct (Z.eqb_spec (Date.weekday c) 5) as [E5|E5].
    + split; [intros _; exact Hs|]. split; [intros E6; lia|].
      split; [intros N; contradiction|]. split; [exact Ho|exact Hres].
    + destruct (Z.eqb_spec (Date.weekday c) 6) as [E6|E6].
      * split; [intros E; contradiction|]. split; [intros _; exact Hs|].
        split; [intros _ N; contradiction|]. split; [exact Ho|exact Hres].
      * injection Hs as <-. split; [intros E; contradiction|].
        split; [intros E; contradiction|].
        split; [reflexivity|]. split; [exact Ho|exact Hres].
  - exists Sample.saturday, Sample.alice, (Date.mk 2024 1 6), (Date.mk 2024 1 8).
    repeat split; vm_compute; reflexivity.
Qed.

Lemma C2_weekend_shift_witness :
  Date.valid Sample.monday = true /\ Date.year Sample.monday < Date.MAXYEAR /\
  Rec.birthday Sample.alice = Some (Date.mk 1990 1 6) /\
  Date.valid (Date.mk 1990 1 6) = true /\
  exists end_date c,
    Date.add_days Sample.monday 7 = Ok end_date /\
    AddressBook.candidate Sample.monday
      (Spec.observed (Date.year Sample.monday) (Date.mk 1990 1 6)) 1 6 = Ok c /\
    (Date.leb Sample.monday c && Date.leb c end_date = true ->
     exists cd,
       AddressBook.visit Sample.monday end_date Sample.alice =
         Ok (Some (AddressBook.mk_entry "Alice" (Strptime.strftime_iso cd))) /\
       (Date.weekday c = 5 -> Date.add_days c 2 = Ok cd) /\
       (Date.weekday c = 6 -> Date.add_days c 1 = Ok cd) /\
       (Date.weekday c <> 5 -> Date.weekday c <> 6 -> cd = c) /\
       Date.toordinal cd = Date.toordinal c +
         (if Date.weekday c =? 5 then 2 else if Date.weekday c =? 6 then 1 else 0) /\
       (forall data es,
          Sample.alice ∈ AddressBook.values data ->
          AddressBook.get_upcoming_birthdays Sample.monday data = Ok es ->
          AddressBook.mk_entry "Alice" (Strptime.strftime_iso cd) ∈ es)).
Proof.
  split; [reflexivity|]. split; [reflexivity|]. split; [reflexivity|].
  split; [reflexivity|].
  apply (proj1 C2_weekend_shift Sample.monday Sample.alice (Date.mk 1990 1 6));
    reflexivity.
Defined.



(** C4 (as the source has it).  After stripping, [Birthday] accepts
    exactly the texts day.month.year of a date of the years 1 to 9999
    whose year has four digits and whose day and month have two digits
    or, below ten, one digit; everything else is refused with the one
    message, the impossible date 31.02.2020 included.  A text of the
    strict shape DD.MM.YYYY is accepted exactly as the date it
    writes, and every date has such a text.  The parsed date formats
    back to that text when its year is 1000 or later, and to another
    one when its year is earlier, [%Y] writing the year without
    leading zeros. *)
Theorem C4_birthday_create :
  (forall raw d,
     Birthday.init raw = Ok d <->
     Date.valid d = true /\ Spec.lenient d (Str.strip raw)) /\
  (forall raw e,
     Birthday.init raw = Raise e ->
     e = ValueError "Invalid date format. Use DD.MM.YYYY") /\
  Birthday.init "31.02.2020" =
    Raise (ValueError "Invalid date format. Use DD.MM.YYYY") /\
  (forall s d,
     Spec.strict_dmy s = true ->
     (Birthday.init s = Ok d <->
      Date.valid d = true /\ s = Spec.dmy_text d)) /\
  (forall d, Date.valid d = true ->
     Spec.strict_dmy (Spec.dmy_text d) = true /\
     Birthday.init (Spec.dmy_text d) = Ok d) /\
  (forall s d,
     Spec.strict_dmy s = true -> Birthday.init s = Ok d ->
     (1000 <= Date.year d -> Strptime.strftime_dmy d = s) /\
     (Date.year d < 1000 -> Strptime.strftime_dmy d <> s)).
Proof.
  split; [exact FormatFacts.birthday_init_spec|].
  split; [exact RecFacts.birthday_init_raise|].
  split; [vm_compute; reflexivity|].
  split; [exact FormatFacts.birthday_init_strict|].
  split.
  - intros d Hv.
    split; [apply FormatFacts.dmy_text_strict|apply FormatFacts.birthday_init_text, Hv].
  - intros s d Hs E. split.
    + apply FormatFacts.birthday_round_trip; assumption.
    + intros Hy. apply (FormatFacts.birthday_init_strict s d Hs) in E as [Hv ->].
      apply FormatFacts.strftime_dmy_short.
      apply DateFacts.valid_fields in Hv. lia.
Qed.

Lemma C4_birthday_create_witness :
  Spec.strict_dmy "29.02.2024" = true /\
  Birthday.init "29.02.2024" = Ok (Date.mk 2024 2 29) /\
  Strptime.strftime_dmy (Date.mk 2024 2 29) = "29.02.2024".
Proof.
  assert (Spec.strict_dmy "29.02.2024" = true) as Hs by reflexivity.
  assert (Birthday.init "29.02.2024" = Ok (Date.mk 2024 2 29)) as E.
  { apply (proj1 (proj2 (proj2 (proj2 C4_birthday_create)))
             "29.02.2024" (Date.mk 2024 2 29) Hs).
    split; reflexivity. }
  split; [exact Hs|]. split; [exact E|].
  apply (proj2 (proj2 (proj2 (proj2 (proj2 C4_birthday_create))))
           "29.02.2024" (Date.mk 2024 2 29) Hs E).
  simpl. lia.
Defined.

(** C4, counterexamples: a day and a month of one digit are accepted,
    so the accepted texts are not only those of the strict shape; and
    the strict text 02.01.0999 is accepted and formats back as
    02.01.999. *)
Lemma C4_counterexample :
  (Birthday.init "1.1.2020" = Ok (Date.mk 2020 1 1) /\
   Spec.strict_dmy (Str.strip "1.1.2020") = false) /\
  (Spec.strict_dmy "02.01.0999" = true /\
   Birthday.init "02.01.0999" = Ok (Date.mk 999 1 2) /\
   Strptime.strftime_dmy (Date.mk 999 1 2) = "02.01.999").
Proof. repeat split; vm_compute; reflexivity. Qed.

(** C5 (as the source has it).  [Phone] succeeds exactly when the
    stripped input has ten characters that [str.isdigit] accepts, the
    digits 0 to 9 and also the superscripts U+00B2, U+00B3 and U+00B9,
    and then holds the stripped input; otherwise it raises the one
    [ValueError], and a record that was to receive the phone is left as
    it was. *)
Theorem C5_phone_create raw :
  (Spec.ten Spec.py_digit (Str.strip raw) /\ Phone.init raw = Ok (Str.strip raw)) \/
  (~ Spec.ten Spec.py_digit (Str.strip raw) /\
   Phone.init raw = Raise (ValueError "Phone number must be 10 digits.") /\
   forall self,
     Rec.add_phone raw self =
       (Raise (ValueError "Phone number must be 10 digits."), self)).
Proof.
  destruct (PhoneFacts.phone_rule_dec (Str.strip raw)) as [R|R].
  - left. split; [apply DigitFacts.phone_rule_iff, R|].
    apply PhoneFacts.value_setter_ok, R.
  - right. split; [rewrite <- DigitFacts.phone_rule_iff; exact R|].
    pose proof (PhoneFacts.value_setter_raise raw R) as E.
    split; [exact E|]. intros self. unfold Rec.add_phone, Phone.init.
    rewrite E. reflexivity.
Qed.

(** C5, counterexample: ten superscript twos are accepted although
    none of them is an ASCII digit. *)
Lemma C5_counterexample :
  Phone.init Sample.superscripts = Ok Sample.superscripts /\
  ~ Spec.ten Spec.ascii_digit (Str.strip Sample.superscripts).
Proof.
  split; [vm_compute; reflexivity|].
  intros [_ H]. apply Forall_inv in H. unfold Spec.ascii_digit in H.
  destruct H as [_ H]. vm_compute in H. apply H. reflexivity.
Qed.

(** C6.  [edit_phone] on a record: without a stored phone equal to
    [old] it returns [False] and changes nothing; with one, at its
    first position [i], an invalid [new] raises the [ValueError] and
    changes nothing, and a valid [new] returns [True] and leaves a
    record whose phone list has the stripped [new] at position [i] and
    is otherwise as before, the name and the birthday being kept. *)
Theorem C6_edit_phone old new (self : Rec.record) :
  ((old ∉ Rec.phones self) /\ Rec.edit_phone old new self = (Ok false, self)) \/
  (exists i : nat,
     Rec.phones self !! i = Some old /\
     (forall j : nat, (j < i)%nat -> Rec.phones self !! j <> Some old) /\
     ((~ Spec.phone_rule (Str.strip new) /\
       Rec.edit_phone old new self =
         (Raise (ValueError "Phone number must be 10 digits."), self)) \/
      (Spec.phone_rule (Str.strip new) /\
       fst (Rec.edit_phone old new self) = Ok true /\
       Rec.name (snd (Rec.edit_phone old new self)) = Rec.name self /\
       Rec.birthday (snd (Rec.edit_phone old new self)) = Rec.birthday self /\
       Rec.phones (snd (Rec.edit_phone old new self)) =
         <[i := Str.strip new]> (Rec.phones self) /\
       Rec.phones (snd (Rec.edit_phone old new self)) !! i = Some (Str.strip new) /\
       length (Rec.phones (snd (Rec.edit_phone old new self))) =
         length (Rec.phones self) /\
       forall j : nat, j <> i ->
         Rec.phones (snd (Rec.edit_phone old new self)) !! j = Rec.phones self !! j))).
Proof.
  unfold Rec.edit_phone.
  destruct (Rec.find_phone old self) as [[i p]|] eqn:E.
  - right. apply RecFacts.find_phone_Some in E as (-> & Hi & Hj).
    exists i. split; [exact Hi|]. split; [exact Hj|].
    destruct (PhoneFacts.phone_rule_dec (Str.strip new)) as [R|R].
    + right. split; [exact R|].
      rewrite (PhoneFacts.value_setter_ok new R). simpl.
      split; [reflexivity|]. split; [reflexivity|]. split; [reflexivity|].
      split; [reflexivity|].
      split; [apply list_lookup_insert_eq; eapply lookup_lt_Some, Hi|].
      split; [apply length_insert|].
      intros j Hne. apply list_lookup_insert_ne. congruence.
    + left. split; [exact R|].
      rewrite (PhoneFacts.value_setter_raise new R). reflexivity.
  - left. split; [apply RecFacts.find_phone_None, E|reflexivity].
Qed.

Lemma C6_edit_phone_witness :
  Rec.phones Inputs.twice = ["1111111111"; "0123456789"; "1111111111"] /\
  fst (Rec.edit_phone "1111111111" " 2222222222 " Inputs.twice) = Ok true /\
  Rec.phones (snd (Rec.edit_phone "1111111111" " 2222222222 " Inputs.twice)) =
    ["2222222222"; "0123456789"; "1111111111"].
Proof.
  split; [reflexivity|].
  destruct (C6_edit_phone "1111111111" " 2222222222 " Inputs.twice)
    as [[Hn _]|(i & Hi & Hfirst & [[Hr _]|(_ & Hfst & _ & _ & Hph & _)])].
  - exfalso. apply Hn. left.
  - exfalso. apply Hr. split; reflexivity.
  - destruct i as [|i]; [|exfalso; apply (Hfirst 0%nat); [lia|reflexivity]].
    split; [exact Hfst|]. rewrite Hph. reflexivity.
Defined.

(** C7.  The list returned is sorted by (congratulation date, name)
    under the comparison of strings; entries with the same date
    therefore stand in the order of their names. *)
Theorem C7_sorted today data es :
  AddressBook.get_upcoming_birthdays today data = Ok es ->
  StronglySorted Spec.key_le es /\
  (forall (i j : nat) a b,
     (i < j)%nat -> es !! i = Some a -> es !! j = Some b ->
     AddressBook.congratulation_date a = AddressBook.congratulation_date b ->
     String.leb (AddressBook.name a) (AddressBook.name b) = true).
Proof.
  intros H. apply SortFacts.get_upcoming_birthdays_sort in H as (e & u & _ & _ & ->).
  pose proof (SortFacts.sort_sorted u) as Hs. split; [exact Hs|].
  intros i j a b Hij Ha Hb Hd.
  destruct (SortFacts.sorted_lookup _ i j a b Hs Hij Ha Hb) as [Hlt|[_ Hn]].
  - rewrite Hd, SortFacts.ltb_irrefl in Hlt. discriminate.
  - exact Hn.
Qed.

Lemma C7_sorted_witness :
  AddressBook.get_upcoming_birthdays Sample.monday
    (Sample.book_of [Sample.bob; Sample.alice]) =
    Ok [AddressBook.mk_entry "Alice" "2024-01-08";
        AddressBook.mk_entry "Bob" "2024-01-08"] /\
  StronglySorted Spec.key_le
    [AddressBook.mk_entry "Alice" "2024-01-08";
     AddressBook.mk_entry "Bob" "2024-01-08"].
Proof.
  assert (AddressBook.get_upcoming_birthdays Sample.monday
            (Sample.book_of [Sample.bob; Sample.alice]) =
          Ok [AddressBook.mk_entry "Alice" "2024-01-08";
              AddressBook.mk_entry "Bob" "2024-01-08"]) as H
    by (vm_compute; reflexivity).
  split; [exact H|]. exact (proj1 (C7_sorted _ _ _ H)).
Defined.

(** C8.  With a clock before the last year of the calendar the query
    returns a list for every book the operations can produce: records
    without a birthday contribute nothing, the empty book gives the
    empty list, and no stored birthday, a leap day included, makes it
    raise. *)
Theorem C8_total today data :
  Date.valid today = true -> Date.year today < Date.MAXYEAR ->
  AddressBook.reachable data ->
  (exists es, AddressBook.get_upcoming_birthdays today data = Ok es) /\
  AddressBook.get_upcoming_birthdays today [] = Ok [] /\
  AddressBook.get_upcoming_birthdays today data =
    AddressBook.get_upcoming_birthdays today (filter Spec.has_birthday data) /\
  (forall end_date r,
     Rec.birthday r = None -> AddressBook.visit today end_date r = Ok None).
Proof.
  intros Ht Hy Hd. apply BookFacts.reachable_wf in Hd.
  destruct (WindowFacts.end_date_ok today Ht Hy) as (e & He & _).
  pose proof (WindowFacts.get_upcoming_birthdays_total today Ht Hy e He data
                (BookFacts.book_wf_birthdays data Hd)) as Hq.
  pose proof (WindowFacts.get_upcoming_birthdays_total today Ht Hy e He
                (filter Spec.has_birthday data)
                (BookFacts.book_wf_birthdays _ (QueryFacts.filter_book_wf data Hd)))
    as Hq'.
  split; [eauto|]. split.
  - unfold AddressBook.get_upcoming_birthdays. rewrite He. reflexivity.
  - split.
    + rewrite Hq, Hq', QueryFacts.omap_has_birthday. reflexivity.
    + intros end_date r. apply WindowFacts.visit_no_birthday.
Qed.

Lemma C8_total_witness :
  Date.valid Sample.february = true /\ Date.year Sample.february < Date.MAXYEAR /\
  AddressBook.reachable (Sample.book_of [Sample.leap]) /\
  (exists es,
     AddressBook.get_upcoming_birthdays Sample.february
       (Sample.book_of [Sample.leap]) = Ok es) /\
  AddressBook.get_upcoming_birthdays Sample.february [] = Ok [] /\
  AddressBook.get_upcoming_birthdays Sample.february (Sample.book_of [Sample.leap]) =
    AddressBook.get_upcoming_birthdays Sample.february
      (filter Spec.has_birthday (Sample.book_of [Sample.leap])) /\
  (forall end_date r,
     Rec.birthday r = None ->
     AddressBook.visit Sample.february end_date r = Ok None).
Proof.
  assert (AddressBook.reachable (Sample.book_of [Sample.leap])) as Hr.
  { apply (AddressBook.reach_add "Leap" [Rec.AddBirthday "29.02.1996"] []).
    apply AddressBook.reach_empty. }
  split; [reflexivity|]. split; [reflexivity|]. split; [exact Hr|].
  apply (C8_total Sample.february (Sample.book_of [Sample.leap]));
    [reflexivity|reflexivity|exact Hr].
Defined.

(** C9 (as the source has it).  Whatever operations a record has gone
    through, every phone in its list has ten characters that
    [str.isdigit] accepts: the digits 0 to 9 and also the superscripts
    U+00B2, U+00B3 and U+00B9.  The same holds for the records of a
    book, which the callers share with it. *)
Theorem C9_phones_valid :
  (forall name ops,
     Forall Spec.phone_rule (Rec.phones (Rec.run ops (Rec.init name)))) /\
  (forall data, AddressBook.reachable data ->
     forall r, r ∈ AddressBook.values data -> Forall Spec.phone_rule (Rec.phones r)) /\
  (forall p, Spec.phone_rule p <-> Spec.ten Spec.py_digit p).
Proof.
  split; [|split].
  - intros name ops. apply (RecFacts.run_wf ops (Rec.init name)), RecFacts.init_wf.
  - intros data Hd r Hr. apply BookFacts.reachable_wf in Hd.
    unfold AddressBook.values in Hr.
    apply list_elem_of_fmap in Hr as (kr & -> & Hkr).
    unfold Spec.book_wf in Hd. rewrite Forall_forall in Hd.
    apply (Hd kr Hkr).
  - exact DigitFacts.phone_rule_iff.
Qed.

Lemma C9_phones_valid_witness :
  AddressBook.reachable (Sample.book_of [Sample.two_phones]) /\
  Sample.two_phones ∈ AddressBook.values (Sample.book_of [Sample.two_phones]) /\
  Forall Spec.phone_rule (Rec.phones Sample.two_phones).
Proof.
  assert (AddressBook.reachable (Sample.book_of [Sample.two_phones])) as Hr.
  { apply (AddressBook.reach_add "Carol"
             [Rec.AddPhone "0123456789"; Rec.AddPhone "1111111111"] []).
    apply AddressBook.reach_empty. }
  assert (Sample.two_phones ∈ AddressBook.values (Sample.book_of [Sample.two_phones]))
    as Hin by (vm_compute; left).
  split; [exact Hr|]. split; [exact Hin|].
  exact (proj1 (proj2 C9_phones_valid) _ Hr _ Hin).
Defined.

(** C9, counterexample: [add_phone] with ten superscript twos stores
    them, a phone without a single digit of 0 to 9. *)
Lemma C9_counterexample :
  Rec.phones (Rec.run [Rec.AddPhone Sample.superscripts] (Rec.init "Carol")) =
    [Sample.superscripts] /\
  ~ Spec.ten Spec.ascii_digit Sample.superscripts.
Proof.
  split; [vm_compute; reflexivity|].
  intros [_ H]. apply Forall_inv in H. unfold Spec.ascii_digit in H.
  destruct H as [_ H]. vm_compute in H. apply H. reflexivity.
Qed.

(** C10.  A valid phone is stored stripped, and [find_phone] compares
    its argument as given: after [add_phone p] the stripped [p] is
    found, and [p] itself is found when it had nothing to strip and is
    not found when it had. *)
Theorem C10_find_after_add name ops p :
  Spec.phone_rule (Str.strip p) ->
  exists self' (i : nat),
    Rec.add_phone p (Rec.run ops (Rec.init name)) = (Ok (Str.strip p), self') /\
    Rec.phones self' = Rec.phones (Rec.run ops (Rec.init name)) ++ [Str.strip p] /\
    Rec.find_phone (Str.strip p) self' = Some (i, Str.strip p) /\
    (Str.strip p <> p -> Rec.find_phone p self' = None) /\
    (Str.strip p = p -> Rec.find_phone p self' = Some (i, p)).
Proof.
  intros R. set (self := Rec.run ops (Rec.init name)).
  assert (Spec.wf self) as [Hp _] by apply RecFacts.run_wf, RecFacts.init_wf.
  unfold Rec.add_phone, Phone.init. rewrite (PhoneFacts.value_setter_ok p R).
  set (self' := Rec.set_phones self (Rec.phones self ++ [Str.strip p])).
  destruct (RecFacts.find_phone_elem (Str.strip p) self') as [i Hi].
  { simpl. apply elem_of_app. right. left. }
  exists self', i. split; [reflexivity|]. split; [reflexivity|].
  split; [exact Hi|]. split.
  - intros Hne. apply RecFacts.find_phone_None. simpl. intros Hin.
    apply elem_of_app in Hin as [Hin|Hin].
    + rewrite Forall_forall in Hp. apply Hne, PhoneFacts.phone_rule_strip, Hp, Hin.
    + apply list_elem_of_singleton in Hin. congruence.
  - intros Heq. rewrite Heq in Hi. exact Hi.
Qed.

Lemma C10_find_after_add_witness :
  Spec.phone_rule (Str.strip " 0123456789 ") /\
  exists self' (i : nat),
    Rec.add_phone " 0123456789 " Sample.two_phones = (Ok "0123456789", self') /\
    Rec.phones self' = Rec.phones Sample.two_phones ++ ["0123456789"] /\
    Rec.find_phone "0123456789" self' = Some (i, "0123456789") /\
    (Str.strip " 0123456789 " <> " 0123456789 " ->
     Rec.find_phone " 0123456789 " self' = None) /\
    (Str.strip " 0123456789 " = " 0123456789 " ->
     Rec.find_phone " 0123456789 " self' = Some (i, " 0123456789 ")).
Proof.
  split; [split; reflexivity|].
  apply (C10_find_after_add "Carol"
           [Rec.AddPhone "0123456789"; Rec.AddPhone "1111111111"] " 0123456789 ").
  split; reflexivity.
Defined.

(** * More about books and records *)

Module DictFacts.
Import Spec Props AddressBook.

Lemma eqb_sym_false (a b : string) : String.eqb a b = false -> String.eqb b a = false.
Proof. rewrite !String.eqb_neq. congruence. Qed.

Lemma find_setitem key r data k :
  find k (setitem key r data) = if String.eqb k key then Some r else find k data.
Proof.
  induction data as [|[k' r'] data IH]; simpl.
  - rewrite (String.eqb_sym key k). reflexivity.
  - destruct (String.eqb k' key) eqn:E; simpl.
    + apply String.eqb_eq in E. subst k'. rewrite (String.eqb_sym key k).
      destruct (String.eqb k key); reflexivity.
    + destruct (String.eqb k' k) eqn:E'; [|exact IH].
      apply String.eqb_eq in E'. subst k'.
      rewrite E. reflexivity.
Qed.

Lemma find_None_keys name data : find name data = None <-> name ∉ map fst data.
Proof.
  induction data as [|[k r] data IH]; simpl.
  - split; [intros _ H; apply elem_of_nil in H; contradiction|reflexivity].
  - rewrite not_elem_of_cons. destruct (String.eqb_spec k name) as [->|N].
    + split; [discriminate|intros [H _]; contradiction].
    + rewrite IH. split; [intros H; split; [congruence|exact H]|intros [_ H]; exact H].
Qed.

Lemma find_Some_elem name data r : find name data = Some r -> (name, r) ∈ data.
Proof.
  induction data as [|[k x] data IH]; simpl; [discriminate|].
  destruct (String.eqb_spec k name) as [->|N].
  - intros [= ->]. left.
  - intros H. right. apply IH, H.
Qed.

(** Assigning to a key that is not there appends the entry. *)
Lemma setitem_None key r data :
  find key data = None -> setitem key r data = data ++ [(key, r)].
Proof.
  induction data as [|[k x] data IH]; simpl; [reflexivity|].
  destruct (String.eqb k key); [discriminate|]. intros H. rewrite (IH H). reflexivity.
Qed.

(** Putting back what is there changes nothing. *)
Lemma setitem_same key r data : find key data = Some r -> setitem key r data = data.
Proof.
  induction data as [|[k x] data IH]; simpl; [discriminate|].
  destruct (String.eqb k key).
  - intros [= ->]. reflexivity.
  - intros H. rewrite (IH H). reflexivity.
Qed.

Lemma setitem_keys key r r' data :
  find key data = Some r' -> map fst (setitem key r data) = map fst data.
Proof.
  induction data as [|[k x] data IH]; simpl; [discriminate|].
  destruct (String.eqb k key); simpl; [reflexivity|].
  intros H. rewrite (IH H). reflexivity.
Qed.

(** A changed record object is the entry of the book under its key. *)
Lemma setitem_mutate name o r data :
  find name data = Some r -> setitem name (Rec.step r o) data = mutate name o data.
Proof.
  induction data as [|[k x] data IH]; simpl; [discriminate|].
  destruct (String.eqb k name).
  - intros [= ->]. reflexivity.
  - intros H. rewrite (IH H). reflexivity.
Qed.

Lemma mutate_keys name o data : map fst (mutate name o data) = map fst data.
Proof.
  induction data as [|[k x] data IH]; simpl; [reflexivity|].
  destruct (String.eqb k name); simpl; [reflexivity|]. rewrite IH. reflexivity.
Qed.

Lemma delitem_sublist name data : delitem name data ⊆ data.
Proof.
  induction data as [|[k x] data IH]; simpl; [reflexivity|].
  destruct (String.eqb k name).
  - intros y Hy. right. exact Hy.
  - intros y Hy. apply elem_of_cons in Hy as [->|Hy]; [left|right; apply IH, Hy].
Qed.

Lemma find_delitem name data k :
  NoDup (map fst data) ->
  find k (delitem name data) = if String.eqb k name then None else find k data.
Proof.
  induction data as [|[k' r'] data IH]; simpl; intros Hnd.
  - destruct (String.eqb k name); reflexivity.
  - apply NoDup_cons in Hnd as [Hk Hnd].
    destruct (String.eqb_spec k' name) as [E1|N].
    + subst k'. destruct (String.eqb_spec k name) as [E2|N'].
      * subst k. apply find_None_keys, Hk.
      * destruct (String.eqb_spec name k); [congruence|reflexivity].
    + simpl. destruct (String.eqb_spec k' k) as [E2|N'].
      * subst k'. destruct (String.eqb_spec k name); [congruence|reflexivity].
      * apply IH, Hnd.
Qed.

Lemma delitem_keys_NoDup name data :
  NoDup (map fst data) -> NoDup (map fst (delitem name data)).
Proof.
  induction data as [|[k x] data IH]; simpl; intros Hnd; [exact Hnd|].
  apply NoDup_cons in Hnd as [Hk Hnd].
  destruct (String.eqb k name); [exact Hnd|]. simpl.
  apply NoDup_cons. split; [|apply IH, Hnd].
  intros Hin. apply Hk. apply list_elem_of_fmap in Hin as ([k' x'] & -> & Hin).
  apply list_elem_of_fmap. exists (k', x'). split; [reflexivity|].
  apply (delitem_sublist name data), Hin.
Qed.

Lemma delitem_length name data r :
  find name data = Some r -> S (length (delitem name data)) = length data.
Proof.
  induction data as [|[k x] data IH]; simpl; [discriminate|].
  destruct (String.eqb k name); [reflexivity|].
  intros H. simpl. rewrite (IH H). reflexivity.
Qed.

Lemma step_name r o : Rec.name (Rec.step r o) = Rec.name r.
Proof.
  destruct o as [p|p|p q|b|i v|v]; simpl.
  - unfold Rec.add_phone. destruct (Phone.init p); reflexivity.
  - unfold Rec.remove_phone. destruct (Rec.find_phone p r) as [[i x]|]; reflexivity.
  - unfold Rec.edit_phone. destruct (Rec.find_phone p r) as [[i x]|]; [|reflexivity].
    destruct (Phone.value_setter q); reflexivity.
  - unfold Rec.add_birthday. destruct (Birthday.init b); reflexivity.
  - unfold Rec.set_phone_value. destruct (Phone.value_setter v); reflexivity.
  - unfold Rec.set_birthday_value. destruct (Birthday.value_setter v); [|reflexivity].
    simpl. destruct (Rec.birthday r); reflexivity.
Qed.

Lemma run_name ops r : Rec.name (Rec.run ops r) = Rec.name r.
Proof.
  unfold Rec.run. revert r. induction ops as [|o ops IH]; intros r; simpl;
    [reflexivity|]. rewrite IH. apply step_name.
Qed.

Lemma setitem_keyed key r data :
  key = Rec.name r -> keyed data -> keyed (setitem key r data).
Proof.
  intros Hk [Hnd Hn]. split.
  - destruct (find key data) as [r'|] eqn:E.
    + rewrite (setitem_keys key r r' data E). exact Hnd.
    + rewrite (setitem_None key r data E), map_app. simpl.
      apply NoDup_app. split; [exact Hnd|]. split; [|apply NoDup_singleton].
      intros x Hx Hx'. apply list_elem_of_singleton in Hx'. subst x.
      apply find_None_keys in E. contradiction.
  - clear Hnd. induction Hn as [|[k x] data Hx Hd IH]; simpl.
    + constructor; [exact Hk|constructor].
    + destruct (String.eqb_spec k key) as [->|N]; constructor; auto.
Qed.

Lemma mutate_keyed name o data : keyed data -> keyed (mutate name o data).
Proof.
  intros [Hnd Hn]. split; [rewrite mutate_keys; exact Hnd|].
  clear Hnd. induction Hn as [|[k x] data Hx Hd IH]; simpl; [constructor|].
  destruct (String.eqb k name); constructor; auto.
  simpl in *. rewrite step_name. exact Hx.
Qed.

Lemma delitem_keyed name data : keyed data -> keyed (delitem name data).
Proof.
  intros [Hnd Hn]. split; [apply delitem_keys_NoDup, Hnd|].
  rewrite Forall_forall in *. intros x Hx. apply Hn, (delitem_sublist name data), Hx.
Qed.

Lemma reachable_keyed data : reachable data -> keyed data.
Proof.
  induction 1 as [|name ops data _ IH|name data _ IH|name o data _ IH].
  - split; constructor.
  - apply setitem_keyed; [reflexivity|exact IH].
  - unfold delete. destruct (find name data); simpl; [|exact IH].
    apply delitem_keyed, IH.
  - apply mutate_keyed, IH.
Qed.

End DictFacts.

(** * More about the query *)

Module CalendarFacts.
Import Date Spec Props DateFacts OrdinalFacts WindowFacts SortFacts AddressBook.

(** After the move of [shift_weekend] the day is a working day. *)
Lemma shifted_weekday c cd :
  toordinal cd = toordinal c +
    (if weekday c =? 5 then 2 else if weekday c =? 6 then 1 else 0) ->
  0 <= weekday cd <= 4.
Proof.
  unfold weekday. intros H.
  destruct (Z.eqb_spec ((toordinal c + 6) mod 7) 5) as [E5|E5];
    [|destruct (Z.eqb_spec ((toordinal c + 6) mod 7) 6) as [E6|E6]];
    rewrite H; Z.div_mod_to_equations; lia.
Qed.

Lemma ltb_leb a b : ltb a b = true -> leb a b = true.
Proof. unfold leb. intros ->. reflexivity. Qed.

Lemma rolled_later today b : ltb today (rolled today b) = true.
Proof. apply ltb_iff. unfold rolled. simpl. lia. Qed.

(** Fixed-width decimal texts compare like the numbers. *)
Lemma ascii_compare_digit a b :
  Ascii.compare (Str.digit a) (Str.digit b) = (a mod 10 ?= b mod 10).
Proof.
  rewrite ascii_compare_N. fold (Str.ord (Str.digit a)) (Str.ord (Str.digit b)).
  rewrite !CharFacts.ord_digit.
  pose proof (Z.mod_pos_bound a 10 ltac:(lia)).
  pose proof (Z.mod_pos_bound b 10 ltac:(lia)).
  rewrite Z2N.inj_compare by lia.
  destruct (Z.compare_spec (a mod 10) (b mod 10));
    [apply Z.compare_eq_iff|apply Z.compare_lt_iff|apply Z.compare_gt_iff]; lia.
Qed.

Lemma compare_dd a b : 0 <= a <= 99 -> 0 <= b <= 99 ->
  String.compare (Str.dd a) (Str.dd b) = (a ?= b).
Proof.
  intros Ha Hb. unfold Str.dd. simpl. rewrite !ascii_compare_digit.
  destruct (Z.compare_spec ((a / 10) mod 10) ((b / 10) mod 10)) as [E|E|E];
    [destruct (Z.compare_spec (a mod 10) (b mod 10)) as [E'|E'|E']|..];
    symmetry;
    [apply Z.compare_eq_iff|apply Z.compare_lt_iff|apply Z.compare_gt_iff
    |apply Z.compare_lt_iff|apply Z.compare_gt_iff];
    Z.div_mod_to_equations; lia.
Qed.

Lemma compare_dddd a b : 0 <= a <= 9999 -> 0 <= b <= 9999 ->
  String.compare (Str.dddd a) (Str.dddd b) = (a ?= b).
Proof.
  intros Ha Hb. unfold Str.dddd.
  change (String.compare (String ?x (String ?y ?s)) (String ?x' (String ?y' ?s')))
    with (match Ascii.compare x x' with
          | Eq => match Ascii.compare y y' with
                  | Eq => String.compare s s'
                  | c => c
                  end
          | c => c
          end).
  rewrite !ascii_compare_digit.
  assert (String.compare (Str.dd a) (Str.dd b) = (a mod 100 ?= b mod 100)) as ->.
  { rewrite <- (compare_dd (a mod 100) (b mod 100))
      by (split; Z.div_mod_to_equations; lia).
    unfold Str.dd. simpl. rewrite !ascii_compare_digit.
    replace ((a mod 100 / 10) mod 10) with ((a / 10) mod 10)
      by (Z.div_mod_to_equations; lia).
    replace ((b mod 100 / 10) mod 10) with ((b / 10) mod 10)
      by (Z.div_mod_to_equations; lia).
    replace ((a mod 100) mod 10) with (a mod 10) by (Z.div_mod_to_equations; lia).
    replace ((b mod 100) mod 10) with (b mod 10) by (Z.div_mod_to_equations; lia).
    reflexivity. }
  destruct (Z.compare_spec ((a / 1000) mod 10) ((b / 1000) mod 10)) as [E|E|E];
    [destruct (Z.compare_spec ((a / 100) mod 10) ((b / 100) mod 10)) as [E'|E'|E'];
     [destruct (Z.compare_spec (a mod 100) (b mod 100)) as [E''|E''|E'']|..]|..];
    symmetry;
    [apply Z.compare_eq_iff|apply Z.compare_lt_iff|apply Z.compare_gt_iff
    |apply Z.compare_lt_iff|apply Z.compare_gt_iff
    |apply Z.compare_lt_iff|apply Z.compare_gt_iff];
    Z.div_mod_to_equations; lia.
Qed.

(** Comparison of two texts that begin with parts of one length. *)
Lemma compare_app s s' t t' :
  String.length s = String.length s' ->
  String.compare (s +:+ t) (s' +:+ t') =
  match String.compare s s' with
  | Eq => String.compare t t'
  | c => c
  end.
Proof.
  revert s'. induction s as [|a s IH]; intros [|a' s']; simpl; try discriminate.
  - reflexivity.
  - intros [= H]. change (String a s +:+ t) with (String a (s +:+ t)).
    change (String a' s' +:+ t') with (String a' (s' +:+ t')). simpl.
    destruct (Ascii.compare a a'); [apply IH, H|reflexivity..].
Qed.

(** From the year 1000 on the texts of [%Y-%m-%d] are ordered as the
    dates. *)
Lemma compare_iso a b : valid a = true -> valid b = true ->
  1000 <= year a -> 1000 <= year b ->
  String.compare (Strptime.strftime_iso a) (Strptime.strftime_iso b) =
  date_compare a b.
Proof.
  intros Ha Hb Ha4 Hb4. apply valid_fields in Ha, Hb.
  destruct Ha as (Hya & Hma & Hda), Hb as (Hyb & Hmb & Hdb).
  assert (day a <= 31 /\ day b <= 31) as [Hda' Hdb'].
  { unfold days_in_month in *.
    destruct a as [ya ma da], b as [yb mb db]. simpl in *.
    split.
    - destruct ((ma =? 2) && is_leap ya); [lia|].
      each_month ma Hma; simpl in *; lia.
    - destruct ((mb =? 2) && is_leap yb); [lia|].
      each_month mb Hmb; simpl in *; lia. }
  unfold Strptime.strftime_iso, date_compare.
  rewrite !FormatFacts.year_text by lia.
  rewrite compare_app by reflexivity.
  rewrite compare_dddd by lia.
  destruct (year a ?= year b); [|reflexivity..].
  rewrite (compare_app "-" "-") by reflexivity.
  change (String.compare "-" "-") with Eq. cbv iota.
  rewrite compare_app by reflexivity.
  rewrite compare_dd by lia.
  destruct (month a ?= month b); [|reflexivity..].
  rewrite (compare_app "-" "-") by reflexivity.
  change (String.compare "-" "-") with Eq. cbv iota.
  apply compare_dd; lia.
Qed.

Lemma date_compare_lt a b : date_compare a b = Lt <-> ltb a b = true.
Proof.
  rewrite ltb_iff. unfold date_compare.
  destruct (Z.compare_spec (year a) (year b));
    destruct (Z.compare_spec (month a) (month b));
    destruct (Z.compare_spec (day a) (day b));
    split; intros; try discriminate; try reflexivity; try lia.
Qed.

Lemma insert_sorted_length x l : length (insert_sorted x l) = S (length l).
Proof.
  induction l as [|y l IH]; simpl; [reflexivity|].
  destruct (key_ltb (key y) (key x)); simpl; [rewrite IH|]; reflexivity.
Qed.

Lemma sort_length l : length (sort l) = length l.
Proof.
  induction l as [|x l IH]; simpl; [reflexivity|].
  rewrite insert_sorted_length, IH. reflexivity.
Qed.

Lemma loop_length today end_date rs acc u :
  loop today end_date rs acc = Ok u -> (length u <= length acc + length rs)%nat.
Proof.
  revert acc. induction rs as [|r rs IH]; intros acc; simpl.
  - intros [= <-]. lia.
  - destruct (visit today end_date r) as [o|]; simpl; [|discriminate].
    intros H. apply IH in H. destruct o; rewrite ?length_app in H; simpl in H; lia.
Qed.

Lemma visit_Some today end_date r e :
  visit today end_date r = Ok (Some e) ->
  name e = Rec.name r /\ exists b, Rec.birthday r = Some b.
Proof.
  unfold visit. destruct (Rec.birthday r) as [b|]; [|discriminate].
  destruct (bday_this_year _ _ _) as [[t|]|]; simpl; try discriminate.
  destruct (candidate _ _ _ _) as [c|]; simpl; [|discriminate].
  destruct (leb today c && leb c end_date); [|discriminate].
  destruct (shift_weekend c); simpl; [|discriminate].
  intros [= <-]. simpl. eauto.
Qed.

End CalendarFacts.

(** * Splitting a line *)

Module SplitFacts.
Import Spec Props Str StrFacts Text.

Ltac each_char c := destruct c as [[] [] [] [] [] [] [] []].

Lemma isspace_lower c : isspace (lower_char c) = isspace c.
Proof. each_char c; reflexivity. Qed.

Lemma lower_char_idem c : lower_char (lower_char c) = lower_char c.
Proof. each_char c; reflexivity. Qed.

Lemma lower_idem s : lower (lower s) = lower s.
Proof.
  induction s as [|c s IH]; simpl; [reflexivity|].
  rewrite lower_char_idem, IH. reflexivity.
Qed.

Lemma lower_token w : token w -> token (lower w).
Proof.
  intros [Hne Hw]. split.
  - destruct w; [contradiction|discriminate].
  - clear Hne. induction w as [|c w IH]; simpl in *; [reflexivity|].
    apply andb_prop in Hw as [Hc Hw]. rewrite (IH Hw).
    unfold not_space in *. rewrite isspace_lower, Hc. reflexivity.
Qed.

Lemma token_cons c w :
  isspace c = false -> (w = EmptyString \/ token w) -> token (String c w).
Proof.
  intros Hc Hw. split; [discriminate|]. simpl. unfold not_space at 1.
  rewrite Hc. simpl. destruct Hw as [->|[_ Hw]]; [reflexivity|exact Hw].
Qed.

Lemma split_cons2 c a t :
  split (String c (String a t)) =
  if isspace c then split (String a t)
  else if isspace a then String c EmptyString :: split (String a t)
  else match split (String a t) with
       | w :: ws => String c w :: ws
       | [] => [String c EmptyString]
       end.
Proof. reflexivity. Qed.

(** Every piece [split] returns is a word. *)
Lemma split_tokens s : Forall token (split s).
Proof.
  induction s as [|c s IH]; simpl; [constructor|].
  destruct (isspace c) eqn:Hc; [exact IH|].
  destruct s as [|c' s'].
  - constructor; [apply token_cons; auto|constructor].
  - destruct (isspace c') eqn:Hc'.
    + constructor; [apply token_cons; auto|exact IH].
    + destruct (split (String c' s')) as [|w ws].
      * constructor; [apply token_cons; auto|constructor].
      * apply Forall_cons in IH as [Hw Hws].
        constructor; [apply token_cons; auto|exact Hws].
Qed.

Lemma split_nil s : split s = [] <-> blank s.
Proof.
  unfold blank. induction s as [|c s IH]; simpl; [tauto|].
  destruct (isspace c) eqn:Hc; simpl; [exact IH|].
  split; [|discriminate].
  destruct s as [|c' s']; [discriminate|].
  destruct (isspace c'); [discriminate|].
  destruct (split (String c' s')); discriminate.
Qed.

Lemma split_lstrip s : split (lstrip s) = split s.
Proof.
  induction s as [|c s IH]; simpl; [reflexivity|].
  destruct (isspace c) eqn:Hc; [exact IH|]. simpl. rewrite Hc. reflexivity.
Qed.

Lemma rstrip_empty s : rstrip s = EmptyString -> blank s.
Proof.
  unfold blank. induction s as [|c s IH]; simpl; [reflexivity|].
  destruct (rstrip s); [|discriminate].
  destruct (isspace c); [|discriminate]. intros _. apply IH. reflexivity.
Qed.

Lemma blank_head c s : blank (String c s) -> isspace c = true.
Proof. unfold blank. simpl. intros H. apply andb_prop in H as [H _]. exact H. Qed.

Lemma split_rstrip s : split (rstrip s) = split s.
Proof.
  induction s as [|c s IH]; [reflexivity|].
  simpl rstrip. destruct (rstrip s) as [|a t] eqn:E.
  - pose proof (rstrip_empty s E) as Hb.
    assert (split s = []) as Hs by (apply split_nil, Hb).
    simpl. destruct (isspace c) eqn:Hc; simpl; [symmetry; exact Hs|].
    rewrite Hc. destruct s as [|c' s']; [reflexivity|].
    rewrite (blank_head _ _ Hb), Hs. reflexivity.
  - destruct (rstrip_head s a t E) as [t' ->].
    rewrite (split_cons2 c a t), (split_cons2 c a t'), IH. reflexivity.
Qed.

(** Stripping first makes no difference to [split]. *)
Lemma split_strip s : split (strip s) = split s.
Proof. unfold strip. rewrite split_rstrip. apply split_lstrip. Qed.

Lemma split_token_space w sp s :
  token w -> isspace sp = true -> split (w +:+ String sp s) = w :: split s.
Proof.
  intros [Hne Hw] Hsp. induction w as [|c w IH]; [contradiction|].
  simpl in Hw. apply andb_prop in Hw as [Hc Hw].
  unfold not_space in Hc. apply negb_true_iff in Hc.
  change (String c w +:+ String sp s) with (String c (w +:+ String sp s)).
  destruct w as [|c' w'].
  - change (EmptyString +:+ String sp s) with (String sp s).
    simpl. rewrite Hc, Hsp. reflexivity.
  - assert (isspace c' = false) as Hc'.
    { simpl in Hw. apply andb_prop in Hw as [Hc' _].
      unfold not_space in Hc'. apply negb_true_iff in Hc'. exact Hc'. }
    specialize (IH ltac:(discriminate) Hw).
    change (String c' w' +:+ String sp s) with (String c' (w' +:+ String sp s)) in *.
    rewrite split_cons2, Hc, Hc', IH. reflexivity.
Qed.

Lemma split_token w : token w -> split w = [w].
Proof.
  intros [Hne Hw]. induction w as [|c w IH]; [contradiction|].
  simpl in Hw. apply andb_prop in Hw as [Hc Hw].
  unfold not_space in Hc. apply negb_true_iff in Hc.
  destruct w as [|c' w']; [simpl; rewrite Hc; reflexivity|].
  assert (isspace c' = false) as Hc'.
  { simpl in Hw. apply andb_prop in Hw as [Hc' _].
    unfold not_space in Hc'. apply negb_true_iff in Hc'. exact Hc'. }
  rewrite split_cons2, Hc, Hc', (IH ltac:(discriminate) Hw). reflexivity.
Qed.

(** Words joined by single spaces are split into the same words. *)
Lemma split_join ws : Forall token ws -> split (join " " ws) = ws.
Proof.
  induction 1 as [|w ws Hw Hws IH]; [reflexivity|].
  destruct ws as [|w' ws']; [apply split_token, Hw|].
  change (join " " (w :: w' :: ws')) with (w +:+ String " " (join " " (w' :: ws'))).
  rewrite split_token_space by (assumption || reflexivity).
  rewrite IH. reflexivity.
Qed.

End SplitFacts.

(** * The handlers *)

Module CliFacts.
Import Spec Props AddressBook DictFacts Cli.

Lemma input_error_book func args book :
  snd (input_error func args book) = snd (func args book).
Proof.
  unfold input_error. destruct (func args book) as [[answer|[msg|msg]] book'];
    reflexivity.
Qed.

Lemma call_step {A} name (method : Rec.record -> result A * Rec.record) record book :
  call name method record book =
    (fst (method record), snd (method record),
     setitem name (snd (method record)) book).
Proof. unfold call. destruct (method record). reflexivity. Qed.

Lemma find_add_init name book :
  find name (add_record (Rec.init name) book) = Some (Rec.init name).
Proof.
  unfold add_record. simpl. rewrite find_setitem, String.eqb_refl. reflexivity.
Qed.

Lemma reachable_add_init name book :
  reachable book -> reachable (add_record (Rec.init name) book).
Proof. intros H. exact (reach_add name [] book H). Qed.

(** What a method call on the record under [name] does to the book. *)
Lemma reachable_call name o record book :
  reachable book -> find name book = Some record ->
  reachable (setitem name (Rec.step record o) book).
Proof.
  intros Hb Hf. rewrite (setitem_mutate name o record book Hf).
  apply reach_mutate, Hb.
Qed.

Lemma add_contact_reachable args book :
  reachable book -> reachable (snd (add_contact_body args book)).
Proof.
  intros Hb. unfold add_contact_body.
  destruct args as [|name [|phone rest]]; try exact Hb.
  destruct (find name book) as [record|] eqn:Hf.
  - destruct (truthy phone); [|exact Hb].
    rewrite call_step.
    assert (reachable (setitem name (snd (Rec.add_phone phone record)) book)) as Hr
      by apply (reachable_call name (Rec.AddPhone phone) record book Hb Hf).
    destruct (fst (Rec.add_phone phone record)); exact Hr.
  - pose proof (reachable_add_init name book Hb) as Hb'.
    destruct (truthy phone); [|exact Hb'].
    rewrite call_step.
    assert (reachable (setitem name (snd (Rec.add_phone phone (Rec.init name)))
              (add_record (Rec.init name) book))) as Hr
      by apply (reachable_call name (Rec.AddPhone phone) _ _ Hb' (find_add_init name book)).
    destruct (fst (Rec.add_phone phone (Rec.init name))); exact Hr.
Qed.

Lemma change_phone_reachable args book :
  reachable book -> reachable (snd (change_phone_body args book)).
Proof.
  intros Hb. unfold change_phone_body.
  destruct args as [|name [|old [|new rest]]]; try exact Hb.
  destruct (find name book) as [record|] eqn:Hf; [|exact Hb].
  rewrite call_step.
  assert (reachable (setitem name (snd (Rec.edit_phone old new record)) book)) as Hr
    by apply (reachable_call name (Rec.EditPhone old new) record book Hb Hf).
  destruct (fst (Rec.edit_phone old new record)) as [[|]|]; exact Hr.
Qed.

Lemma add_birthday_reachable args book :
  reachable book -> reachable (snd (add_birthday_body args book)).
Proof.
  intros Hb. unfold add_birthday_body.
  destruct args as [|name [|s rest]]; try exact Hb.
  destruct (find name book) as [record|] eqn:Hf; [|exact Hb].
  rewrite call_step.
  assert (reachable (setitem name (snd (Rec.add_birthday s record)) book)) as Hr
    by apply (reachable_call name (Rec.AddBirthday s) record book Hb Hf).
  destruct (fst (Rec.add_birthday s record)); exact Hr.
Qed.

Lemma show_phones_book args book : snd (show_phones_body args book) = book.
Proof.
  unfold show_phones_body. destruct args as [|name rest]; [reflexivity|].
  destruct (find name book) as [record|]; [|reflexivity].
  destruct (Rec.phones record); reflexivity.
Qed.

Lemma show_all_book args book : snd (show_all_body args book) = book.
Proof. unfold show_all_body. destruct book; reflexivity. Qed.

Lemma show_birthday_book args book : snd (show_birthday_body args book) = book.
Proof.
  unfold show_birthday_body. destruct args as [|name rest]; [reflexivity|].
  destruct (find name book) as [record|]; [|reflexivity].
  destruct (Rec.birthday record); reflexivity.
Qed.

Lemma birthdays_book today args book : snd (birthdays_body today args book) = book.
Proof.
  unfold birthdays_body.
  destruct (get_upcoming_birthdays today book) as [[|e es]|]; reflexivity.
Qed.

Lemma turn_reachable today user_input book :
  reachable book -> reachable (snd (fst (turn today user_input book))).
Proof.
  intros Hb. unfold turn. destruct (parse_input user_input) as [command args].
  repeat match goal with
  | |- context [if ?c then _ else _] => destruct c
  end; simpl; try exact Hb.
  - unfold add_contact. rewrite input_error_book. apply add_contact_reachable, Hb.
  - unfold change_phone. rewrite input_error_book. apply change_phone_reachable, Hb.
  - unfold show_phones. rewrite input_error_book, show_phones_book. exact Hb.
  - unfold show_all. rewrite input_error_book, show_all_book. exact Hb.
  - unfold add_birthday. rewrite input_error_book. apply add_birthday_reachable, Hb.
  - unfold show_birthday. rewrite input_error_book, show_birthday_book. exact Hb.
  - unfold birthdays. rewrite input_error_book, birthdays_book. exact Hb.
Qed.

Lemma session_reachable today lines book :
  reachable book -> reachable (snd (session today lines book)).
Proof.
  revert book. induction lines as [|l lines IH]; intros book Hb; simpl; [exact Hb|].
  pose proof (turn_reachable today l book Hb) as Ht.
  destruct (turn today l book) as [[printed book'] go_on]. simpl in Ht.
  destruct go_on; [|exact Ht].
  specialize (IH book' Ht). destruct (session today lines book'). exact IH.
Qed.

Lemma set_phones_same (r : Rec.record) : Rec.set_phones r (Rec.phones r) = r.
Proof. destruct r. reflexivity. Qed.

End CliFacts.

(** * The lines of [birthdays] *)

Module GroupFacts.
Import Spec Props AddressBook SortFacts Text Cli.

Lemma str_lt_irrefl a : ~ str_lt a a.
Proof. unfold str_lt. rewrite ltb_irrefl. discriminate. Qed.

Lemma str_lt_le a b : str_lt a b -> str_le a b.
Proof. unfold str_lt, str_le. rewrite ltb_lt, leb_cases. auto. Qed.

Lemma str_le_not_lt a b : str_le a b -> String.ltb b a = false.
Proof.
  unfold str_le, String.leb, String.ltb. rewrite (String.compare_antisym b a).
  destruct (String.compare a b); simpl; congruence.
Qed.

Lemma insert_least x l : Forall (str_le x) l -> insert x l = x :: l.
Proof.
  destruct 1 as [|y l Hy _]; simpl; [reflexivity|].
  rewrite (str_le_not_lt x y Hy). reflexivity.
Qed.

(** Sorting a list that is in order returns it. *)
Lemma sorted_id l : StronglySorted str_le l -> sorted l = l.
Proof.
  induction 1 as [|x l Hl IH Hx]; simpl; [reflexivity|].
  rewrite IH. apply insert_least, Hx.
Qed.

Lemma StronglySorted_snoc {A} (R : A -> A -> Prop) l x :
  StronglySorted R l -> Forall (fun y => R y x) l -> StronglySorted R (l ++ [x]).
Proof.
  induction 1 as [|y l Hl IH Hy]; intros Hx; simpl.
  - repeat constructor.
  - apply Forall_cons in Hx as [Hyx Hx]. constructor; [apply IH, Hx|].
    apply Forall_app. split; [exact Hy|]. constructor; [exact Hyx|constructor].
Qed.

Lemma setdefault_append_keys day name grouped k :
  k ∈ map fst (setdefault_append day name grouped) ->
  k = day \/ k ∈ map fst grouped.
Proof.
  induction grouped as [|[k' ns] g IH]; simpl.
  - intros H. apply list_elem_of_singleton in H. auto.
  - destruct (String.eqb k' day); simpl; rewrite !elem_of_cons; [auto|].
    intros [->|H]; [auto|]. destruct (IH H); auto.
Qed.

Lemma entry_eta e : mk_entry (name e) (congratulation_date e) = e.
Proof. destruct e. reflexivity. Qed.

(** One entry more keeps the promise of the groups. *)
Lemma group_ok_step e rest grouped :
  StronglySorted key_le (e :: rest) -> group_ok (e :: rest) grouped ->
  group_ok rest (setdefault_append (congratulation_date e) (name e) grouped).
Proof.
  intros He. apply StronglySorted_inv in He as [_ He].
  assert (Forall (key_le (mk_entry (name e) (congratulation_date e))) rest) as He'
    by (rewrite entry_eta; exact He).
  clear He.
  induction grouped as [|[k ns] g IH]; intros [Hk Hg]; simpl.
  - split; [repeat constructor|].
    constructor; [|constructor]. simpl.
    split; [discriminate|]. split; [repeat constructor|].
    constructor; [exact He'|constructor].
  - simpl in Hk. apply StronglySorted_inv in Hk as [Hk Hkg].
    apply Forall_cons in Hg as [(Hne & Hns & Hrest) Hg]. simpl in *.
    assert (forall kn,
              (snd kn <> [] /\ StronglySorted str_le (snd kn) /\
               Forall (fun n => Forall (key_le (mk_entry n (fst kn))) (e :: rest))
                 (snd kn)) ->
              (snd kn <> [] /\ StronglySorted str_le (snd kn) /\
               Forall (fun n => Forall (key_le (mk_entry n (fst kn))) rest) (snd kn)))
      as Hweak.
    { intros kn (H1 & H2 & H3). split; [exact H1|]. split; [exact H2|].
      eapply Forall_impl; [exact H3|]. intros n Hn.
      apply Forall_cons in Hn as [_ Hn]. exact Hn. }
    destruct (String.eqb_spec k (congratulation_date e)) as [Ekd|Nkd].
    + subst k. split; [simpl; constructor; assumption|].
      constructor; [|eapply Forall_impl; [exact Hg|exact Hweak]]. simpl.
      split; [destruct ns; discriminate|]. split.
      * apply StronglySorted_snoc; [exact Hns|].
        eapply Forall_impl; [exact Hrest|]. intros n Hn.
        apply Forall_cons in Hn as [[Hlt|[_ Hle]] _]; simpl in *.
        -- rewrite ltb_irrefl in Hlt. discriminate.
        -- exact Hle.
      * apply Forall_app. split.
        -- eapply Forall_impl; [exact Hrest|]. intros n Hn.
           apply Forall_cons in Hn as [_ Hn]. exact Hn.
        -- constructor; [exact He'|constructor].
    + destruct (IH (conj Hk Hg)) as [Hk' Hg'].
      split.
      * simpl. constructor; [exact Hk'|].
        apply Forall_forall. intros k' Hin.
        apply setdefault_append_keys in Hin as [->|Hin].
        -- destruct ns as [|n ns']; [contradiction|].
           apply Forall_cons in Hrest as [Hn _].
           apply Forall_cons in Hn as [[Hlt|[Heq _]] _]; simpl in *;
             [exact Hlt|contradiction].
        -- rewrite Forall_forall in Hkg. apply Hkg, Hin.
      * constructor; [|exact Hg']. apply (Hweak (k, ns)). auto.
Qed.

Lemma group_ok_fold rest grouped :
  StronglySorted key_le rest -> group_ok rest grouped ->
  group_ok []
    (fold_left
       (fun grouped item =>
          setdefault_append (congratulation_date item) (name item) grouped)
       rest grouped).
Proof.
  revert grouped. induction rest as [|e rest IH]; intros grouped Hs Hg; simpl.
  - exact Hg.
  - apply IH.
    + apply StronglySorted_inv in Hs as [Hs _]. exact Hs.
    + apply group_ok_step; assumption.
Qed.

Lemma group_ok_group es : StronglySorted key_le es -> group_ok [] (group es).
Proof.
  intros Hs. apply group_ok_fold; [exact Hs|]. split; constructor.
Qed.

(** With distinct keys a group is found under its key. *)
Lemma getitem_elem grouped k ns :
  StronglySorted str_lt (map fst grouped) -> (k, ns) ∈ grouped ->
  getitem k grouped = ns.
Proof.
  induction grouped as [|[k' ns'] g IH]; simpl; intros Hs Hin.
  - apply elem_of_nil in Hin. contradiction.
  - apply StronglySorted_inv in Hs as [Hs Hk].
    apply elem_of_cons in Hin as [[= -> ->]|Hin].
    + rewrite String.eqb_refl. reflexivity.
    + destruct (String.eqb_spec k' k) as [E|N]; [|apply IH; assumption].
      subst k'. exfalso. rewrite Forall_forall in Hk.
      apply (str_lt_irrefl k), Hk.
      apply list_elem_of_fmap. exists (k, ns). auto.
Qed.

(** On groups that keep their promise the two sorts of [birthdays]
    change nothing. *)
Lemma lines_unsorted grouped :
  group_ok [] grouped ->
  map (day_line grouped) (sorted (map fst grouped)) = map group_line grouped.
Proof.
  intros [Hk Hg]. rewrite sorted_id.
  - rewrite map_map. apply map_ext_in. intros [k ns] Hin.
    unfold day_line, group_line. simpl.
    apply list_elem_of_In in Hin.
    rewrite (getitem_elem grouped k ns Hk Hin).
    rewrite Forall_forall in Hg. destruct (Hg _ Hin) as (_ & Hns & _).
    simpl in Hns. rewrite (sorted_id ns Hns). reflexivity.
  - clear Hg. induction Hk as [|k l Hl IH Hkl]; constructor; [exact IH|].
    eapply Forall_impl; [exact Hkl|]. intros k'. apply str_lt_le.
Qed.

(** Every entry is listed in the group of its date. *)
Lemma setdefault_append_elem day nm grouped :
  exists ns, (day, ns) ∈ setdefault_append day nm grouped /\ nm ∈ ns.
Proof.
  induction grouped as [|[k ns] g IH]; simpl.
  - exists [nm]. split; left.
  - destruct (String.eqb_spec k day) as [->|N].
    + exists (ns ++ [nm]). split; [left|]. apply elem_of_app. right. left.
    + destruct IH as (ns' & Hin & Hn). exists ns'. split; [right; exact Hin|exact Hn].
Qed.

Lemma setdefault_append_keeps day nm grouped k ns n :
  (k, ns) ∈ grouped -> n ∈ ns ->
  exists ns', (k, ns') ∈ setdefault_append day nm grouped /\ n ∈ ns'.
Proof.
  induction grouped as [|[k' ns0] g IH]; simpl; intros Hin Hn.
  - apply elem_of_nil in Hin. contradiction.
  - apply elem_of_cons in Hin as [[= -> ->]|Hin].
    + destruct (String.eqb k' day).
      * exists (ns0 ++ [nm]). split; [left|]. apply elem_of_app. left. exact Hn.
      * exists ns0. split; [left|exact Hn].
    + destruct (String.eqb k' day).
      * exists ns. split; [right; exact Hin|exact Hn].
      * destruct (IH Hin Hn) as (ns' & H1 & H2). exists ns'.
        split; [right; exact H1|exact H2].
Qed.

Lemma group_elem es e :
  e ∈ es -> exists ns, (congratulation_date e, ns) ∈ group es /\ name e ∈ ns.
Proof.
  unfold group. intros Hin.
  assert (forall g,
            (e ∈ es \/ exists ns, (congratulation_date e, ns) ∈ g /\ name e ∈ ns) ->
            exists ns,
              (congratulation_date e, ns) ∈
                fold_left
                  (fun grouped item =>
                     setdefault_append (congratulation_date item) (name item) grouped)
                  es g /\ name e ∈ ns) as H.
  { clear Hin. induction es as [|x es IH]; intros g [Hin|Hg]; simpl.
    - apply elem_of_nil in Hin. contradiction.
    - exact Hg.
    - apply elem_of_cons in Hin as [->|Hin].
      + apply IH. right. apply setdefault_append_elem.
      + apply IH. left. exact Hin.
    - apply IH. right. destruct Hg as (ns & H1 & H2).
      eapply setdefault_append_keeps; eassumption. }
  apply H. left. exact Hin.
Qed.

End GroupFacts.

Module ResultFacts.
Import Date Spec Props DateFacts WindowFacts SortFacts DictFacts CalendarFacts
  AddressBook.

Lemma friends_reachable : reachable Inputs.friends.
Proof.
  apply (reach_add "Bob" [Rec.AddBirthday "08.01.2000"]).
  apply (reach_add "Alice" [Rec.AddBirthday "06.01.1990"]).
  apply reach_empty.
Qed.

Lemma find_elem_NoDup k r data :
  NoDup (map fst data) -> (k, r) ∈ data -> find k data = Some r.
Proof.
  induction data as [|[k' r'] data IH]; simpl; intros Hnd Hin.
  - apply elem_of_nil in Hin. contradiction.
  - apply NoDup_cons in Hnd as [Hk Hnd].
    apply elem_of_cons in Hin as [E|Hin].
    + inversion E; subst. rewrite String.eqb_refl. reflexivity.
    + destruct (String.eqb_spec k' k) as [E|N].
      * subst. exfalso. apply Hk. apply list_elem_of_fmap.
        exists (k, r). split; [reflexivity|exact Hin].
      * apply IH; assumption.
Qed.

Lemma values_find data r :
  keyed data -> r ∈ values data -> find (Rec.name r) data = Some r.
Proof.
  intros [Hnd Hk] Hin. unfold values in Hin.
  apply list_elem_of_fmap in Hin as ([k r'] & -> & Hin). simpl.
  rewrite Forall_forall in Hk. pose proof (Hk _ Hin) as E. simpl in E. subst k.
  apply find_elem_NoDup; assumption.
Qed.

Lemma insert_sorted_Permutation x l : insert_sorted x l ≡ₚ x :: l.
Proof.
  induction l as [|y l IH]; simpl; [reflexivity|].
  destruct (key_ltb (key y) (key x)); [|reflexivity].
  rewrite IH. apply Permutation_swap.
Qed.

Lemma sort_Permutation l : sort l ≡ₚ l.
Proof.
  induction l as [|x l IH]; simpl; [reflexivity|].
  rewrite insert_sorted_Permutation, IH. reflexivity.
Qed.

Lemma key_le_antisym a b : key_le a b -> key_le b a -> a = b.
Proof.
  destruct a as [na da], b as [nb db]. unfold key_le. simpl.
  intros [H1|[E1 H1]] [H2|[E2 H2]].
  - apply ltb_lt in H1, H2.
    pose proof (string_compare_lt_trans _ _ _ H1 H2) as H.
    rewrite string_compare_refl in H. discriminate.
  - subst. rewrite ltb_irrefl in H1. discriminate.
  - subst. rewrite ltb_irrefl in H2. discriminate.
  - subst. f_equal. apply leb_cases in H1, H2.
    destruct H1 as [H1|H1]; [|exact H1]. destruct H2 as [H2|H2]; [|symmetry; exact H2].
    pose proof (string_compare_lt_trans _ _ _ H1 H2) as H.
    rewrite string_compare_refl in H. discriminate.
Qed.

Lemma sorted_unique l l' :
  StronglySorted key_le l -> StronglySorted key_le l' -> l ≡ₚ l' -> l = l'.
Proof.
  revert l'. induction l as [|a l IH]; intros l' Hl Hl' Hp.
  - apply Permutation_nil_l in Hp. exact Hp.
  - destruct l' as [|a' l'].
    + apply Permutation_nil_r in Hp. discriminate.
    + apply StronglySorted_inv in Hl as [Hl Ha].
      apply StronglySorted_inv in Hl' as [Hl' Ha'].
      rewrite Forall_forall in Ha, Ha'.
      assert (a = a') as ->.
      { assert (a ∈ a' :: l') as H1 by (rewrite <- Hp; left).
        assert (a' ∈ a :: l) as H2 by (rewrite Hp; left).
        apply elem_of_cons in H1 as [H1|H1]; [exact H1|].
        apply elem_of_cons in H2 as [H2|H2]; [symmetry; exact H2|].
        apply key_le_antisym; [apply Ha, H2|apply Ha', H1]. }
      f_equal. apply IH; [assumption..|].
      apply Permutation_cons_inv in Hp. exact Hp.
Qed.

Lemma appended_name today end_date r e :
  appended today end_date r = Some e -> name e = Rec.name r.
Proof.
  unfold appended.
  destruct (visit today end_date r) as [o|] eqn:E; [|discriminate].
  intros ->. apply visit_Some in E as [E _]. exact E.
Qed.

Lemma appended_names today end_date rs n :
  n ∈ map name (omap (appended today end_date) rs) -> n ∈ map Rec.name rs.
Proof.
  intros H. apply list_elem_of_fmap in H as (e & -> & H).
  apply list_elem_of_omap in H as (r & Hr & He).
  apply list_elem_of_fmap. exists r. split; [|exact Hr].
  apply (appended_name _ _ _ _ He).
Qed.

Lemma appended_NoDup today end_date rs :
  NoDup (map Rec.name rs) -> NoDup (map name (omap (appended today end_date) rs)).
Proof.
  induction rs as [|r rs IH]; simpl; intros Hnd; [constructor|].
  apply NoDup_cons in Hnd as [Hr Hnd].
  destruct (appended today end_date r) as [e|] eqn:E; [|apply IH, Hnd].
  simpl. apply NoDup_cons. split; [|apply IH, Hnd].
  intros Hin. apply appended_names in Hin.
  rewrite (appended_name _ _ _ _ E) in Hin. exact (Hr Hin).
Qed.

Lemma loop_NoDup today end_date rs acc u :
  loop today end_date rs acc = Ok u ->
  NoDup (map name acc ++ map Rec.name rs) -> NoDup (map name u).
Proof.
  revert acc. induction rs as [|r rs IH]; simpl; intros acc Hl Hnd.
  - injection Hl as <-. rewrite app_nil_r in Hnd. exact Hnd.
  - destruct (visit today end_date r) as [[e|]|] eqn:E; simpl in Hl;
      [| |discriminate].
    + apply (IH _ Hl). apply visit_Some in E as [E _].
      rewrite map_app, <- app_assoc. simpl. rewrite E. exact Hnd.
    + apply (IH _ Hl). rewrite <- Permutation_middle in Hnd.
      apply NoDup_cons in Hnd as [_ Hnd]. exact Hnd.
Qed.

Lemma keyed_names data : keyed data -> map Rec.name (values data) = map fst data.
Proof.
  intros [_ Hk]. unfold values. induction Hk as [|[k r] data E _ IH]; simpl.
  - reflexivity.
  - simpl in E. rewrite E, IH. reflexivity.
Qed.

End ResultFacts.

(** * The handlers *)

Module HandlerFacts.
Import Spec Props DictFacts CliFacts AddressBook Cli.

Lemma setitem_setitem key r r' data :
  setitem key r' (setitem key r data) = setitem key r' data.
Proof.
  induction data as [|[k x] data IH]; simpl.
  - rewrite String.eqb_refl. reflexivity.
  - destruct (String.eqb k key) eqn:E; simpl; rewrite E; [reflexivity|].
    rewrite IH. reflexivity.
Qed.

Lemma add_init_None name book :
  find name book = None ->
  add_record (Rec.init name) book = book ++ [(name, Rec.init name)].
Proof. intros H. apply (setitem_None name _ _ H). Qed.

Lemma setitem_last name r r' book :
  find name book = None ->
  setitem name r' (book ++ [(name, r)]) = book ++ [(name, r')].
Proof.
  intros H. rewrite <- (setitem_None name r book H), setitem_setitem.
  apply setitem_None, H.
Qed.

Lemma delitem_last name r book :
  find name book = None -> delitem name (book ++ [(name, r)]) = book.
Proof.
  induction book as [|[k x] book IH]; simpl.
  - rewrite String.eqb_refl. reflexivity.
  - destruct (String.eqb k name); [discriminate|].
    intros H. rewrite (IH H). reflexivity.
Qed.

Lemma unpack_message_eq n args : unpack_error n args = ValueError (unpack_message n args).
Proof. reflexivity. Qed.

Lemma truthy_iff s : truthy s = true <-> s <> EmptyString.
Proof. destruct s; simpl; split; congruence. Qed.

Lemma strip_empty : Str.strip EmptyString = EmptyString.
Proof. reflexivity. Qed.

Lemma snoc_not_nil (l : list string) x : l ++ [x] <> [].
Proof. destruct l; discriminate. Qed.

Lemma phone_rule_truthy phone : phone_rule (Str.strip phone) -> truthy phone = true.
Proof.
  intros [_ R]. apply truthy_iff. intros ->. discriminate R.
Qed.

(** [add_contact] with a phone that passes the phone rule. *)
Lemma add_contact_valid name phone rest book :
  phone_rule (Str.strip phone) ->
  add_contact (name :: phone :: rest) book =
    (match find name book with
     | Some _ => "Contact updated."
     | None => "Contact added."
     end,
     setitem name
       (Rec.set_phones (default (Rec.init name) (find name book))
          (Rec.phones (default (Rec.init name) (find name book)) ++ [Str.strip phone]))
       book).
Proof.
  intros R. unfold add_contact, input_error, add_contact_body.
  rewrite (phone_rule_truthy phone R).
  destruct (find name book) as [record|] eqn:Hf; rewrite call_step;
    unfold Rec.add_phone, Phone.init;
    rewrite (PhoneFacts.value_setter_ok phone R); simpl; [reflexivity|].
  unfold add_record. simpl. rewrite setitem_setitem. reflexivity.
Qed.

Lemma stopping_iff command :
  command ∈ stopping <->
  String.eqb command "close" || String.eqb command "exit" = true.
Proof.
  unfold stopping. rewrite !elem_of_cons, elem_of_nil, orb_true_iff.
  rewrite !String.eqb_eq. tauto.
Qed.

Lemma turn_stop today user_input book :
  fst (parse_input user_input) ∈ stopping ->
  turn today user_input book = ("Good bye!", book, false).
Proof.
  unfold turn. destruct (parse_input user_input) as [command args]. simpl.
  intros H. apply stopping_iff in H. rewrite H. reflexivity.
Qed.

Lemma turn_go_on today user_input book :
  (fst (parse_input user_input) ∉ stopping) ->
  snd (turn today user_input book) = true.
Proof.
  unfold turn. destruct (parse_input user_input) as [command args]. simpl.
  intros H. rewrite stopping_iff in H.
  destruct (String.eqb command "close" || String.eqb command "exit");
    [contradiction H; reflexivity|].
  repeat match goal with
  | |- context [if ?c then _ else _] => destruct c
  end; reflexivity.
Qed.

End HandlerFacts.

(** * Further properties of the code *)

(** X1.  After [add_record] the record is found under its name, and
    the lookup of every other name is as before. *)
Theorem X1_find_add_record record data k :
  AddressBook.find k (AddressBook.add_record record data) =
    if String.eqb k (Rec.name record) then Some record else AddressBook.find k data.
Proof. apply DictFacts.find_setitem. Qed.

(** X2.  [delete] on a book the operations produced: it answers
    whether the name was there; afterwards the name is not found, the
    other names are found as before, and the book is one entry shorter
    or, when the name was not there, unchanged. *)
Theorem X2_delete name data :
  AddressBook.reachable data ->
  (fst (AddressBook.delete name data) = true <->
   exists r, AddressBook.find name data = Some r) /\
  AddressBook.find name (snd (AddressBook.delete name data)) = None /\
  (forall k, k <> name ->
     AddressBook.find k (snd (AddressBook.delete name data)) = AddressBook.find k data) /\
  (fst (AddressBook.delete name data) = false ->
   snd (AddressBook.delete name data) = data) /\
  (fst (AddressBook.delete name data) = true ->
   S (length (snd (AddressBook.delete name data))) = length data).
Proof.
  intros Hr. apply DictFacts.reachable_keyed in Hr as [Hnd _].
  unfold AddressBook.delete.
  destruct (AddressBook.find name data) as [r|] eqn:E; simpl.
  - split; [split; eauto|].
    split; [rewrite DictFacts.find_delitem, String.eqb_refl by exact Hnd; reflexivity|].
    split.
    + intros k Hk. rewrite DictFacts.find_delitem by exact Hnd.
      destruct (String.eqb_spec k name); [contradiction|reflexivity].
    + split; [discriminate|]. intros _. apply (DictFacts.delitem_length name data r E).
  - split; [split; [discriminate|intros [r H]; discriminate]|].
    split; [exact E|]. split; [reflexivity|]. split; [reflexivity|discriminate].
Qed.

Lemma X2_delete_witness :
  AddressBook.reachable Inputs.friends /\
  AddressBook.delete "Alice" Inputs.friends = (true, Sample.book_of [Sample.bob]) /\
  AddressBook.find "Alice" (snd (AddressBook.delete "Alice" Inputs.friends)) = None.
Proof.
  split; [exact ResultFacts.friends_reachable|]. split; [vm_compute; reflexivity|].
  exact (proj1 (proj2 (X2_delete "Alice" Inputs.friends ResultFacts.friends_reachable))).
Defined.

(** X3.  In every book the operations produce the keys are distinct
    and each key is the name of the record stored under it. *)
Theorem X3_keys data :
  AddressBook.reachable data ->
  NoDup (map fst data) /\ Forall (fun kr => fst kr = Rec.name (snd kr)) data.
Proof. apply DictFacts.reachable_keyed. Qed.

Lemma X3_keys_witness :
  AddressBook.reachable Inputs.friends /\
  NoDup (map fst Inputs.friends) /\
  Forall (fun kr => fst kr = Rec.name (snd kr)) Inputs.friends.
Proof.
  split; [exact ResultFacts.friends_reachable|].
  exact (X3_keys Inputs.friends ResultFacts.friends_reachable).
Defined.

(** X4.  [add_record] keeps the order of the names: a record whose
    name is already a key replaces the old one in place, and a new
    name goes to the end. *)
Theorem X4_add_record_keys record data :
  map fst (AddressBook.add_record record data) =
    match AddressBook.find (Rec.name record) data with
    | Some _ => map fst data
    | None => map fst data ++ [Rec.name record]
    end.
Proof.
  unfold AddressBook.add_record.
  destruct (AddressBook.find (Rec.name record) data) as [r|] eqn:E.
  - apply (DictFacts.setitem_keys _ _ r), E.
  - rewrite (DictFacts.setitem_None _ _ _ E), map_app. reflexivity.
Qed.

(** X5.  [remove_phone] without a stored phone equal to the argument
    returns [False] and changes nothing; otherwise it returns [True]
    and leaves a record whose phone list lacks the first phone equal
    to the argument and holds the others in their order, the name and
    the birthday being kept. *)
Theorem X5_remove_phone phone (self : Rec.record) :
  ((phone ∉ Rec.phones self) /\ Rec.remove_phone phone self = (Ok false, self)) \/
  (exists l1 l2,
     Rec.phones self = l1 ++ phone :: l2 /\ (phone ∉ l1) /\
     fst (Rec.remove_phone phone self) = Ok true /\
     Rec.phones (snd (Rec.remove_phone phone self)) = l1 ++ l2 /\
     Rec.name (snd (Rec.remove_phone phone self)) = Rec.name self /\
     Rec.birthday (snd (Rec.remove_phone phone self)) = Rec.birthday self).
Proof.
  unfold Rec.remove_phone.
  destruct (Rec.find_phone phone self) as [[i p]|] eqn:E.
  - right. apply RecFacts.find_phone_Some in E as (-> & Hi & Hj).
    exists (take i (Rec.phones self)), (drop (S i) (Rec.phones self)).
    split; [symmetry; apply take_drop_middle, Hi|].
    split.
    + intros Hin. apply elem_of_take in Hin as (j & Hjp & Hlt).
      exact (Hj j Hlt Hjp).
    + simpl. rewrite delete_take_drop. repeat split.
  - left. split; [apply RecFacts.find_phone_None, E|reflexivity].
Qed.

Lemma X5_remove_phone_witness :
  Rec.phones Inputs.twice = ["1111111111"; "0123456789"; "1111111111"] /\
  fst (Rec.remove_phone "1111111111" Inputs.twice) = Ok true /\
  Rec.phones (snd (Rec.remove_phone "1111111111" Inputs.twice)) =
    ["0123456789"; "1111111111"].
Proof.
  split; [reflexivity|].
  destruct (X5_remove_phone "1111111111" Inputs.twice)
    as [[Hn _]|(l1 & l2 & Hl & Hn & Hfst & Hph & _)].
  - exfalso. apply Hn. left.
  - split; [exact Hfst|]. rewrite Hph.
    destruct l1 as [|x l1].
    + injection Hl as <-. reflexivity.
    + exfalso. apply Hn. injection Hl as <- _. left.
Defined.

(** X6.  Removing a phone that was just added, and was not stored
    before, gives the record back as it was. *)
Theorem X6_remove_after_add p (self : Rec.record) :
  Spec.phone_rule (Str.strip p) -> (Str.strip p ∉ Rec.phones self) ->
  Rec.remove_phone (Str.strip p) (snd (Rec.add_phone p self)) = (Ok true, self).
Proof.
  intros R Hnot. unfold Rec.add_phone, Phone.init.
  rewrite (PhoneFacts.value_setter_ok p R). simpl.
  unfold Rec.remove_phone.
  destruct (Rec.find_phone (Str.strip p)
              (Rec.set_phones self (Rec.phones self ++ [Str.strip p])))
    as [[i x]|] eqn:E.
  - apply RecFacts.find_phone_Some in E as (_ & Hi & _). simpl in Hi.
    apply lookup_app_Some in Hi as [Hi|[Hlen Hi]].
    + exfalso. apply Hnot. eapply list_elem_of_lookup_2, Hi.
    + assert (i = length (Rec.phones self)) as ->.
      { apply lookup_lt_Some in Hi. simpl in Hi. clear - Hlen Hi. lia. }
      simpl. rewrite delete_take_drop.
      rewrite take_app_length.
      rewrite <- (Nat.add_1_r (length (Rec.phones self))).
      rewrite <- drop_drop, drop_app_length.
      unfold Rec.set_phones. simpl. rewrite app_nil_r. destruct self; reflexivity.
  - apply RecFacts.find_phone_None in E. exfalso. apply E. simpl.
    apply elem_of_app. right. left.
Qed.

Lemma X6_remove_after_add_witness :
  Spec.phone_rule (Str.strip " 5555555555") /\
  (Str.strip " 5555555555" ∉ Rec.phones Sample.two_phones) /\
  Rec.remove_phone "5555555555" (snd (Rec.add_phone " 5555555555" Sample.two_phones)) =
    (Ok true, Sample.two_phones).
Proof.
  assert (Spec.phone_rule (Str.strip " 5555555555")) as R by (split; reflexivity).
  assert (Str.strip " 5555555555" ∉ Rec.phones Sample.two_phones) as N.
  { vm_compute. intros H. repeat (apply elem_of_cons in H as [H|H]; [discriminate|]).
    apply elem_of_nil in H. exact H. }
  split; [exact R|]. split; [exact N|].
  exact (X6_remove_after_add " 5555555555" Sample.two_phones R N).
Defined.

(** X7.  Editing a stored phone to itself succeeds and leaves the
    record as it is. *)
Theorem X7_edit_phone_same name ops old :
  old ∈ Rec.phones (Rec.run ops (Rec.init name)) ->
  Rec.edit_phone old old (Rec.run ops (Rec.init name)) =
    (Ok true, Rec.run ops (Rec.init name)).
Proof.
  set (self := Rec.run ops (Rec.init name)). intros Hin.
  assert (Spec.wf self) as [Hp _] by apply RecFacts.run_wf, RecFacts.init_wf.
  rewrite Forall_forall in Hp. pose proof (Hp old Hin) as R.
  pose proof (PhoneFacts.phone_rule_strip old R) as Hs.
  unfold Rec.edit_phone.
  destruct (RecFacts.find_phone_elem old self Hin) as [i Hi]. rewrite Hi.
  apply RecFacts.find_phone_Some in Hi as (_ & Hi & _).
  rewrite <- Hs in R. rewrite (PhoneFacts.value_setter_ok old R), Hs.
  rewrite (list_insert_id _ _ _ Hi). destruct self; reflexivity.
Qed.

Lemma X7_edit_phone_same_witness :
  "1111111111" ∈ Rec.phones Sample.two_phones /\
  Rec.edit_phone "1111111111" "1111111111" Sample.two_phones =
    (Ok true, Sample.two_phones).
Proof.
  assert ("1111111111" ∈ Rec.phones Sample.two_phones) as H
    by (vm_compute; right; left).
  split; [exact H|].
  exact (X7_edit_phone_same "Carol"
           [Rec.AddPhone "0123456789"; Rec.AddPhone "1111111111"] "1111111111" H).
Defined.

(** X8.  Adding a phone does not change what [find_phone] returns for
    a phone that was found before. *)
Theorem X8_find_after_other_add p q (self : Rec.record) i x :
  Rec.find_phone q self = Some (i, x) ->
  Rec.find_phone q (snd (Rec.add_phone p self)) = Some (i, x).
Proof.
  intros H. unfold Rec.add_phone. destruct (Phone.init p); simpl; [|exact H].
  unfold Rec.find_phone in *. simpl. apply list_find_app_l, H.
Qed.

Lemma X8_find_after_other_add_witness :
  Rec.find_phone "1111111111" Sample.two_phones = Some (1%nat, "1111111111") /\
  Rec.find_phone "1111111111" (snd (Rec.add_phone "1111111111" Sample.two_phones)) =
    Some (1%nat, "1111111111").
Proof.
  assert (Rec.find_phone "1111111111" Sample.two_phones = Some (1%nat, "1111111111"))
    as H by reflexivity.
  split; [exact H|].
  exact (X8_find_after_other_add "1111111111" "1111111111" Sample.two_phones _ _ H).
Defined.

(** X9.  Every date the query returns is the text of a working day
    (Monday to Friday) that lies between today and nine days later. *)
Theorem X9_congratulation_day today data es e :
  Date.valid today = true -> Date.year today < Date.MAXYEAR ->
  AddressBook.reachable data ->
  AddressBook.get_upcoming_birthdays today data = Ok es -> e ∈ es ->
  exists cd,
    AddressBook.congratulation_date e = Strptime.strftime_iso cd /\
    Date.valid cd = true /\ 0 <= Date.weekday cd <= 4 /\
    Date.toordinal today <= Date.toordinal cd <= Date.toordinal today + 9.
Proof.
  intros Ht Hy Hr Hq He.
  destruct (QueryFacts.get_upcoming_birthdays_elem _ _ _ Hq) as (end_date & Hend & Hel).
  apply (proj1 (Hel e)) in He. destruct He as (r & Hin & Hv).
  destruct (CalendarFacts.visit_Some _ _ _ _ Hv) as (_ & b & Hb).
  assert (Date.valid b = true) as Hvb.
  { pose proof (BookFacts.book_wf_birthdays _ (BookFacts.reachable_wf _ Hr)) as Hf.
    rewrite Forall_forall in Hf. apply (Hf r Hin b Hb). }
  destruct (WindowFacts.end_date_ok today Ht Hy) as (ed & Hed & Hedv & Hedo & Hmax).
  rewrite Hend in Hed. injection Hed as Hed. subst ed.
  destruct (WindowFacts.visit_birthday today Ht Hy end_date Hend r b Hb Hvb)
    as (c & Hc & Hcv & [(Hw & cd & Hs & Ho & Hvis)|(_ & Hvis)]).
  - rewrite Hv in Hvis. injection Hvis as ->. exists cd. simpl.
    apply andb_prop in Hw as [H1 H2].
    apply WindowFacts.leb_iff in H1, H2; try assumption.
    destruct (WindowFacts.shift_weekend_ok c Hcv) as (cd' & Hs' & Hcdv & _); [lia|].
    rewrite Hs in Hs'. injection Hs' as <-.
    split; [reflexivity|]. split; [exact Hcdv|].
    split; [apply (CalendarFacts.shifted_weekday c cd Ho)|].
    destruct (Date.weekday c =? 5); [lia|]. destruct (Date.weekday c =? 6); lia.
  - rewrite Hv in Hvis. discriminate.
Qed.

Lemma X9_congratulation_day_witness :
  AddressBook.get_upcoming_birthdays Sample.saturday Inputs.friends =
    Ok [AddressBook.mk_entry "Alice" "2024-01-08"] /\
  exists cd,
    "2024-01-08" = Strptime.strftime_iso cd /\
    Date.valid cd = true /\ 0 <= Date.weekday cd <= 4 /\
    Date.toordinal Sample.saturday <= Date.toordinal cd <=
      Date.toordinal Sample.saturday + 9.
Proof.
  assert (AddressBook.get_upcoming_birthdays Sample.saturday Inputs.friends =
            Ok [AddressBook.mk_entry "Alice" "2024-01-08"]) as H
    by (vm_compute; reflexivity).
  split; [exact H|].
  apply (X9_congratulation_day Sample.saturday Inputs.friends
           [AddressBook.mk_entry "Alice" "2024-01-08"]
           (AddressBook.mk_entry "Alice" "2024-01-08")).
  - reflexivity.
  - reflexivity.
  - exact ResultFacts.friends_reachable.
  - exact H.
  - left.
Defined.

(** X10.  The candidate date of a birthday is never before today: the
    [try] block and the roll-forward succeed, and the lower test of
    the window, [today <= candidate], holds for every stored
    birthday. *)
Theorem X10_candidate_not_past today b :
  Date.valid today = true -> Date.year today < Date.MAXYEAR ->
  Date.valid b = true ->
  exists this_year c,
    AddressBook.bday_this_year (Date.year today) (Date.month b) (Date.day b) =
      Ok (Some this_year) /\
    AddressBook.candidate today this_year (Date.month b) (Date.day b) = Ok c /\
    Date.leb today c = true.
Proof.
  intros Ht Hy Hb.
  exists (Spec.observed (Date.year today) b).
  destruct (WindowFacts.candidate_value today Ht Hy b Hb) as [Hc _].
  eexists. split; [apply WindowFacts.bday_this_year_observed; assumption|].
  split; [exact Hc|].
  destruct (Date.leb today (Spec.observed (Date.year today) b)) eqn:E; [exact E|].
  apply CalendarFacts.ltb_leb, CalendarFacts.rolled_later.
Qed.

Lemma X10_candidate_not_past_witness :
  exists this_year c,
    AddressBook.bday_this_year 2023 2 29 = Ok (Some this_year) /\
    AddressBook.candidate Sample.march this_year 2 29 = Ok c /\
    Date.leb Sample.march c = true.
Proof.
  apply (X10_candidate_not_past Sample.march (Date.mk 1996 2 29)); reflexivity.
Defined.

(** X11.  For dates from the year 1000 on, the text
    [strftime("%Y-%m-%d")] gives dates the order of the dates
    themselves: comparing two such texts as strings, as the sort of
    the result and of the lines of [birthdays] does, is comparing the
    dates.  Before the year 1000 it is not so: [%Y] writes the year
    without leading zeros, and the text of December 30th 999 does not
    come before the one of January 2nd 1000. *)
Theorem X11_iso_order :
  (forall a b,
     Date.valid a = true -> Date.valid b = true ->
     1000 <= Date.year a -> 1000 <= Date.year b ->
     String.ltb (Strptime.strftime_iso a) (Strptime.strftime_iso b) = Date.ltb a b) /\
  (Date.valid (Date.mk 999 12 30) = true /\
   Date.ltb (Date.mk 999 12 30) (Date.mk 1000 1 2) = true /\
   Strptime.strftime_iso (Date.mk 999 12 30) = "999-12-30" /\
   String.ltb (Strptime.strftime_iso (Date.mk 999 12 30))
     (Strptime.strftime_iso (Date.mk 1000 1 2)) = false).
Proof.
  split; [|repeat split; vm_compute; reflexivity].
  intros a b Ha Hb Ha4 Hb4. unfold String.ltb.
  rewrite (CalendarFacts.compare_iso a b Ha Hb Ha4 Hb4).
  destruct (Date.ltb a b) eqn:E.
  - apply CalendarFacts.date_compare_lt in E. rewrite E. reflexivity.
  - destruct (Props.date_compare a b) eqn:C; try reflexivity.
    apply CalendarFacts.date_compare_lt in C. congruence.
Qed.

Lemma X11_iso_order_witness :
  String.ltb (Strptime.strftime_iso Sample.saturday) (Strptime.strftime_iso Sample.monday) =
    Date.ltb Sample.saturday Sample.monday.
Proof.
  apply (proj1 X11_iso_order); [reflexivity|reflexivity|simpl; lia|simpl; lia].
Defined.

(** X12.  When the query returns on a book the operations produced,
    no contact is listed twice, the names in the result being
    distinct; the result has no more entries than the book has
    contacts; and each entry carries the name of a contact that is
    found under that name and has a birthday. *)
Theorem X12_entries_are_contacts today data es :
  AddressBook.reachable data ->
  AddressBook.get_upcoming_birthdays today data = Ok es ->
  NoDup (map AddressBook.name es) /\
  (length es <= length data)%nat /\
  forall e, e ∈ es ->
    exists r b, AddressBook.find (AddressBook.name e) data = Some r /\
      Rec.name r = AddressBook.name e /\ Rec.birthday r = Some b.
Proof.
  intros Hr Hq. split; [|split].
  - destruct (SortFacts.get_upcoming_birthdays_sort _ _ _ Hq)
      as (end_date & upcoming & _ & Hl & ->).
    rewrite (Permutation_map AddressBook.name (ResultFacts.sort_Permutation _)).
    apply (ResultFacts.loop_NoDup _ _ _ _ _ Hl). simpl.
    rewrite (ResultFacts.keyed_names data (DictFacts.reachable_keyed _ Hr)).
    apply DictFacts.reachable_keyed, Hr.
  - destruct (SortFacts.get_upcoming_birthdays_sort _ _ _ Hq)
      as (end_date & upcoming & _ & Hl & ->).
    rewrite CalendarFacts.sort_length.
    apply CalendarFacts.loop_length in Hl. unfold AddressBook.values in Hl.
    rewrite length_map in Hl. simpl in Hl. exact Hl.
  - intros e He.
    destruct (QueryFacts.get_upcoming_birthdays_elem _ _ _ Hq) as (end_date & _ & Hel).
    apply (proj1 (Hel e)) in He. destruct He as (r & Hin & Hv).
    destruct (CalendarFacts.visit_Some _ _ _ _ Hv) as (Hn & b & Hb).
    exists r, b. rewrite Hn.
    split; [apply ResultFacts.values_find; [apply DictFacts.reachable_keyed, Hr|exact Hin]|].
    split; [reflexivity|exact Hb].
Qed.

Lemma X12_entries_are_contacts_witness :
  AddressBook.get_upcoming_birthdays Sample.monday Inputs.friends =
    Ok [AddressBook.mk_entry "Alice" "2024-01-08"; AddressBook.mk_entry "Bob" "2024-01-08"] /\
  NoDup ["Alice"; "Bob"] /\
  (2 <= length Inputs.friends)%nat /\
  forall e, e ∈ [AddressBook.mk_entry "Alice" "2024-01-08";
                 AddressBook.mk_entry "Bob" "2024-01-08"] ->
    exists r b, AddressBook.find (AddressBook.name e) Inputs.friends = Some r /\
      Rec.name r = AddressBook.name e /\ Rec.birthday r = Some b.
Proof.
  assert (AddressBook.get_upcoming_birthdays Sample.monday Inputs.friends =
            Ok [AddressBook.mk_entry "Alice" "2024-01-08";
                AddressBook.mk_entry "Bob" "2024-01-08"]) as H
    by (vm_compute; reflexivity).
  split; [exact H|].
  exact (X12_entries_are_contacts Sample.monday Inputs.friends
           [AddressBook.mk_entry "Alice" "2024-01-08";
            AddressBook.mk_entry "Bob" "2024-01-08"]
           ResultFacts.friends_reachable H).
Defined.

(** X13.  No contact is listed twice: the names in the result of the
    query are distinct. *)
Theorem X13_no_contact_twice today data es :
  Date.valid today = true -> Date.year today < Date.MAXYEAR ->
  AddressBook.reachable data ->
  AddressBook.get_upcoming_birthdays today data = Ok es ->
  NoDup (map AddressBook.name es).
Proof.
  intros Ht Hy Hr Hq.
  destruct (WindowFacts.end_date_ok today Ht Hy) as (end_date & Hend & _).
  pose proof (BookFacts.book_wf_birthdays _ (BookFacts.reachable_wf _ Hr)) as Hf.
  rewrite (WindowFacts.get_upcoming_birthdays_total today Ht Hy end_date Hend data Hf)
    in Hq.
  injection Hq as <-.
  rewrite (Permutation_map AddressBook.name (ResultFacts.sort_Permutation _)).
  apply ResultFacts.appended_NoDup.
  rewrite (ResultFacts.keyed_names data (DictFacts.reachable_keyed _ Hr)).
  apply DictFacts.reachable_keyed, Hr.
Qed.

Lemma X13_no_contact_twice_witness :
  AddressBook.get_upcoming_birthdays Sample.monday Inputs.friends =
    Ok [AddressBook.mk_entry "Alice" "2024-01-08"; AddressBook.mk_entry "Bob" "2024-01-08"] /\
  NoDup ["Alice"; "Bob"].
Proof.
  assert (AddressBook.get_upcoming_birthdays Sample.monday Inputs.friends =
            Ok [AddressBook.mk_entry "Alice" "2024-01-08";
                AddressBook.mk_entry "Bob" "2024-01-08"]) as H
    by (vm_compute; reflexivity).
  split; [exact H|].
  apply (X13_no_contact_twice Sample.monday Inputs.friends
           [AddressBook.mk_entry "Alice" "2024-01-08";
            AddressBook.mk_entry "Bob" "2024-01-08"]).
  - reflexivity.
  - reflexivity.
  - exact ResultFacts.friends_reachable.
  - exact H.
Defined.

(** X14.  The result of the query does not depend on the order in
    which the contacts were put into the book. *)
Theorem X14_order_independent today data data' :
  Date.valid today = true -> Date.year today < Date.MAXYEAR ->
  AddressBook.reachable data -> data ≡ₚ data' ->
  AddressBook.get_upcoming_birthdays today data' =
    AddressBook.get_upcoming_birthdays today data.
Proof.
  intros Ht Hy Hr Hp.
  destruct (WindowFacts.end_date_ok today Ht Hy) as (end_date & Hend & _).
  pose proof (BookFacts.book_wf_birthdays _ (BookFacts.reachable_wf _ Hr)) as Hf.
  assert (AddressBook.values data ≡ₚ AddressBook.values data') as Hv
    by (apply Permutation_map, Hp).
  assert (Forall Spec.birthday_ok (AddressBook.values data')) as Hf'
    by (rewrite <- Hv; exact Hf).
  rewrite (WindowFacts.get_upcoming_birthdays_total today Ht Hy end_date Hend data Hf).
  rewrite (WindowFacts.get_upcoming_birthdays_total today Ht Hy end_date Hend data' Hf').
  f_equal. apply ResultFacts.sorted_unique; [apply SortFacts.sort_sorted..|].
  rewrite !ResultFacts.sort_Permutation. rewrite Hv. reflexivity.
Qed.

Lemma X14_order_independent_witness :
  AddressBook.get_upcoming_birthdays Sample.monday
    (Sample.book_of [Sample.bob; Sample.alice]) =
  AddressBook.get_upcoming_birthdays Sample.monday Inputs.friends.
Proof.
  apply X14_order_independent.
  - reflexivity.
  - reflexivity.
  - exact ResultFacts.friends_reachable.
  - apply Permutation_swap.
Defined.

(** X15.  [parse_input] returns a command in lower case and arguments
    that are words: not empty and free of white space.  The command is
    empty exactly when the line holds white space only, and then there
    are no arguments. *)
Theorem X15_parse_input_words user_input :
  Forall Props.token (snd (Cli.parse_input user_input)) /\
  Text.lower (fst (Cli.parse_input user_input)) = fst (Cli.parse_input user_input) /\
  (fst (Cli.parse_input user_input) = EmptyString <-> Props.blank user_input) /\
  (Props.blank user_input -> snd (Cli.parse_input user_input) = []).
Proof.
  unfold Cli.parse_input. rewrite SplitFacts.split_strip.
  pose proof (SplitFacts.split_tokens user_input) as Ht.
  pose proof (SplitFacts.split_nil user_input) as Hn.
  destruct (Text.split user_input) as [|w ws]; simpl.
  - split; [constructor|]. split; [reflexivity|].
    split; [|reflexivity]. split; intros _; [apply Hn|]; reflexivity.
  - apply Forall_cons in Ht as [Hw Hws].
    split; [exact Hws|]. split; [apply SplitFacts.lower_idem|].
    split.
    + split.
      * intros E. apply SplitFacts.lower_token in Hw as [Hw _]. contradiction.
      * intros Hb. apply Hn in Hb. discriminate.
    + intros Hb. apply Hn in Hb. discriminate.
Qed.

(** X16.  [parse_input] on words joined by single spaces returns the
    first word in lower case and the other words as they are. *)
Theorem X16_parse_input_join w ws :
  Forall Props.token (w :: ws) ->
  Cli.parse_input (Text.join " " (w :: ws)) = (Text.lower w, ws).
Proof.
  intros H. unfold Cli.parse_input.
  rewrite SplitFacts.split_strip, (SplitFacts.split_join _ H). reflexivity.
Qed.

Lemma X16_parse_input_join_witness :
  Forall Props.token ["ADD"; "Alice"; "0123456789"] /\
  Cli.parse_input "ADD Alice 0123456789" = ("add", ["Alice"; "0123456789"]).
Proof.
  assert (Forall Props.token ["ADD"; "Alice"; "0123456789"]) as H
    by (repeat constructor; discriminate).
  split; [exact H|]. exact (X16_parse_input_join "ADD" ["Alice"; "0123456789"] H).
Defined.

(** X17.  A handler that is given fewer arguments than it unpacks
    answers with the text of Python's unpacking error and leaves the
    book as it is; that text is never [Not enough arguments.], the
    answer [input_error] keeps for an [IndexError]. *)
Theorem X17_missing_arguments args book :
  ((length args < 2)%nat ->
   Cli.add_contact args book = (Props.unpack_message 2 args, book) /\
   Cli.add_birthday args book = (Props.unpack_message 2 args, book)) /\
  ((length args < 3)%nat ->
   Cli.change_phone args book = (Props.unpack_message 3 args, book)) /\
  ((length args < 1)%nat ->
   Cli.show_phones args book = (Props.unpack_message 1 args, book) /\
   Cli.show_birthday args book = (Props.unpack_message 1 args, book)) /\
  forall n, Props.unpack_message n args <> "Not enough arguments.".
Proof.
  split; [|split; [|split]].
  - intros H. destruct args as [|a [|b args]]; simpl in H; try lia; split; reflexivity.
  - intros H. destruct args as [|a [|b [|c args]]]; simpl in H; try lia; reflexivity.
  - intros H. destruct args as [|a args]; simpl in H; try lia; split; reflexivity.
  - intros n H. discriminate H.
Qed.

Lemma X17_missing_arguments_witness :
  Cli.add_contact ["Alice"] Inputs.friends =
    ("not enough values to unpack (expected at least 2, got 1)", Inputs.friends) /\
  Cli.change_phone ["Alice"; "0123456789"] Inputs.friends =
    ("not enough values to unpack (expected at least 3, got 2)", Inputs.friends) /\
  Cli.show_phones [] Inputs.friends =
    ("not enough values to unpack (expected at least 1, got 0)", Inputs.friends).
Proof.
  split; [|split].
  - apply (proj1 (X17_missing_arguments ["Alice"] Inputs.friends)). simpl. lia.
  - apply (proj1 (proj2 (X17_missing_arguments ["Alice"; "0123456789"] Inputs.friends))).
    simpl. lia.
  - apply (proj1 (proj2 (proj2 (X17_missing_arguments [] Inputs.friends)))).
    simpl. lia.
Defined.

(** X18.  [add_contact] for a name that is not in the book puts a new
    contact at the end of the book.  With a phone that passes the
    phone rule the contact holds it; with an empty phone the contact
    has no phone; with any other phone the answer is the message of
    the phone rule, and the new contact stays in the book without a
    phone. *)
Theorem X18_add_contact_new name phone rest book :
  AddressBook.find name book = None ->
  (Spec.phone_rule (Str.strip phone) ->
   Cli.add_contact (name :: phone :: rest) book =
     ("Contact added.", book ++ [(name, Rec.mk name [Str.strip phone] None)])) /\
  (phone = EmptyString ->
   Cli.add_contact (name :: phone :: rest) book =
     ("Contact added.", book ++ [(name, Rec.init name)])) /\
  (phone <> EmptyString -> ~ Spec.phone_rule (Str.strip phone) ->
   Cli.add_contact (name :: phone :: rest) book =
     (Spec.message, book ++ [(name, Rec.init name)])).
Proof.
  intros Hf. unfold Cli.add_contact, Cli.input_error, Cli.add_contact_body.
  rewrite Hf, (HandlerFacts.add_init_None name book Hf), CliFacts.call_step.
  unfold Rec.add_phone, Phone.init. split; [|split].
  - intros R.
    assert (Cli.truthy phone = true) as ->.
    { apply HandlerFacts.truthy_iff. intros ->. destruct R as [_ R]. discriminate R. }
    rewrite (PhoneFacts.value_setter_ok phone R). simpl.
    rewrite (HandlerFacts.setitem_last name _ _ book Hf). reflexivity.
  - intros ->. reflexivity.
  - intros Hn R. apply HandlerFacts.truthy_iff in Hn. rewrite Hn.
    rewrite (PhoneFacts.value_setter_raise phone R). simpl.
    rewrite (HandlerFacts.setitem_last name _ _ book Hf). reflexivity.
Qed.

Lemma X18_add_contact_new_witness :
  AddressBook.find "Carol" Inputs.friends = None /\
  Cli.add_contact ["Carol"; "12345"] Inputs.friends =
    ("Phone number must be 10 digits.", Inputs.friends ++ [("Carol", Rec.init "Carol")]).
Proof.
  assert (AddressBook.find "Carol" Inputs.friends = None) as H by reflexivity.
  split; [exact H|].
  apply (proj2 (proj2 (X18_add_contact_new "Carol" "12345" [] Inputs.friends H))).
  - discriminate.
  - intros [_ R]. discriminate R.
Defined.

(** X19.  [add_contact] for a name that is in the book: a phone that
    passes the phone rule goes to the end of the contact's phones,
    also when the contact holds it already; an empty phone changes
    nothing and is answered as an update; any other phone is answered
    with the message of the phone rule and changes nothing. *)
Theorem X19_add_contact_known name phone rest book record :
  AddressBook.find name book = Some record ->
  (Spec.phone_rule (Str.strip phone) ->
   Cli.add_contact (name :: phone :: rest) book =
     ("Contact updated.",
      AddressBook.setitem name
        (Rec.set_phones record (Rec.phones record ++ [Str.strip phone])) book)) /\
  (~ Spec.phone_rule (Str.strip phone) ->
   Cli.add_contact (name :: phone :: rest) book =
     (if Cli.truthy phone then Spec.message else "Contact updated.", book)).
Proof.
  intros Hf. unfold Cli.add_contact, Cli.input_error, Cli.add_contact_body.
  rewrite Hf, CliFacts.call_step. unfold Rec.add_phone, Phone.init. split.
  - intros R.
    assert (Cli.truthy phone = true) as ->.
    { apply HandlerFacts.truthy_iff. intros ->. destruct R as [_ R]. discriminate R. }
    rewrite (PhoneFacts.value_setter_ok phone R). reflexivity.
  - intros R. destruct (Cli.truthy phone); [|reflexivity].
    rewrite (PhoneFacts.value_setter_raise phone R). simpl.
    rewrite (DictFacts.setitem_same name record book Hf). reflexivity.
Qed.

Lemma X19_add_contact_known_witness :
  AddressBook.find "Carol" Inputs.carol_book = Some Sample.two_phones /\
  Cli.add_contact ["Carol"; "1111111111"] Inputs.carol_book =
    ("Contact updated.",
     [("Carol", Rec.mk "Carol" ["0123456789"; "1111111111"; "1111111111"] None)]).
Proof.
  assert (AddressBook.find "Carol" Inputs.carol_book = Some Sample.two_phones) as H
    by reflexivity.
  split; [exact H|].
  apply (proj1 (X19_add_contact_known "Carol" "1111111111" [] Inputs.carol_book
                  Sample.two_phones H)).
  split; reflexivity.
Defined.

(** X20.  The four answers of [change_phone]: the contact is not in
    the book; the old phone is not among the contact's phones; the
    new phone fails the phone rule (the book stays as it is); or the
    first phone equal to the old one is replaced, in the book, by the
    new one without its surrounding white space. *)
Theorem X20_change_phone name old_phone new_phone rest book :
  match AddressBook.find name book with
  | None =>
      Cli.change_phone (name :: old_phone :: new_phone :: rest) book =
        ("Contact not found.", book)
  | Some record =>
      match Rec.find_phone old_phone record with
      | None =>
          Cli.change_phone (name :: old_phone :: new_phone :: rest) book =
            ("Old phone not found.", book)
      | Some (i, _) =>
          (Spec.phone_rule (Str.strip new_phone) ->
           Cli.change_phone (name :: old_phone :: new_phone :: rest) book =
             ("Phone updated.",
              AddressBook.setitem name
                (Rec.set_phones record (<[i := Str.strip new_phone]> (Rec.phones record)))
                book)) /\
          (~ Spec.phone_rule (Str.strip new_phone) ->
           Cli.change_phone (name :: old_phone :: new_phone :: rest) book =
             (Spec.message, book))
      end
  end.
Proof.
  unfold Cli.change_phone, Cli.input_error, Cli.change_phone_body.
  destruct (AddressBook.find name book) as [record|] eqn:Hf; [|reflexivity].
  rewrite CliFacts.call_step. unfold Rec.edit_phone.
  destruct (Rec.find_phone old_phone record) as [[i p]|] eqn:E; simpl.
  - split; intros R.
    + rewrite (PhoneFacts.value_setter_ok new_phone R). reflexivity.
    + rewrite (PhoneFacts.value_setter_raise new_phone R). simpl.
      rewrite (DictFacts.setitem_same name record book Hf). reflexivity.
  - rewrite (DictFacts.setitem_same name record book Hf). reflexivity.
Qed.

Lemma X20_change_phone_witness :
  Cli.change_phone ["Carol"; "1111111111"; " 2222222222 "] Inputs.carol_book =
    ("Phone updated.", [("Carol", Rec.mk "Carol" ["0123456789"; "2222222222"] None)]) /\
  Cli.change_phone ["Carol"; "1111111111"; "22"] Inputs.carol_book =
    ("Phone number must be 10 digits.", Inputs.carol_book).
Proof.
  split.
  - apply (proj1 (X20_change_phone "Carol" "1111111111" " 2222222222 " []
                    Inputs.carol_book)).
    split; reflexivity.
  - apply (proj2 (X20_change_phone "Carol" "1111111111" "22" [] Inputs.carol_book)).
    intros [_ R]. discriminate R.
Defined.

(** X21.  [add_birthday] for a contact of the book: a text that
    [Birthday] accepts is stored, and [show_birthday] then answers
    with that date as [%d.%m.%Y] writes it.  For a text of the form
    DD.MM.YYYY that answer is the text that was given when the year is
    1000 or later, and another text when the year is earlier, [%Y]
    writing the year without leading zeros.  A text that [Birthday]
    rejects is answered with the message of the date format and the
    book stays as it is. *)
Theorem X21_birthday_round_trip name s rest rest' book record :
  AddressBook.find name book = Some record ->
  match Birthday.init s with
  | Ok d =>
      Cli.add_birthday (name :: s :: rest) book =
        ("Birthday added.",
         AddressBook.setitem name (Rec.set_birthday record (Some d)) book) /\
      Cli.show_birthday (name :: rest')
        (snd (Cli.add_birthday (name :: s :: rest) book)) =
        (Strptime.strftime_dmy d, snd (Cli.add_birthday (name :: s :: rest) book)) /\
      (Spec.strict_dmy s = true ->
       (1000 <= Date.year d -> Strptime.strftime_dmy d = s) /\
       (Date.year d < 1000 -> Strptime.strftime_dmy d <> s))
  | Raise _ =>
      Cli.add_birthday (name :: s :: rest) book =
        ("Invalid date format. Use DD.MM.YYYY", book)
  end.
Proof.
  intros Hf.
  assert (Cli.add_birthday (name :: s :: rest) book =
          match Birthday.init s with
          | Ok d => ("Birthday added.",
                     AddressBook.setitem name (Rec.set_birthday record (Some d)) book)
          | Raise _ => ("Invalid date format. Use DD.MM.YYYY", book)
          end) as Ha.
  { unfold Cli.add_birthday, Cli.input_error, Cli.add_birthday_body.
    rewrite Hf, CliFacts.call_step. unfold Rec.add_birthday.
    destruct (Birthday.init s) as [d|e] eqn:E; simpl; [reflexivity|].
    rewrite (RecFacts.birthday_init_raise s e E). simpl.
    rewrite (DictFacts.setitem_same name record book Hf). reflexivity. }
  rewrite Ha. destruct (Birthday.init s) as [d|e] eqn:E; [|reflexivity].
  split; [reflexivity|]. split.
  - simpl. unfold Cli.show_birthday, Cli.input_error, Cli.show_birthday_body.
    rewrite DictFacts.find_setitem, String.eqb_refl. reflexivity.
  - intros Hs. split.
    + apply FormatFacts.birthday_round_trip; assumption.
    + intros Hy. apply (FormatFacts.birthday_init_strict s d Hs) in E as [Hv ->].
      apply FormatFacts.strftime_dmy_short.
      apply DateFacts.valid_fields in Hv. lia.
Qed.

Lemma X21_birthday_round_trip_witness :
  AddressBook.find "Carol" Inputs.carol_book = Some Sample.two_phones /\
  Cli.show_birthday ["Carol"]
    (snd (Cli.add_birthday ["Carol"; "29.02.2024"] Inputs.carol_book)) =
    ("29.02.2024", snd (Cli.add_birthday ["Carol"; "29.02.2024"] Inputs.carol_book)) /\
  Cli.show_birthday ["Carol"]
    (snd (Cli.add_birthday ["Carol"; "02.01.0999"] Inputs.carol_book)) =
    ("02.01.999", snd (Cli.add_birthday ["Carol"; "02.01.0999"] Inputs.carol_book)).
Proof.
  assert (AddressBook.find "Carol" Inputs.carol_book = Some Sample.two_phones) as H
    by reflexivity.
  split; [exact H|]. split.
  - exact (proj1 (proj2 (X21_birthday_round_trip "Carol" "29.02.2024" [] []
                           Inputs.carol_book Sample.two_phones H))).
  - exact (proj1 (proj2 (X21_birthday_round_trip "Carol" "02.01.0999" [] []
                           Inputs.carol_book Sample.two_phones H))).
Defined.

(** X22.  After [add_contact] with a phone that passes the phone
    rule, [show_phones] for that name lists the phones the contact
    had before, followed by the new one without its surrounding white
    space. *)
Theorem X22_show_after_add name phone rest rest' book :
  Spec.phone_rule (Str.strip phone) ->
  Cli.show_phones (name :: rest') (snd (Cli.add_contact (name :: phone :: rest) book)) =
    (Text.join ", "
       (match AddressBook.find name book with
        | Some record => Rec.phones record
        | None => []
        end ++ [Str.strip phone]),
     snd (Cli.add_contact (name :: phone :: rest) book)).
Proof.
  intros R.
  assert (exists record,
            AddressBook.find name (snd (Cli.add_contact (name :: phone :: rest) book)) =
              Some record /\
            Rec.phones record =
              match AddressBook.find name book with
              | Some record => Rec.phones record
              | None => []
              end ++ [Str.strip phone]) as (record & Hf & Hp).
  { rewrite (HandlerFacts.add_contact_valid name phone rest book R). simpl.
    rewrite DictFacts.find_setitem, String.eqb_refl.
    destruct (AddressBook.find name book); simpl; eauto. }
  unfold Cli.show_phones, Cli.input_error, Cli.show_phones_body at 1.
  rewrite Hf, Hp.
  destruct (_ ++ [Str.strip phone]) eqn:E; [|reflexivity].
  apply HandlerFacts.snoc_not_nil in E. contradiction.
Qed.

Lemma X22_show_after_add_witness :
  Spec.phone_rule (Str.strip " 5555555555") /\
  Cli.show_phones ["Carol"]
    (snd (Cli.add_contact ["Carol"; " 5555555555"] Inputs.carol_book)) =
    ("0123456789, 1111111111, 5555555555",
     snd (Cli.add_contact ["Carol"; " 5555555555"] Inputs.carol_book)).
Proof.
  assert (Spec.phone_rule (Str.strip " 5555555555")) as R by (split; reflexivity).
  split; [exact R|].
  exact (X22_show_after_add "Carol" " 5555555555" [] [] Inputs.carol_book R).
Defined.

(** X23.  Only the commands [add], [change] and [add-birthday] change
    the book: after a turn of the loop with any other command the
    book is as before, whatever the arguments. *)
Theorem X23_other_commands_keep_book today user_input book :
  (fst (Cli.parse_input user_input) ∉ Props.changing) ->
  snd (fst (Cli.turn today user_input book)) = book.
Proof.
  unfold Cli.turn, Props.changing.
  destruct (Cli.parse_input user_input) as [command args]. simpl. intros H.
  destruct (String.eqb command "close" || String.eqb command "exit"); [reflexivity|].
  destruct (String.eqb_spec command "hello"); [reflexivity|].
  destruct (String.eqb_spec command "add") as [->|_].
  { exfalso. apply H. left. }
  destruct (String.eqb_spec command "change") as [->|_].
  { exfalso. apply H. right. left. }
  destruct (String.eqb_spec command "phone").
  { simpl. unfold Cli.show_phones.
    rewrite CliFacts.input_error_book. apply CliFacts.show_phones_book. }
  destruct (String.eqb_spec command "all").
  { simpl. unfold Cli.show_all.
    rewrite CliFacts.input_error_book. apply CliFacts.show_all_book. }
  destruct (String.eqb_spec command "add-birthday") as [->|_].
  { exfalso. apply H. right. right. left. }
  destruct (String.eqb_spec command "show-birthday").
  { simpl. unfold Cli.show_birthday.
    rewrite CliFacts.input_error_book. apply CliFacts.show_birthday_book. }
  destruct (String.eqb_spec command "birthdays").
  { simpl. unfold Cli.birthdays.
    rewrite CliFacts.input_error_book. apply CliFacts.birthdays_book. }
  reflexivity.
Qed.

Lemma X23_other_commands_keep_book_witness :
  (fst (Cli.parse_input "Birthdays now") ∉ Props.changing) /\
  snd (fst (Cli.turn Sample.monday "Birthdays now" Inputs.friends)) = Inputs.friends.
Proof.
  assert (fst (Cli.parse_input "Birthdays now") ∉ Props.changing) as H.
  { vm_compute. intros H. repeat (apply elem_of_cons in H as [H|H]; [discriminate|]).
    apply elem_of_nil in H. exact H. }
  split; [exact H|].
  exact (X23_other_commands_keep_book Sample.monday "Birthdays now" Inputs.friends H).
Defined.

(** X24.  Whatever lines are typed, a session that starts from a book
    the operations produced ends with a book in which the keys are
    distinct, each key is the name of its contact, every stored phone
    has ten digits, and every stored birthday is a date of the
    calendar. *)
Theorem X24_session_invariant today lines book :
  AddressBook.reachable book ->
  NoDup (map fst (snd (Cli.session today lines book))) /\
  Forall (fun kr =>
            fst kr = Rec.name (snd kr) /\
            Forall Spec.phone_rule (Rec.phones (snd kr)) /\
            forall b, Rec.birthday (snd kr) = Some b -> Date.valid b = true)
    (snd (Cli.session today lines book)).
Proof.
  intros Hb. apply (CliFacts.session_reachable today lines) in Hb.
  destruct (DictFacts.reachable_keyed _ Hb) as [Hnd Hk].
  pose proof (BookFacts.reachable_wf _ Hb) as Hw.
  split; [exact Hnd|].
  unfold Spec.book_wf in Hw. rewrite Forall_forall in Hk, Hw. apply Forall_forall. intros kr Hin.
  destruct (Hw kr Hin) as [Hp Hd].
  split; [apply Hk, Hin|]. split; [exact Hp|exact Hd].
Qed.

Lemma X24_session_invariant_witness :
  snd (Cli.session Sample.monday
         ["add Dan 123"; "add Dan 0123456789"; "add-birthday Dan 31.02.2020";
          "add-birthday Dan 1.3.2020"; "exit"] []) =
    [("Dan", Rec.mk "Dan" ["0123456789"] (Some (Date.mk 2020 3 1)))] /\
  NoDup ["Dan"].
Proof.
  split; [vm_compute; reflexivity|].
  exact (proj1 (X24_session_invariant Sample.monday
                  ["add Dan 123"; "add Dan 0123456789"; "add-birthday Dan 31.02.2020";
                   "add-birthday Dan 1.3.2020"; "exit"] []
                  AddressBook.reach_empty)).
Defined.

(** X25.  The answer of [birthdays] when the query returns entries:
    one line per congratulation date, the dates in strictly ascending
    order and so none twice, and after each date the names of its
    contacts in ascending order; the two calls of [sorted] change
    nothing, the order being the one of the result of the query.
    Every entry is on the line of its date.  Without entries the
    answer is that there are no birthdays. *)
Theorem X25_birthdays_lines today args book es :
  AddressBook.get_upcoming_birthdays today book = Ok es ->
  (es = [] -> Cli.birthdays today args book = ("No birthdays in the next week.", book)) /\
  (es <> [] ->
   Cli.birthdays today args book =
     (Text.join Text.LF (map Props.group_line (Cli.group es)), book)) /\
  StronglySorted Props.str_lt (map fst (Cli.group es)) /\
  Forall (fun g => snd g <> [] /\ StronglySorted Props.str_le (snd g)) (Cli.group es) /\
  forall e, e ∈ es ->
    exists names, (AddressBook.congratulation_date e, names) ∈ Cli.group es /\
      AddressBook.name e ∈ names.
Proof.
  intros Hq.
  assert (Props.group_ok [] (Cli.group es)) as [Hs Hg].
  { destruct (SortFacts.get_upcoming_birthdays_sort _ _ _ Hq) as (? & upcoming & _ & _ & ->).
    apply GroupFacts.group_ok_group, SortFacts.sort_sorted. }
  unfold Cli.birthdays, Cli.input_error, Cli.birthdays_body. rewrite Hq.
  split; [intros ->; reflexivity|].
  split.
  - intros Hne. destruct es as [|e es']; [contradiction|].
    rewrite (GroupFacts.lines_unsorted (Cli.group (e :: es')) (conj Hs Hg)). reflexivity.
  - split; [exact Hs|]. split.
    + eapply Forall_impl; [exact Hg|]. intros g (H1 & H2 & _). split; assumption.
    + intros e He. apply GroupFacts.group_elem, He.
Qed.

Lemma X25_birthdays_lines_witness :
  AddressBook.get_upcoming_birthdays Sample.monday Inputs.friends =
    Ok [AddressBook.mk_entry "Alice" "2024-01-08"; AddressBook.mk_entry "Bob" "2024-01-08"] /\
  Cli.birthdays Sample.monday [] Inputs.friends = ("2024-01-08: Alice, Bob", Inputs.friends).
Proof.
  assert (AddressBook.get_upcoming_birthdays Sample.monday Inputs.friends =
            Ok [AddressBook.mk_entry "Alice" "2024-01-08";
                AddressBook.mk_entry "Bob" "2024-01-08"]) as H
    by (vm_compute; reflexivity).
  split; [exact H|].
  apply (proj1 (proj2 (X25_birthdays_lines Sample.monday [] Inputs.friends _ H))).
  discriminate.
Defined.

(** X26.  The loop answers every line up to the first [close] or
    [exit], in any capitals; at that line it prints [Good bye!] and
    stops, the book being the one the lines before it left, and the
    lines after it are not read. *)
Theorem X26_session_stops today before user_input after book :
  Forall (fun u => fst (Cli.parse_input u) ∉ Props.stopping) before ->
  fst (Cli.parse_input user_input) ∈ Props.stopping ->
  Cli.session today (before ++ user_input :: after) book =
    (fst (Cli.session today before book) ++ ["Good bye!"],
     snd (Cli.session today before book)) /\
  length (fst (Cli.session today before book)) = length before.
Proof.
  intros Hb Hs. revert book.
  induction Hb as [|u before Hu _ IH]; intros book; simpl.
  - rewrite (HandlerFacts.turn_stop today user_input book Hs). split; reflexivity.
  - pose proof (HandlerFacts.turn_go_on today u book Hu) as Hg.
    destruct (Cli.turn today u book) as [[printed book'] go_on]. simpl in Hg. subst go_on.
    destruct (IH book') as [E L]. rewrite E.
    destruct (Cli.session today before book') as [more book'']. simpl in *.
    split; [reflexivity|]. rewrite L. reflexivity.
Qed.

Lemma X26_session_stops_witness :
  Cli.session Sample.monday ["hello"; "phone Alice"; "EXIT"; "add Alice 0123456789"]
    Inputs.friends =
    (["How can I help you?"; "No phones."; "Good bye!"], Inputs.friends).
Proof.
  refine (proj1 (X26_session_stops Sample.monday ["hello"; "phone Alice"] "EXIT"
                   ["add Alice 0123456789"] Inputs.friends _ _)).
  - repeat constructor; vm_compute; intros H;
      repeat (apply elem_of_cons in H as [H|H]; [discriminate|]);
      apply elem_of_nil in H; exact H.
  - vm_compute. right. left.
Defined.

(** X27.  Deleting a record that was just added under a name the book
    did not have gives the book back as it was. *)
Theorem X27_delete_after_add record data :
  AddressBook.find (Rec.name record) data = None ->
  AddressBook.delete (Rec.name record) (AddressBook.add_record record data) = (true, data).
Proof.
  intros H. unfold AddressBook.delete, AddressBook.add_record.
  rewrite DictFacts.find_setitem, String.eqb_refl.
  rewrite (DictFacts.setitem_None _ _ _ H).
  rewrite (HandlerFacts.delitem_last _ _ _ H). reflexivity.
Qed.

Lemma X27_delete_after_add_witness :
  AddressBook.find (Rec.name Sample.leap) Inputs.friends = None /\
  AddressBook.delete "Leap" (AddressBook.add_record Sample.leap Inputs.friends) =
    (true, Inputs.friends).
Proof.
  assert (AddressBook.find (Rec.name Sample.leap) Inputs.friends = None) as H
    by reflexivity.
  split; [exact H|]. exact (X27_delete_after_add Sample.leap Inputs.friends H).
Defined.
